(** * research-paper-podcast: the script-to-audio pipeline, embedded in Rocq

    A shallow embedding of [Podcast_Code/generate_audio.py],
    [Podcast_Code/llm_response.py], [Podcast_Code/make_podcast.py] and of the
    feed handling of [Make_All_Podcasts.py], followed by the properties of the
    specification that were checked against it.

    Conventions of the embedding:
    - a Python [str] is a [string]: a sequence of characters with code points
      below 256;
    - a Python [int] is a [Z];
    - a raised exception is the [Raise] branch of [result]; code that touches
      the file system, the log or an external service lives in the monad [M],
      which threads a [World] and keeps the effects made before a raise;
    - the language model, the speech engine, the resampler and the storage
      service are not part of the repository: they are fields of [Env]. *)

From Stdlib Require Import ZArith String Ascii List Lia Bool.
From stdpp Require Import base option list gmap sets strings pretty.

Local Open Scope Z_scope.

(** ** Python exceptions and results *)

Inductive exn_class :=
| ValueError | KeyError | IndexError | TypeError | ZeroDivisionError
| RuntimeError | UnboundLocalError | AttributeError
| FileNotFoundError | FileExistsError | IsADirectoryError
| NotADirectoryError | PermissionError | OtherOSError
| ApiError | ExternalError.

Record exn := Exn { exn_kind : exn_class; exn_msg : string }.

(** [isinstance(e, OSError)]. *)
Definition is_OSError (e : exn) : bool :=
  match exn_kind e with
  | FileNotFoundError | FileExistsError | IsADirectoryError
  | NotADirectoryError | PermissionError | OtherOSError => true
  | _ => false
  end.

Definition is_FileNotFoundError (e : exn) : bool :=
  match exn_kind e with FileNotFoundError => true | _ => false end.

(** [str(e)]. *)
Definition str_exn (e : exn) : string := exn_msg e.

Inductive result (A : Type) : Type :=
| Ok (a : A)
| Raise (e : exn).
Arguments Ok {A} a.
Arguments Raise {A} e.

Definition rbind {A B} (r : result A) (k : A -> result B) : result B :=
  match r with
  | Ok a => k a
  | Raise e => Raise e
  end.

Definition is_Ok {A} (r : result A) : bool :=
  match r with Ok _ => true | Raise _ => false end.

(** ** Python values that occur in metadata dicts *)

Inductive pyval :=
| PyNone
| PyStr (s : string)
| PyList (l : list string).

Global Instance pyval_eq_dec : EqDecision pyval.
Proof. solve_decision. Defined.

Global Instance pyval_countable : Countable pyval.
Proof.
  refine (inj_countable'
            (fun v => match v with
                      | PyNone => inl tt
                      | PyStr s => inr (inl s)
                      | PyList l => inr (inr l)
                      end)
            (fun x => match x with
                      | inl _ => PyNone
                      | inr (inl s) => PyStr s
                      | inr (inr l) => PyList l
                      end) _).
  intros []; reflexivity.
Defined.

(** Truth value of an optional dict entry, as tested by [if d.get(k):]. *)
Definition truthy (v : option pyval) : bool :=
  match v with
  | None | Some PyNone => false
  | Some (PyStr s) => negb (String.eqb s "")
  | Some (PyList l) => match l with [] => false | _ => true end
  end.

(** [sep.join(l)] for a list of strings. *)
Fixpoint str_join (sep : string) (l : list string) : string :=
  match l with
  | [] => ""
  | [x] => x
  | x :: rest => x +:+ sep +:+ str_join sep rest
  end.

Definition chars_of (s : string) : list string :=
  map (fun c => String c EmptyString) (list_ascii_of_string s).

(** [sep.join(v)] for a dict value: a string is iterated character by
    character, [None] is not iterable. *)
Definition py_join (sep : string) (v : pyval) : result string :=
  match v with
  | PyList l => Ok (str_join sep l)
  | PyStr s => Ok (str_join sep (chars_of s))
  | PyNone => Raise (Exn TypeError "can only join an iterable")
  end.


(** [d[k]]. *)
Definition dict_getitem (d : gmap string pyval) (k : string) : result pyval :=
  match d !! k with
  | Some v => Ok v
  | None => Raise (Exn KeyError ("'" +:+ k +:+ "'"))
  end.

(** [a % b] on integers: the result has the sign of [b]. *)
Definition py_mod (a b : Z) : result Z :=
  if Z.eqb b 0 then Raise (Exn ZeroDivisionError "integer modulo by zero")
  else Ok (a mod b).

(** [l[i]]: a negative index counts from the end. *)
Definition py_getitem {A} (l : list A) (i : Z) : result A :=
  let n := Z.of_nat (length l) in
  let j := if Z.ltb i 0 then i + n else i in
  if Z.ltb j 0 then Raise (Exn IndexError "list index out of range")
  else match l !! Z.to_nat j with
       | Some x => Ok x
       | None => Raise (Exn IndexError "list index out of range")
       end.

(** ** generate_audio.py: voices and text cleaning *)

Definition VOICES : list string :=
  ["af_bella"; "af_sarah"; "af_heart"; "am_michael"].

(** make_podcast.py, [get_next_voice]. *)
Definition get_next_voice (voices : list string) (current_index : Z)
  : result (string * Z) :=
  rbind (py_mod (current_index + 1) (Z.of_nat (length voices))) (fun next_index =>
  rbind (py_getitem voices next_index) (fun voice =>
  Ok (voice, next_index))).

(** [n] successive calls of [get_next_voice], each fed the index returned by
    the one before; the voices are collected in call order. *)
Fixpoint next_voices (voices : list string) (n : nat) (current_index : Z)
  : result (list string) :=
  match n with
  | O => Ok []
  | S n' =>
      rbind (get_next_voice voices current_index) (fun '(voice, idx) =>
      rbind (next_voices voices n' idx) (fun rest =>
      Ok (voice :: rest)))
  end.

(** The voice at position [i mod L] of a list of [L] voices. *)
Definition voice_at (voices : list string) (i : Z) : option string :=
  voices !! Z.to_nat (i mod Z.of_nat (length voices)).

Module Text.

Definition code (c : ascii) : N := N_of_ascii c.

(** Characters matched by [\s] and removed by [str.strip()]. *)
Definition is_space (c : ascii) : bool :=
  let n := code c in
  ((9 <=? n) && (n <=? 13) || (28 <=? n) && (n <=? 32)
   || (n =? 133) || (n =? 160))%N.

Definition is_alnum (c : ascii) : bool :=
  let n := code c in
  ((48 <=? n) && (n <=? 57) || (65 <=? n) && (n <=? 90)
   || (97 <=? n) && (n <=? 122))%N.

(** Characters outside the class [[^a-zA-Z0-9.,!?\'\-\s]]. *)
Definition is_kept (c : ascii) : bool :=
  is_alnum c
  || existsb (Ascii.eqb c) ["."; ","; "!"; "?"; "'"; "-"]%char
  || is_space c.

Fixpoint starts_with (pat s : list ascii) : bool :=
  match pat, s with
  | [], _ => true
  | _ :: _, [] => false
  | p :: pat', c :: s' => Ascii.eqb p c && starts_with pat' s'
  end.

(** [s.replace(old, new)] scanning left to right; [skip] counts the
    characters of a match that are still to be passed over. *)
Fixpoint replace_from (old new : list ascii) (skip : nat) (s : list ascii)
  : list ascii :=
  match s with
  | [] => []
  | c :: s' =>
      match skip with
      | S k => replace_from old new k s'
      | O =>
          if starts_with old s
          then new ++ replace_from old new (length old - 1) s'
          else c :: replace_from old new 0 s'
      end
  end.

Definition replace (old new s : list ascii) : list ascii :=
  match old with
  | [] => new ++ flat_map (fun c => c :: new) s
  | _ => replace_from old new 0 s
  end.

(** [re.sub(r'[^a-zA-Z0-9.,!?\'\-\s]', ' ', text)]. *)
Definition sub_special (s : list ascii) : list ascii :=
  map (fun c => if is_kept c then c else " "%char) s.

(** [re.sub(r'\s+', ' ', cleaned)]; [in_run] tells that the previous
    character belonged to the whitespace run being replaced. *)
Fixpoint sub_spaces (in_run : bool) (s : list ascii) : list ascii :=
  match s with
  | [] => []
  | c :: s' =>
      if is_space c
      then (if in_run then sub_spaces true s'
            else " "%char :: sub_spaces true s')
      else c :: sub_spaces false s'
  end.

Fixpoint lstrip (s : list ascii) : list ascii :=
  match s with
  | [] => []
  | c :: s' => if is_space c then lstrip s' else s
  end.

Fixpoint rstrip (s : list ascii) : list ascii :=
  match s with
  | [] => []
  | c :: s' =>
      match rstrip s' with
      | [] => if is_space c then [] else [c]
      | r => c :: r
      end
  end.

Definition strip (s : list ascii) : list ascii := rstrip (lstrip s).

(** Number of positions of [s] at which [pat] occurs. *)
Fixpoint occurrences (pat s : list ascii) : nat :=
  match s with
  | [] => 0
  | _ :: s' => ((if starts_with pat s then 1 else 0) + occurrences pat s')%nat
  end.

(** A word made of letters and digits only. *)
Definition plain (q : list ascii) : Prop := Forall (fun c => is_alnum c = true) q.

(** What [s.replace(a, new)] puts in the place of the character [c]. *)
Definition expand (a : ascii) (new : list ascii) (c : ascii) : list ascii :=
  if Ascii.eqb a c then new else [c].

Definition percent : list ascii := list_ascii_of_string "percent".
Definition percent_sign : ascii := "%"%char.

End Text.

Definition str_replace (old new s : string) : string :=
  string_of_list_ascii
    (Text.replace (list_ascii_of_string old) (list_ascii_of_string new)
       (list_ascii_of_string s)).

(** generate_audio.py, [clean_text]. *)
Definition clean_text (text : string) : string :=
  let text := str_replace "%" " percent" text in
  let text := str_replace "*" " " text in
  let cleaned := Text.sub_special (list_ascii_of_string text) in
  let cleaned := Text.sub_spaces false cleaned in
  let cleaned := Text.strip cleaned in
  string_of_list_ascii cleaned.

(** Occurrences of a word in a text, by position. *)
Definition count_occurrences (word text : string) : nat :=
  Text.occurrences (list_ascii_of_string word) (list_ascii_of_string text).

(** ** The world: file system, calls to libraries and services, log *)

(** Sample values are opaque to the pipeline; the encoding of the container
    is not modelled: a sound file holds the array and the rate it was written
    with. *)
Definition sample : Type := Z.

Inductive file_content :=
| Audio (samplerate : Z) (data : list sample)
| OtherData.

(** An [immutable] file can be neither removed nor overwritten. *)
Inductive node :=
| File (immutable : bool) (content : file_content)
| Dir.

Inductive schema := PaperMetadataSchema | PaperSectionsSchema.

Inductive content_part :=
| FileRef (path : string)
| TextPart (text : string).

Inductive level := INFO | WARNING | ERROR | STDOUT.

(** llm_response.py, the pydantic models. *)
Record PaperMetadata := {
  title : string;
  authors : list string;
  journal : option string;
  publication_date : option string
}.

Record SectionContent := {
  name : string;
  content_prompt : string
}.

Record PaperSections := {
  sections : list SectionContent
}.

(** One entry of a [FeedGenerator]; a field is [None] until its setter ran. *)
Record FeedEntry := {
  fe_id : option string;
  fe_title : option string;
  fe_description : option string;
  fe_link : option string;
  fe_published : option Z;
  fe_enclosure : option (string * string * string)
}.

(** Calls that leave the repository's code, in the order they were made. *)
Inductive call :=
| UploadFile (path : string)
| GenerateContent (model_name : string) (content : list content_part)
    (response_schema : option schema)
| ChatParse (model : string) (prompt : string) (response_format : schema)
| KPipeline (text voice : string)
| SfRead (file : string)
| SfWrite (file : string) (samplerate : Z)
| FeedParse (path : string)
| DropboxConnect
| DropboxUpload (path : string)
| DropboxDownload (path : string)
| RssFile (path : string) (entries : list FeedEntry).

(** [feed] holds the entries of the [FeedGenerator] object that
    [process_all_papers] creates and hands to [add_podcast_to_feed]: the object
    is mutated in place, so what was added before an exception stays. *)
Record World := {
  fs : gmap string node;
  calls : list call;
  logs : list (level * string);
  feed : list FeedEntry
}.

Definition set_fs (f : gmap string node -> gmap string node) (w : World) : World :=
  {| fs := f (fs w); calls := calls w; logs := logs w; feed := feed w |}.

Definition add_call (c : call) (w : World) : World :=
  {| fs := fs w; calls := calls w ++ [c]; logs := logs w; feed := feed w |}.

Definition add_log (l : level) (msg : string) (w : World) : World :=
  {| fs := fs w; calls := calls w; logs := logs w ++ [(l, msg)]; feed := feed w |}.

Definition set_feed (f : list FeedEntry -> list FeedEntry) (w : World) : World :=
  {| fs := fs w; calls := calls w; logs := logs w; feed := f (feed w) |}.

(** What [feedparser.parse] returns; a field is [None] when the attribute is
    missing. *)
Record ParsedEntry := {
  pe_id : option string;
  pe_title : option string;
  pe_description : option string;
  pe_link : option string;
  pe_published : option Z;
  pe_enclosures : list (string * string * string)
}.

Record ParsedFeed := {
  pf_title : option string;
  pf_description : option string;
  pf_entries : list ParsedEntry
}.

Definition model_of (s : schema) : Type :=
  match s with
  | PaperMetadataSchema => PaperMetadata
  | PaperSectionsSchema => PaperSections
  end.

(** The collaborators. An oracle receives the calls made so far, the current
    one last, and answers it; [Raise] is an exception thrown by the library. *)
Record Env := {
  (** [genai.upload_file] *)
  upload_file : list call -> result unit;
  (** [model.generate_content]; the inner result is the [.text] accessor *)
  generate_content : list call -> result (result string);
  (** [client.beta.chat.completions.parse(...).choices[0].message.parsed] *)
  chat_parse : forall s : schema, list call -> result (model_of s);
  (** the audio arrays the [KPipeline] generator yields *)
  kpipeline : list call -> result (list (list sample));
  (** [scipy.signal.resample(data, num)] *)
  resample : list sample -> Z -> result (list sample);
  (** [int(a / b)]: true division, then truncation *)
  int_truediv : Z -> Z -> Z;
  (** [str(l)] for a list of strings *)
  repr_list : list string -> string;
  (** [json.load] of the metadata file at a path; these files are written by
      the scrapers only *)
  json_load : string -> result (gmap string pyval);
  (** [feedparser.parse] *)
  feed_parse : list call -> result ParsedFeed;
  (** [dropbox.Dropbox(...)] and [dbx.users_get_current_account()] *)
  dropbox_connect : list call -> result unit;
  (** [dbx.files_upload] then [dbx.sharing_create_shared_link(...).url] *)
  dropbox_upload : list call -> result string;
  (** [dbx.files_download] *)
  dropbox_download : list call -> result unit;
  (** [fg.rss_file] *)
  rss_file : list call -> result unit;
  (** [path.stat()]: modification time and size of a file that exists *)
  stat_of : string -> node -> Z * Z
}.

(** Calls to the language models. *)
Definition is_llm_call (c : call) : bool :=
  match c with
  | UploadFile _ | GenerateContent _ _ _ | ChatParse _ _ _ => true
  | _ => false
  end.

(** The calls made so far, those to the language models left out. *)
Definition device_calls (w : World) : list call :=
  List.filter (fun c => negb (is_llm_call c)) (calls w).

(** Projections of the calls made so far. *)
Definition files_read (w : World) : list string :=
  flat_map (fun c => match c with SfRead f => [f] | _ => [] end) (calls w).

Definition voices_used (w : World) : list string :=
  flat_map (fun c => match c with KPipeline _ v => [v] | _ => [] end) (calls w).

Definition texts_spoken (w : World) : list string :=
  flat_map (fun c => match c with KPipeline t _ => [t] | _ => [] end) (calls w).

(** ** The monad of effectful code *)

Definition M (A : Type) : Type := World -> result A * World.

Definition ret {A} (a : A) : M A := fun w => (Ok a, w).

Definition bind {A B} (m : M A) (k : A -> M B) : M B :=
  fun w =>
    match m w with
    | (Ok a, w') => k a w'
    | (Raise e, w') => (Raise e, w')
    end.

Definition raise {A} (e : exn) : M A := fun w => (Raise e, w).

Definition lift {A} (r : result A) : M A := fun w => (r, w).

(** [try: body / except Exception as e: handler e]. *)
Definition try_except {A} (body : M A) (handler : exn -> M A) : M A :=
  fun w =>
    match body w with
    | (Ok a, w') => (Ok a, w')
    | (Raise e, w') => handler e w'
    end.

(** [try: body / finally: final]; an exception of [final] replaces the
    outcome of [body]. *)
Definition try_finally {A} (body : M A) (final : M unit) : M A :=
  fun w =>
    let '(r, w') := body w in
    match final w' with
    | (Ok _, w'') => (r, w'')
    | (Raise e, w'') => (Raise e, w'')
    end.

Declare Scope M_scope.
Delimit Scope M_scope with M.
Notation "x <- m ;; k" := (bind m (fun x => k))
  (at level 100, m at next level, right associativity) : M_scope.
Notation "m ;; k" := (bind m (fun _ => k))
  (at level 100, right associativity) : M_scope.

Declare Scope result_scope.
Delimit Scope result_scope with R.
Notation "x <- m ;; k" := (rbind m (fun x => k))
  (at level 100, m at next level, right associativity) : result_scope.

Local Open Scope M_scope.

(** [for x in l: body x]. *)
Fixpoint for_each {A} (l : list A) (body : A -> M unit) : M unit :=
  match l with
  | [] => ret tt
  | x :: l' => body x ;; for_each l' body
  end.

(** [logging.info], [logging.warning], [logging.error] and [print]. *)
Definition log (l : level) (msg : string) : M unit :=
  fun w => (Ok tt, add_log l msg w).

(** A call answered by an oracle. *)
Definition external {A} (c : call) (oracle : list call -> result A) : M A :=
  fun w => let w' := add_call c w in (oracle (calls w'), w').

Definition nl : string := String (ascii_of_nat 10) EmptyString.

(** [m] leaves the component [f] of the world as it found it, whether it
    returns or raises. *)
Definition preserves {X A} (f : World -> X) (m : M A) : Prop :=
  forall w r w', m w = (r, w') -> f w' = f w.

(** [m] maintains the property [Q] of the world, whether it returns or
    raises. *)
Definition keeps {A} (Q : World -> Prop) (m : M A) : Prop :=
  forall w r w', m w = (r, w') -> Q w -> Q w'.

(** [m] only adds calls, and every call it adds satisfies [P]. *)
Definition calls_only {A} (P : call -> Prop) (m : M A) : Prop :=
  forall w r w', m w = (r, w') -> exists l, calls w' = calls w ++ l /\ Forall P l.

(** ** Paths and the file system *)

Module Path.

Definition chars (p : string) : list ascii := list_ascii_of_string p.

Definition slash : ascii := "/"%char.

(** The characters before the last separator, if there is one. *)
Fixpoint dirname (s : list ascii) : option (list ascii) :=
  match s with
  | [] => None
  | c :: s' =>
      match dirname s' with
      | Some d => Some (c :: d)
      | None => if Ascii.eqb c slash then Some [] else None
      end
  end.

(** [Path(p).parent]. *)
Definition parent (p : string) : string :=
  match dirname (chars p) with
  | None => "."
  | Some [] => "/"
  | Some d => string_of_list_ascii d
  end.

(** [Path(d) / n]: an absolute [n] replaces [d]. *)
Definition join (d n : string) : string :=
  if String.prefix "/" n then n else d +:+ "/" +:+ n.

Fixpoint strip_prefix (pre s : list ascii) : option (list ascii) :=
  match pre, s with
  | [], _ => Some s
  | _ :: _, [] => None
  | a :: pre', c :: s' => if Ascii.eqb a c then strip_prefix pre' s' else None
  end.

(** [k] lies below the directory [d]. *)
Definition is_under (d k : string) : bool :=
  match strip_prefix (chars d ++ [slash]) (chars k) with
  | Some _ => true
  | None => false
  end.

(** [k] is an entry of the directory [d]: what [d.glob('*')] yields. *)
Definition is_child (d k : string) : bool :=
  match strip_prefix (chars d ++ [slash]) (chars k) with
  | Some [] => false
  | Some n => forallb (fun c => negb (Ascii.eqb c slash)) n
  | None => false
  end.

(** The directories [mkdir(parents=True)] walks through, outermost first,
    ending with [p] itself. *)
Fixpoint ancestors_from (acc s : list ascii) : list string :=
  match s with
  | [] => match acc with [] => [] | _ => [string_of_list_ascii acc] end
  | c :: s' =>
      (if Ascii.eqb c slash
       then match acc with [] => [] | _ => [string_of_list_ascii acc] end
       else [])
      ++ ancestors_from (acc ++ [c]) s'
  end.

Definition ancestors (p : string) : list string :=
  if String.eqb p "." then [] else ancestors_from [] (chars p).

Fixpoint split_on (sep : ascii) (s : list ascii) : list (list ascii) :=
  match s with
  | [] => [[]]
  | c :: s' =>
      if Ascii.eqb c sep then [] :: split_on sep s'
      else match split_on sep s' with
           | h :: t => (c :: h) :: t
           | [] => [[c]]
           end
  end.

(** [Path(p).parts]. *)
Definition parts (p : string) : list string :=
  (if String.prefix "/" p then ["/"] else [])
  ++ map string_of_list_ascii
       (List.filter (fun x => match x with [] => false | _ => true end)
          (split_on slash (chars p))).

(** The working directory and the root always exist. *)
Definition is_base (p : string) : bool :=
  String.eqb p "." || String.eqb p "/" || String.eqb p "".

End Path.

(** [s.split(sep)] for a one-character separator. *)
Definition str_split (sep : ascii) (s : string) : list string :=
  map string_of_list_ascii (Path.split_on sep (list_ascii_of_string s)).

(** Something exists at the path [p]. *)
Definition present (w : World) (p : string) : bool :=
  Path.is_base p || bool_decide (is_Some (fs w !! p)).

(** [Path(p).exists()]. *)
Definition path_exists (p : string) : M bool :=
  fun w => (Ok (present w p), w).

Definition is_dir (w : World) (p : string) : bool :=
  Path.is_base p || match fs w !! p with Some Dir => true | _ => false end.

(** [p.mkdir(exist_ok=True)] for a directory whose parent exists. *)
Definition mkdir_exist_ok (p : string) : M unit :=
  fun w =>
    if Path.is_base p then (Ok tt, w)
    else match fs w !! p with
         | Some Dir => (Ok tt, w)
         | Some (File _ _) =>
             (Raise (Exn FileExistsError ("File exists: '" +:+ p +:+ "'")), w)
         | None =>
             if is_dir w (Path.parent p)
             then (Ok tt, set_fs (insert p Dir) w)
             else (Raise (Exn FileNotFoundError
                            ("No such file or directory: '" +:+ p +:+ "'")), w)
         end.

(** [p.mkdir(parents=True, exist_ok=True)]. *)
Definition mkdir_parents (p : string) : M unit :=
  for_each (Path.ancestors p) mkdir_exist_ok.

(** [p.glob('*')]: the entries of a directory, in directory order. *)
Definition glob_star (d : string) : M (list string) :=
  fun w =>
    (Ok (map fst (map_to_list (filter (fun kv => Path.is_child d kv.1 = true) (fs w)))), w).

(** [p.unlink()]. *)
Definition unlink (p : string) : M unit :=
  fun w =>
    match fs w !! p with
    | None =>
        (Raise (Exn FileNotFoundError
                  ("No such file or directory: '" +:+ p +:+ "'")), w)
    | Some Dir => (Raise (Exn IsADirectoryError ("Is a directory: '" +:+ p +:+ "'")), w)
    | Some (File true _) =>
        (Raise (Exn PermissionError ("Operation not permitted: '" +:+ p +:+ "'")), w)
    | Some (File false _) => (Ok tt, set_fs (delete p) w)
    end.

Definition has_entries (w : World) (d : string) : bool :=
  bool_decide (filter (fun kv => Path.is_under d kv.1 = true) (fs w) ≠ ∅).

(** [p.rmdir()]. *)
Definition rmdir (p : string) : M unit :=
  fun w =>
    match fs w !! p with
    | None =>
        (Raise (Exn FileNotFoundError
                  ("No such file or directory: '" +:+ p +:+ "'")), w)
    | Some (File _ _) =>
        (Raise (Exn NotADirectoryError ("Not a directory: '" +:+ p +:+ "'")), w)
    | Some Dir =>
        if has_entries w p
        then (Raise (Exn OtherOSError ("Directory not empty: '" +:+ p +:+ "'")), w)
        else (Ok tt, set_fs (delete p) w)
    end.

(** [sf.read(file)]. *)
Definition sf_read (file : string) : M (list sample * Z) :=
  fun w =>
    let w' := add_call (SfRead file) w in
    match fs w !! file with
    | Some (File _ (Audio sr data)) => (Ok (data, sr), w')
    | _ => (Raise (Exn RuntimeError ("Error opening '" +:+ file +:+ "'")), w')
    end.

(** [sf.write(file, data, samplerate)]. *)
Definition sf_write (file : string) (data : list sample) (samplerate : Z) : M unit :=
  fun w =>
    let w' := add_call (SfWrite file samplerate) w in
    let fail := (Raise (Exn RuntimeError ("Error opening '" +:+ file +:+ "'")), w') in
    if negb (is_dir w (Path.parent file)) then fail
    else match fs w !! file with
         | Some Dir | Some (File true _) => fail
         | _ => (Ok tt, set_fs (insert file (File false (Audio samplerate data))) w')
         end.

(** [open(p)] for reading. *)
Definition open_read (p : string) : M unit :=
  fun w =>
    match fs w !! p with
    | Some (File _ _) => (Ok tt, w)
    | Some Dir => (Raise (Exn IsADirectoryError ("Is a directory: '" +:+ p +:+ "'")), w)
    | None =>
        (Raise (Exn FileNotFoundError
                  ("No such file or directory: '" +:+ p +:+ "'")), w)
    end.

(** [d.rglob(file_name)]: the paths below [d] whose last part is [file_name]. *)
Definition rglob (d file_name : string) : M (list string) :=
  fun w =>
    (Ok (map fst (map_to_list
           (filter (fun kv => Path.is_under d kv.1 = true
                              /\ last (Path.parts kv.1) = Some file_name) (fs w)))), w).

(** [np.concatenate(arrays)] for one-dimensional arrays. *)
Definition np_concatenate (arrays : list (list sample)) : result (list sample) :=
  match arrays with
  | [] => Raise (Exn ValueError "need at least one array to concatenate")
  | _ => Ok (concat arrays)
  end.

(** ** llm_response.py *)

Definition dump_of (s : schema) : Type :=
  match s with
  | PaperMetadataSchema => gmap string pyval
  | PaperSectionsSchema => PaperSections
  end.

Definition dump_optional (o : option string) : pyval :=
  match o with
  | Some s => PyStr s
  | None => PyNone
  end.

(** [parsed.model_dump()]. The dump of [PaperSections] keeps its typed form:
    [d["sections"]] is [sections d], [s['name']] is [name s]. *)
Definition model_dump (s : schema) : model_of s -> dump_of s :=
  match s with
  | PaperMetadataSchema => fun m =>
      <["title" := PyStr (title m)]>
        (<["authors" := PyList (authors m)]>
           (<["journal" := dump_optional (journal m)]>
              (<["publication_date" := dump_optional (publication_date m)]> ∅)))
  | PaperSectionsSchema => fun m => m
  end.

(** [section.get("bullets", [])]: a dumped [SectionContent] has no such key. *)
Definition section_bullets (section : SectionContent) : list string := [].

Section Pipeline.

Variable env : Env.

Definition default_model_name : string := "gemini-2.0-flash-exp".

(** [get_llm_response(prompt, pdf_path, model_name, response_schema)]. *)
Definition get_llm_response (prompt : string) (pdf_path : option string)
    (model_name : string) (response_schema : option schema) : M string :=
  content <-
    match pdf_path with
    | Some p =>
        if String.eqb p "" then ret []
        else (external (UploadFile p) (upload_file env) ;; ret [FileRef p])
    | None => ret []
    end ;;
  let content := content ++ [TextPart (nl +:+ nl +:+ prompt)] in
  try_except
    (match response_schema with
     | Some sch =>
         response <- external (GenerateContent model_name content (Some sch))
                       (generate_content env) ;;
         text <- lift response ;;
         if String.eqb text ""
         then raise (Exn ValueError "Empty response received")
         else ret text
     | None =>
         response <- external (GenerateContent model_name content None)
                       (generate_content env) ;;
         lift response
     end)
    (fun e => ret (str_exn e)).

(** The upload that precedes response generation did not raise. *)
Definition upload_succeeds (pdf_path : option string) (w : World) : Prop :=
  match pdf_path with
  | Some p => p = "" \/ is_Ok (upload_file env (calls w ++ [UploadFile p])) = true
  | None => True
  end.

(** What [get_llm_response] returned, read off the answer of the oracle to
    the last call of the world it ended in. *)
Definition llm_outcome (response_schema : option schema) (text : string)
    (w' : World) : Prop :=
  (forall e, generate_content env (calls w') = Raise e -> text = str_exn e)
  /\ (forall e, generate_content env (calls w') = Ok (Raise e) -> text = str_exn e)
  /\ (forall t, generate_content env (calls w') = Ok (Ok t) ->
      text = if String.eqb t "" && bool_decide (is_Some response_schema)
             then "Empty response received" else t).

(** [get_openai_structured_response(prompt, response_schema)]. *)
Definition get_openai_structured_response (prompt : string) (response_schema : schema)
  : M (dump_of response_schema) :=
  try_except
    (parsed <- external (ChatParse "gpt-4o" prompt response_schema)
                 (chat_parse env response_schema) ;;
     ret (model_dump response_schema parsed))
    (fun e => raise e).

(** ** generate_audio.py *)

Definition generate_audio (text voice_name output_path : string) : M unit :=
  if negb (bool_decide (voice_name ∈ VOICES))
  then raise (Exn ValueError
                ("Voice " +:+ voice_name +:+ " not found. Available voices: "
                 +:+ repr_list env VOICES))
  else
    let cleaned_text := clean_text text in
    audio_segments <- external (KPipeline cleaned_text voice_name) (kpipeline env) ;;
    combined_audio <- lift (np_concatenate audio_segments) ;;
    sf_write output_path combined_audio 24000.

(** ** make_podcast.py *)

Definition five_sentences : string := "
        RESPOND WITH EXACTLY FIVE SENTENCES that are clear and standalone.
        Start each sentence directly with content.
        Do not include any introductory phrases or transitions.
        Use engaging, conversational style while maintaining accuracy.
        ".

Definition clarity : string := "
        Spell out all acronyms and abbreviations in full throughout the entire response. DO NOT use any acronyms or abbrevations! 
        Write numbers as digits for quantities and percentages (e.g., 5%, 10 participants).
        Use clear, everyday language where possible without sacrificing accuracy.
        ".

Definition academic_components : string := "
        - Core argument and motivation
        - Theoretical framework
        - Methodology and approach
        - Evidence and analysis
        - Key implications
        ".

Definition SECTION_PROMPT : string := "
Generate 2-4 sections that best explain this paper's content.

For empirical papers, consider including:
- Data sources, sample, and key variables
- Research design and methodology
- Key findings and implications

For theoretical/model papers, consider including:
- Intuitive model explanation with simple examples
- Key mechanisms and trade-offs
- Main insights and applications

For each section provide:
1. A clear, short, and abstract section name
2. A brief description of what content should be covered in that section

Format your response as a JSON list of objects with 'name' and 'content_prompt' fields.
Keep each content_prompt focused and specific about what should be covered.
".

Definition get_structured_metadata (pdf_path : string) : M (gmap string pyval) :=
  log INFO "Extracting paper metadata..." ;;
  let raw_prompt := "
    Extract the following information from the paper:
    - Title
    - Authors 
    - Journal name (if available)0
    - Publication date (if available)
    
    Provide all available information in a detailed response.
    " in
  raw_response <- get_llm_response raw_prompt (Some pdf_path) default_model_name None ;;
  log STDOUT raw_response ;;
  get_openai_structured_response raw_response PaperMetadataSchema.

Definition get_high_school_summary (pdf_path : string) (num_sentences : Z) : M string :=
  log INFO "Generating high-school level summary..." ;;
  let summary_prompt := "
    Summarize this research paper in EXACTLY " +:+ pretty num_sentences +:+ " sentences that a high school student could understand.
    Focus on:
    1. What problem they're trying to solve
    2. The current gap in knowledge or understanding
    3. What they did
    4. What they found
    5. How this changes or advances the field
    
    Respond with only the summary text.
    " in
  get_llm_response summary_prompt (Some pdf_path) default_model_name None.

Definition get_final_takeaways (script : string) : M string :=
  log INFO "Generating final takeaways..." ;;
  let summary_prompt := "
    " +:+ five_sentences +:+ "
    Cover:
    " +:+ academic_components +:+ "

    # Podcast script:
    " +:+ script +:+ "
    " in
  get_llm_response summary_prompt None default_model_name None.

Definition get_all_section_bullets_at_once (pdf_path : string) : M PaperSections :=
  log INFO "Generating dynamic sections and bullet points..." ;;
  raw_response <- get_llm_response SECTION_PROMPT (Some pdf_path) default_model_name None ;;
  get_openai_structured_response raw_response PaperSectionsSchema.

Definition get_background_overview (pdf_path : string) : M string :=
  log INFO "Generating background conceptual overview..." ;;
  let overview_prompt := "
    Provide a conceptual overview focusing solely on the background and literature context of the topic.
    Do not mention what the paper specifically does. Instead, consider:
    - Explaining why this research topic is important
    - Summarizing relevant literature or common findings in the field
    - Highlighting general knowledge and established theories related to this topic
    Use clear, engaging, and concise language.
    " in
  get_llm_response overview_prompt (Some pdf_path) default_model_name None.

Definition generate_section_details (pdf_path : string) (section : SectionContent)
    (all_bullets : string) : M string :=
  log INFO ("Generating " +:+ name section +:+ " section...") ;;
  let full_prompt := "
    " +:+ five_sentences +:+ "
    " +:+ clarity +:+ "
    
    # IMPORTANT: 
    - Do not use any introductory or concluding phrases
    - Start directly with the content
    - Use conversational, engaging language
    - Maintain technical accuracy
    - You are writing the section on " +:+ name section +:+ "
    
    # Section-specific focus:
    " +:+ content_prompt section +:+ "

    Context from paper:
    # Bullet points for all sections:
    " +:+ all_bullets +:+ "
    " in
  content <- get_llm_response full_prompt (Some pdf_path) default_model_name None ;;
  log INFO (name section +:+ " section generation complete") ;;
  ret content.

(** The loop of [combine_audio_files]; [combined] is the list built so far. *)
Fixpoint combine_loop (file_list : list string) (target_sr : Z)
    (combined : list (list sample)) : M (list (list sample)) :=
  match file_list with
  | [] => ret combined
  | file :: rest =>
      read <- sf_read file ;;
      let data := read.1 in
      let sr := read.2 in
      data <-
        (if negb (Z.eqb sr target_sr) then
           log INFO ("Resampling " +:+ file +:+ " from " +:+ pretty sr +:+ "Hz to "
                     +:+ pretty target_sr +:+ "Hz") ;;
           (if Z.eqb sr 0 then raise (Exn ZeroDivisionError "division by zero")
            else
              let num_samples :=
                int_truediv env (Z.of_nat (length data) * target_sr) sr in
              lift (resample env data num_samples))
         else ret data) ;;
      combine_loop rest target_sr (combined ++ [data])
  end.

Definition combine_audio_files (file_list : list string) (output_file : string)
    (target_sr : Z) : M unit :=
  let output_dir := Path.parent output_file in
  mkdir_parents output_dir ;;
  combined <- combine_loop file_list target_sr [] ;;
  final_audio <- lift (np_concatenate combined) ;;
  sf_write output_file final_audio target_sr.

(** The body of the loop of [cleanup_temp_files]:
    [try: file.unlink() / except FileNotFoundError: pass]. *)
Definition unlink_quietly (file : string) : M unit :=
  try_except (unlink file)
    (fun e => if is_FileNotFoundError e then ret tt else raise e).

Definition cleanup_temp_files (temp_dir : string) : M unit :=
  found <- path_exists temp_dir ;;
  if found then
    files <- glob_star temp_dir ;;
    for_each files unlink_quietly ;;
    try_except (rmdir temp_dir)
      (fun e =>
         if is_OSError e
         then log WARNING ("Could not remove temp directory: " +:+ str_exn e)
         else raise e)
  else ret tt.

(** [f"{v}"] for a dict value. *)
Definition py_format (v : pyval) : string :=
  match v with
  | PyStr s => s
  | PyNone => "None"
  | PyList l => repr_list env l
  end.

(** The text of the metadata segment ([make_podcast], the block that builds
    [metadata_text]). *)
Definition metadata_text_of (metadata_dict : gmap string pyval) : result string :=
  (title <- dict_getitem metadata_dict "title" ;;
   let metadata_text := "Title: " +:+ py_format title +:+ "." in
   metadata_text <-
     (if truthy (metadata_dict !! "authors") then
        author_names <- dict_getitem metadata_dict "authors" ;;
        joined <- py_join ", " author_names ;;
        Ok (metadata_text +:+ " By " +:+ joined +:+ ".")
      else Ok metadata_text) ;;
   metadata_text <-
     (if truthy (metadata_dict !! "journal") then
        journal <- dict_getitem metadata_dict "journal" ;;
        Ok (metadata_text +:+ " Published in " +:+ py_format journal +:+ ".")
      else Ok metadata_text) ;;
   if truthy (metadata_dict !! "publication_date") then
     publication_date <- dict_getitem metadata_dict "publication_date" ;;
     Ok (metadata_text +:+ " Date: " +:+ py_format publication_date +:+ ".")
   else Ok metadata_text)%R.

(** The variables [make_podcast] updates while it renders the segments. *)
Record loop_state := {
  current_voice_idx : Z;
  audio_files : list string;
  full_script : list string
}.

(** [current_voice_idx = idx]. *)
Definition set_voice_idx (idx : Z) (st : loop_state) : loop_state :=
  {| current_voice_idx := idx;
     audio_files := audio_files st;
     full_script := full_script st |}.

(** [audio_files.append(file)]. *)
Definition append_file (file : string) (st : loop_state) : loop_state :=
  {| current_voice_idx := current_voice_idx st;
     audio_files := audio_files st ++ [file];
     full_script := full_script st |}.

(** [full_script.append(text)]. *)
Definition append_script (text : string) (st : loop_state) : loop_state :=
  {| current_voice_idx := current_voice_idx st;
     audio_files := audio_files st;
     full_script := full_script st ++ [text] |}.

(** [for section in all_bullet_points["sections"]: ...]. *)
Fixpoint section_loop (pdf_path temp_dir : string) (voices : list string)
    (todo : list SectionContent) (st : loop_state) : M loop_state :=
  match todo with
  | [] => ret st
  | section :: rest =>
      log INFO ("Processing section: " +:+ name section) ;;
      next <- lift (get_next_voice voices (current_voice_idx st)) ;;
      let voice := next.1 in
      let st := set_voice_idx next.2 st in
      let bullet_str := str_join nl (section_bullets section) in
      content <- generate_section_details pdf_path section bullet_str ;;
      let section_file := Path.join temp_dir (name section +:+ ".wav") in
      generate_audio content voice section_file ;;
      let st := append_file section_file st in
      let st := append_script content st in
      log INFO ("Completed section: " +:+ name section) ;;
      section_loop pdf_path temp_dir voices rest st
  end.

Definition high_school_intro : string :=
  "First, let me give you a simple overview that anyone can understand.".
Definition background_intro : string :=
  "Now, let me provide some context about the broader research landscape.".
Definition takeaway_intro : string :=
  "To wrap up, here are the key takeaways from our discussion:".

Definition make_podcast (pdf_path output_path : string)
    (metadata_dict : gmap string pyval) (summary_sentences : Z) : M unit :=
  skip <- path_exists output_path ;;
  if skip then
    log INFO ("Podcast already exists at " +:+ output_path +:+ ", skipping generation")
  else
    log INFO ("Starting podcast creation for " +:+ pdf_path) ;;
    let temp_dir := "temp_audio" in
    mkdir_exist_ok temp_dir ;;
    let voices := VOICES in
    let st := {| current_voice_idx := -1; audio_files := []; full_script := [] |} in
    metadata_dict <-
      (if bool_decide (metadata_dict = ∅) then get_structured_metadata pdf_path
       else ret metadata_dict) ;;
    high_school_summary <- get_high_school_summary pdf_path summary_sentences ;;
    all_bullet_points <- get_all_section_bullets_at_once pdf_path ;;
    log INFO "Generated all section bullet points" ;;
    (* Metadata *)
    metadata_text <- lift (metadata_text_of metadata_dict) ;;
    let metadata_file := Path.join temp_dir "metadata.wav" in
    voice <- lift (py_getitem voices 0) ;;
    generate_audio metadata_text voice metadata_file ;;
    let st := append_file metadata_file st in
    let st := append_script metadata_text st in
    (* High school summary *)
    next <- lift (get_next_voice voices (current_voice_idx st)) ;;
    let voice := next.1 in
    let st := set_voice_idx next.2 st in
    let summary_file := Path.join temp_dir "high_school_summary.wav" in
    generate_audio (high_school_intro +:+ " " +:+ high_school_summary) voice summary_file ;;
    let st := append_file summary_file st in
    let st := append_script (high_school_intro +:+ " " +:+ high_school_summary) st in
    (* Background overview *)
    next <- lift (get_next_voice voices (current_voice_idx st)) ;;
    let voice := next.1 in
    let st := set_voice_idx next.2 st in
    background_content <- get_background_overview pdf_path ;;
    let background_file := Path.join temp_dir "background_overview.wav" in
    generate_audio (background_intro +:+ " " +:+ background_content) voice background_file ;;
    let st := append_file background_file st in
    let st := append_script (background_intro +:+ " " +:+ background_content) st in
    (* Sections *)
    st <- section_loop pdf_path temp_dir voices (sections all_bullet_points) st ;;
    (* Final takeaways *)
    next <- lift (get_next_voice voices (current_voice_idx st)) ;;
    let voice := next.1 in
    let st := set_voice_idx next.2 st in
    let script_text := str_join (nl +:+ nl) (full_script st) in
    final_takeaways <- get_final_takeaways script_text ;;
    let takeaway_file := Path.join temp_dir "final_takeaways.wav" in
    let full_text := takeaway_intro +:+ " " +:+ final_takeaways in
    generate_audio full_text voice takeaway_file ;;
    let st := append_file takeaway_file st in
    log STDOUT full_text ;;
    combine_audio_files (audio_files st) output_path 44100 ;;
    cleanup_temp_files temp_dir.

(** What [combine_audio_files] appends for an input of rate [sr]: the data
    itself at the target rate, else the data resampled to
    [int(len(data) * target_sr / sr)] samples. *)
Definition at_target_rate (target_sr sr : Z) (data : list sample)
  : result (list sample) :=
  if Z.eqb sr target_sr then Ok data
  else resample env data (int_truediv env (Z.of_nat (length data) * target_sr) sr).

(** The planner answered [plan] in the run that led to [w']: among the calls
    of [w'] is the structuring call for [PaperSections], and the oracle
    answered it with [plan]. *)
Definition planner_returned (plan : PaperSections) (w' : World) : Prop :=
  exists h raw,
    (h ++ [ChatParse "gpt-4o" raw PaperSectionsSchema]) `prefix_of` calls w'
    /\ chat_parse env PaperSectionsSchema (h ++ [ChatParse "gpt-4o" raw PaperSectionsSchema])
       = Ok plan.

Definition process_paper (pdf_path output_path : string)
    (metadata_dict : gmap string pyval) : M unit :=
  let temp_dir := "temp_audio" in
  try_finally
    (try_except (make_podcast pdf_path output_path metadata_dict 5)
       (fun e =>
          log ERROR ("Error processing " +:+ pdf_path +:+ ": " +:+ str_exn e) ;;
          raise e))
    (cleanup_temp_files temp_dir).

End Pipeline.

(** ** Make_All_Podcasts.py: the feed and the batch loop *)

Definition blank_entry : FeedEntry :=
  {| fe_id := None; fe_title := None; fe_description := None; fe_link := None;
     fe_published := None; fe_enclosure := None |}.

(** [FeedGenerator()]: a generator without entries. The channel elements
    (title, description, author, language, link, dates) are not modelled. *)
Definition new_feed : M unit := fun w => (Ok tt, set_feed (fun _ => []) w).

(** [fe = fg.add_entry()]: the new entry is put in front of the others. *)
Definition add_entry : M unit := fun w => (Ok tt, set_feed (cons blank_entry) w).

(** A setter called on the entry [fe] that [add_entry] just returned. *)
Definition fe_set (f : FeedEntry -> FeedEntry) : M unit :=
  fun w =>
    (Ok tt, set_feed (fun es => match es with [] => [] | e :: es' => f e :: es' end) w).

Definition with_id (v : string) (e : FeedEntry) : FeedEntry :=
  {| fe_id := Some v; fe_title := fe_title e; fe_description := fe_description e;
     fe_link := fe_link e; fe_published := fe_published e;
     fe_enclosure := fe_enclosure e |}.
Definition with_title (v : string) (e : FeedEntry) : FeedEntry :=
  {| fe_id := fe_id e; fe_title := Some v; fe_description := fe_description e;
     fe_link := fe_link e; fe_published := fe_published e;
     fe_enclosure := fe_enclosure e |}.
Definition with_description (v : string) (e : FeedEntry) : FeedEntry :=
  {| fe_id := fe_id e; fe_title := fe_title e; fe_description := Some v;
     fe_link := fe_link e; fe_published := fe_published e;
     fe_enclosure := fe_enclosure e |}.
Definition with_link (v : string) (e : FeedEntry) : FeedEntry :=
  {| fe_id := fe_id e; fe_title := fe_title e; fe_description := fe_description e;
     fe_link := Some v; fe_published := fe_published e;
     fe_enclosure := fe_enclosure e |}.
Definition with_published (v : Z) (e : FeedEntry) : FeedEntry :=
  {| fe_id := fe_id e; fe_title := fe_title e; fe_description := fe_description e;
     fe_link := fe_link e; fe_published := Some v;
     fe_enclosure := fe_enclosure e |}.
Definition with_enclosure (v : string * string * string) (e : FeedEntry) : FeedEntry :=
  {| fe_id := fe_id e; fe_title := fe_title e; fe_description := fe_description e;
     fe_link := fe_link e; fe_published := fe_published e;
     fe_enclosure := Some v |}.

(** The ids of the entries of the feed, in feed order. *)
Definition feed_ids (w : World) : list (option string) := map fe_id (feed w).

(** Every entry of the feed carries the id of a document recorded in
    [existing_ids]. *)
Definition feed_covered (w : World) (existing_ids : gset pyval) : Prop :=
  forall id, id ∈ feed_ids w ->
             exists u, id = Some ("pushpod-" +:+ u) /\ PyStr u ∈ existing_ids.

(** The feed is [older] with one more entry in front, whose id is [id]. *)
Definition registered (id : string) (older : list FeedEntry) (w : World) : Prop :=
  exists e, feed w = e :: older /\ fe_id e = Some id.

(** Reading an attribute of a parsed entry. *)
Definition attr {A} (attr_name : string) (o : option A) : result A :=
  match o with
  | Some a => Ok a
  | None => Raise (Exn AttributeError ("object has no attribute '" +:+ attr_name +:+ "'"))
  end.

Section Batch.

Variable env : Env.

Definition setup_directories : M string :=
  let output_base := "output" in
  mkdir_exist_ok output_base ;;
  let nber_output := Path.join output_base "NBER_Papers" in
  mkdir_exist_ok nber_output ;;
  ret output_base.

Definition get_output_path (input_path output_base : string) : M string :=
  let parts := Path.parts input_path in
  source <- lift (py_getitem parts (-3)) ;;
  paper_id <- lift (py_getitem parts (-2)) ;;
  let unique_id := source +:+ "_" +:+ paper_id in
  let output_path :=
    Path.join (Path.join output_base "NBER_Papers") (unique_id +:+ ".wav") in
  mkdir_parents (Path.parent output_path) ;;
  ret output_path.

Definition initialize_rss_feed : M unit := new_feed.

(** The loop of [load_existing_feed] that copies the parsed entries into the
    new generator. [existing_ids] is mutated in place: the ids collected
    before an exception are kept, so the loop returns them next to the
    exception instead of raising. *)
Fixpoint load_entries (entries : list ParsedEntry) (existing_ids : gset pyval)
  : M (gset pyval * option exn) :=
  match entries with
  | [] => ret (existing_ids, None)
  | entry :: rest =>
      match rbind (attr "id" (pe_id entry)) (fun id =>
            rbind (py_getitem (str_split "-" id) 1) (fun unique_id =>
            Ok (id, unique_id))) with
      | Raise e => ret (existing_ids, Some e)
      | Ok (id, unique_id) =>
          let existing_ids := {[ PyStr unique_id ]} ∪ existing_ids in
          add_entry ;;
          fe_set (with_id id) ;;
          step <- try_except
            (t <- lift (attr "title" (pe_title entry)) ;;
             fe_set (with_title t) ;;
             d <- lift (attr "description" (pe_description entry)) ;;
             fe_set (with_description d) ;;
             l <- lift (attr "link" (pe_link entry)) ;;
             fe_set (with_link l) ;;
             p <- lift (attr "published" (pe_published entry)) ;;
             fe_set (with_published p) ;;
             match pe_enclosures entry with
             | enclosure :: _ => fe_set (with_enclosure enclosure)
             | [] => ret tt
             end ;;
             ret None)
            (fun e => ret (Some e)) ;;
          match step with
          | Some e => ret (existing_ids, Some e)
          | None => load_entries rest existing_ids
          end
      end
  end.

(** [load_existing_feed(output_base)]; the generator it returns is the
    [feed] of the world. *)
Definition load_existing_feed (output_base : string) : M (gset pyval) :=
  let feed_path := Path.join output_base "feed.xml" in
  let existing_ids : gset pyval := ∅ in
  found <- path_exists feed_path ;;
  if found then
    outcome <- try_except
      (parsed_feed <- external (FeedParse feed_path) (feed_parse env) ;;
       log INFO "Current feed contents:" ;;
       for_each (pf_entries parsed_feed) (fun entry =>
         t <- lift (attr "title" (pe_title entry)) ;;
         log INFO ("Title: " +:+ t) ;;
         i <- lift (attr "id" (pe_id entry)) ;;
         log INFO ("ID: " +:+ i) ;;
         l <- lift (attr "link" (pe_link entry)) ;;
         log INFO ("Link: " +:+ l) ;;
         log INFO "---") ;;
       new_feed ;;
       lift (attr "title" (pf_title parsed_feed)) ;;
       lift (attr "description" (pf_description parsed_feed)) ;;
       load_entries (pf_entries parsed_feed) existing_ids)
      (fun e => ret (existing_ids, Some e)) ;;
    match outcome.2 with
    | None =>
        log INFO ("Loaded existing feed with "
                  +:+ pretty (Z.of_nat (size outcome.1)) +:+ " entries") ;;
        ret outcome.1
    | Some e =>
        log ERROR ("Error loading existing feed: " +:+ str_exn e) ;;
        log INFO "Creating new feed" ;;
        initialize_rss_feed ;;
        ret outcome.1
    end
  else
    log INFO "No existing feed found. Creating new feed" ;;
    initialize_rss_feed ;;
    ret existing_ids.

(** [path.stat()]. *)
Definition stat (p : string) : M (Z * Z) :=
  fun w =>
    match fs w !! p with
    | Some n => (Ok (stat_of env p n), w)
    | None =>
        (Raise (Exn FileNotFoundError
                  ("No such file or directory: '" +:+ p +:+ "'")), w)
    end.

(** [add_podcast_to_feed(fg, audio_path, metadata, url)]. *)
Definition add_podcast_to_feed (audio_path : string)
    (metadata : gmap string pyval) (url : string) : M unit :=
  unique_id <- lift (dict_getitem metadata "unique_id") ;;
  log INFO ("Adding " +:+ py_format env unique_id +:+ " to feed...") ;;
  add_entry ;;
  fe_set (with_id ("pushpod-" +:+ py_format env unique_id)) ;;
  t <- lift (dict_getitem metadata "title") ;;
  (* [fe.title(None)] reads the title instead of setting it *)
  (match t with
   | PyNone => ret tt
   | _ => fe_set (with_title (py_format env t))
   end) ;;
  author_names <- lift (dict_getitem metadata "authors") ;;
  authors_str <- lift (py_join ", " author_names) ;;
  abstract <- lift (dict_getitem metadata "abstract") ;;
  let description :=
    "Authors: " +:+ authors_str +:+ nl +:+ nl +:+ py_format env abstract in
  fe_set (with_description description) ;;
  let direct_url := str_replace "www.dropbox.com" "dl.dropboxusercontent.com" url in
  let direct_url := str_replace "?dl=0" "?raw=1" direct_url in
  fe_set (with_link direct_url) ;;
  st <- stat audio_path ;;
  let pub_date := st.1 in
  fe_set (with_published pub_date) ;;
  st <- stat audio_path ;;
  let file_size := pretty st.2 in
  fe_set (with_enclosure (direct_url, file_size, "audio/wav")) ;;
  log INFO ("Successfully added " +:+ py_format env unique_id +:+ " to feed").

(** [fg.rss_file(path)]. *)
Definition fg_rss_file (path : string) : M unit :=
  fun w =>
    match external (RssFile path (feed w)) (rss_file env) w with
    | (Ok _, w') => (Ok tt, set_fs (insert path (File false OtherData)) w')
    | (Raise e, w') => (Raise e, w')
    end.

Definition setup_dropbox : M unit :=
  try_except
    (external DropboxConnect (dropbox_connect env) ;;
     log INFO "Successfully connected to Dropbox")
    (fun e =>
       log ERROR ("Failed to connect to Dropbox: " +:+ str_exn e) ;;
       raise e).

Definition upload_to_dropbox (file_path : string) : M string :=
  try_except
    (open_read file_path ;;
     url <- external (DropboxUpload file_path) (dropbox_upload env) ;;
     log INFO ("Successfully uploaded " +:+ file_path +:+ " to Dropbox") ;;
     ret (str_replace "?dl=0" "?raw=1" url))
    (fun e =>
       match exn_kind e with
       | ApiError =>
           log ERROR ("Error uploading " +:+ file_path +:+ ": " +:+ str_exn e) ;;
           raise e
       | _ => raise e
       end).

Definition log_titles (prefix : string) (entries : list ParsedEntry) : M unit :=
  for_each entries (fun entry =>
    t <- lift (attr "title" (pe_title entry)) ;;
    log INFO (prefix +:+ t)).

(** [verify_feed_content(dbx, feed_path)]. The name [dropbox_feed] is bound
    once the parser has returned: an exception raised before that leaves it
    unbound at the [return]; an exception raised later in the [try] block
    is handled by the same [except] clause and the [return] succeeds. *)
Definition verify_feed_content (feed_path : string) : M unit :=
  log INFO "Verifying feed content..." ;;
  open_read feed_path ;;
  local_feed <- external (FeedParse feed_path) (feed_parse env) ;;
  log INFO ("Local feed has "
            +:+ pretty (Z.of_nat (length (pf_entries local_feed))) +:+ " entries") ;;
  log_titles "Local feed entry: " (pf_entries local_feed) ;;
  bound <- try_except
    (external (DropboxDownload feed_path) (dropbox_download env) ;;
     dropbox_feed <- external (FeedParse feed_path) (feed_parse env) ;;
     try_except
       (log INFO ("Dropbox feed has "
                  +:+ pretty (Z.of_nat (length (pf_entries dropbox_feed))) +:+ " entries") ;;
        log_titles "Dropbox feed entry: " (pf_entries dropbox_feed) ;;
        ret true)
       (fun e =>
          log ERROR ("Error reading Dropbox feed: " +:+ str_exn e) ;;
          ret true))
    (fun e =>
       log ERROR ("Error reading Dropbox feed: " +:+ str_exn e) ;;
       ret false) ;;
  if bound then ret tt
  else raise (Exn UnboundLocalError
                "cannot access local variable 'dropbox_feed' where it is not associated with a value").

(** [x in existing_ids]: a list is not hashable. *)
Definition set_contains (existing_ids : gset pyval) (x : pyval) : result bool :=
  match x with
  | PyList _ => Raise (Exn TypeError "unhashable type: 'list'")
  | _ => Ok (bool_decide (x ∈ existing_ids))
  end.

(** The [for pdf_path in pdf_files] loop of [process_all_papers]. *)
Fixpoint papers_loop (output_base : string) (pdf_files : list string)
    (existing_ids : gset pyval) : M (gset pyval) :=
  match pdf_files with
  | [] => ret existing_ids
  | pdf_path :: rest =>
      let metadata_path := Path.join (Path.parent pdf_path) "metadata.json" in
      loaded <- try_except
        (open_read metadata_path ;;
         metadata <- lift (json_load env metadata_path) ;;
         ret (Some metadata))
        (fun e =>
           log ERROR ("Error loading metadata for " +:+ pdf_path +:+ ": " +:+ str_exn e) ;;
           ret None) ;;
      match loaded with
      | None => papers_loop output_base rest existing_ids
      | Some metadata =>
          unique_id <- lift (dict_getitem metadata "unique_id") ;;
          known <- lift (set_contains existing_ids unique_id) ;;
          if known then
            log INFO ("Skipping " +:+ py_format env unique_id +:+ ", already in feed") ;;
            papers_loop output_base rest existing_ids
          else
            output_path <- get_output_path pdf_path output_base ;;
            t <- lift (dict_getitem metadata "title") ;;
            log INFO ("Processing " +:+ py_format env unique_id +:+ ": " +:+ py_format env t) ;;
            existing_ids <- try_except
              (process_paper env pdf_path output_path metadata ;;
               url <- upload_to_dropbox output_path ;;
               add_podcast_to_feed output_path metadata url ;;
               let feed_path := Path.join output_base "feed.xml" in
               fg_rss_file feed_path ;;
               upload_to_dropbox feed_path ;;
               verify_feed_content feed_path ;;
               let existing_ids := {[ unique_id ]} ∪ existing_ids in
               log INFO ("Successfully processed " +:+ py_format env unique_id) ;;
               ret existing_ids)
              (fun e =>
                 log ERROR ("Error processing " +:+ py_format env unique_id +:+ ": "
                            +:+ str_exn e) ;;
                 ret existing_ids) ;;
            papers_loop output_base rest existing_ids
      end
  end.

(** The unique id recorded in the metadata file next to a document. *)
Definition unique_id_of (pdf_path : string) : option pyval :=
  match json_load env (Path.join (Path.parent pdf_path) "metadata.json") with
  | Ok metadata => metadata !! "unique_id"
  | Raise _ => None
  end.

(** The unique ids of the documents of a batch are strings, and no two
    documents of the batch have the same one. *)
Fixpoint ids_distinct (pdf_files : list string) : Prop :=
  match pdf_files with
  | [] => True
  | pdf_path :: rest =>
      (forall v, unique_id_of pdf_path = Some v ->
                 (exists u, v = PyStr u)
                 /\ Forall (fun other => unique_id_of other <> Some v) rest)
      /\ ids_distinct rest
  end.

Definition process_all_papers (test_mode : bool) : M unit :=
  output_base <- setup_directories ;;
  setup_dropbox ;;
  existing_ids <- load_existing_feed output_base ;;
  let feed_path := Path.join output_base "feed.xml" in
  fg_rss_file feed_path ;;
  feed_url <- upload_to_dropbox feed_path ;;
  log INFO ("Initial RSS Feed available at: " +:+ feed_url) ;;
  let papers_dir := "Data/papers" in
  pdf_files <- rglob papers_dir "paper.pdf" ;;
  match pdf_files with
  | [] => log WARNING "No PDF files found in data/papers directory!"
  | _ =>
      log INFO ("Found " +:+ pretty (Z.of_nat (length pdf_files)) +:+ " PDF files") ;;
      pdf_files <-
        (if test_mode then
           log INFO "TEST MODE: Processing only first PDF file" ;;
           ret (firstn 1 pdf_files)
         else ret pdf_files) ;;
      papers_loop output_base pdf_files existing_ids ;;
      log INFO "Finished processing papers"
  end.

End Batch.

(** ** Segments of an episode *)

(** A rendered segment: the file it was written to, its voice and the text
    given to the speech engine. *)
Record segment := {
  seg_file : string;
  seg_voice : string;
  seg_text : string
}.

(** The calls [generate_audio] makes for each segment of a list. *)
Definition synth_calls (segs : list segment) : list call :=
  flat_map (fun s => [KPipeline (seg_text s) (seg_voice s); SfWrite (seg_file s) 24000]) segs.

Definition section_file (temp_dir : string) (section : SectionContent) : string :=
  Path.join temp_dir (name section +:+ ".wav").

(** The segment files of an episode in narration order: metadata, summary,
    background, the planned sections, takeaways. *)
Definition segment_files (temp_dir : string) (plan : PaperSections) : list string :=
  [Path.join temp_dir "metadata.wav";
   Path.join temp_dir "high_school_summary.wav";
   Path.join temp_dir "background_overview.wav"]
  ++ map (section_file temp_dir) (sections plan)
  ++ [Path.join temp_dir "final_takeaways.wav"].

(** The file holds audio data [input.2] at the rate [input.1]. *)
Definition readable (w : World) (file : string) (input : Z * list sample) : Prop :=
  exists i, fs w !! file = Some (File i (Audio input.1 input.2)).

(** The output directory could be created, leading to [w1], and the output
    file can be written there. *)
Definition destination_ready (output_file : string) (w w1 : World) : Prop :=
  mkdir_parents (Path.parent output_file) w = (Ok tt, w1)
  /\ is_dir w1 (Path.parent output_file) = true
  /\ match fs w1 !! output_file with
     | Some Dir | Some (File true _) => False
     | _ => True
     end.

(** Every entry of the directory [d] is a file that can be removed. *)
Definition entries_removable (w : World) (d : string) : Prop :=
  forall k n, fs w !! k = Some n -> Path.is_child d k = true -> exists c, n = File false c.

(** Nothing lies deeper below [d] than its entries. *)
Definition flat_dir (w : World) (d : string) : Prop :=
  forall k, is_Some (fs w !! k) -> Path.is_under d k = true -> Path.is_child d k = true.

(** ** Concrete collaborators and worlds, to run the model *)

Definition demo_plan : PaperSections :=
  {| sections :=
       [ {| name := "Data"; content_prompt := "Describe the data." |};
         {| name := "Methodology"; content_prompt := "Describe the design." |};
         {| name := "Findings"; content_prompt := "Describe the results." |} ] |}.

Definition demo_metadata : PaperMetadata :=
  {| title := "Minimum Wages"; authors := ["A. Card"; "B. Krueger"];
     journal := Some "NBER Working Paper"; publication_date := None |}.

Definition demo_parsed_feed : ParsedFeed :=
  {| pf_title := Some "Research Paper Podcasts";
     pf_description := Some "Audio versions of research papers";
     pf_entries := [] |}.

(** Every collaborator answers; the resampler returns silence of the
    requested length. *)
Definition demo_env : Env := {|
  upload_file := fun _ => Ok tt;
  generate_content := fun _ => Ok (Ok "Wages rose by 5%.");
  chat_parse := fun s =>
    match s with
    | PaperMetadataSchema => fun _ => Ok demo_metadata
    | PaperSectionsSchema => fun _ => Ok demo_plan
    end;
  kpipeline := fun _ => Ok [[1; 2]; [3]];
  resample := fun data num => Ok (repeat 0 (Z.to_nat num));
  int_truediv := Z.quot;
  repr_list := fun l => "[" +:+ str_join ", " l +:+ "]";
  json_load := fun _ =>
    Ok (<["unique_id" := PyStr "nber_w1"]>
          (<["title" := PyStr "Minimum Wages"]>
             (<["authors" := PyList ["A. Card"]]>
                (<["abstract" := PyStr "An abstract."]> ∅))));
  feed_parse := fun _ => Ok demo_parsed_feed;
  dropbox_connect := fun _ => Ok tt;
  dropbox_upload := fun _ => Ok "https://www.dropbox.com/s/abc/file?dl=0";
  dropbox_download := fun _ => Ok tt;
  rss_file := fun _ => Ok tt;
  stat_of := fun _ _ => (0, 0)
|}.

(** As [demo_env], but response generation always fails. *)
Definition quota_env : Env := {|
  upload_file := upload_file demo_env;
  generate_content := fun _ => Raise (Exn ExternalError "429 quota exceeded");
  chat_parse := chat_parse demo_env;
  kpipeline := kpipeline demo_env;
  resample := resample demo_env;
  int_truediv := int_truediv demo_env;
  repr_list := repr_list demo_env;
  json_load := json_load demo_env;
  feed_parse := feed_parse demo_env;
  dropbox_connect := dropbox_connect demo_env;
  dropbox_upload := dropbox_upload demo_env;
  dropbox_download := dropbox_download demo_env;
  rss_file := rss_file demo_env;
  stat_of := stat_of demo_env
|}.

(** As [demo_env], but the speech engine fails on every text. *)
Definition mute_env : Env := {|
  upload_file := upload_file demo_env;
  generate_content := generate_content demo_env;
  chat_parse := chat_parse demo_env;
  kpipeline := fun _ => Raise (Exn ExternalError "engine error");
  resample := resample demo_env;
  int_truediv := int_truediv demo_env;
  repr_list := repr_list demo_env;
  json_load := json_load demo_env;
  feed_parse := feed_parse demo_env;
  dropbox_connect := dropbox_connect demo_env;
  dropbox_upload := dropbox_upload demo_env;
  dropbox_download := dropbox_download demo_env;
  rss_file := rss_file demo_env;
  stat_of := stat_of demo_env
|}.

Definition empty_world : World :=
  {| fs := ∅; calls := []; logs := []; feed := [] |}.

Definition world_of (files : gmap string node) : World :=
  {| fs := files; calls := []; logs := []; feed := [] |}.

Definition demo_dict : gmap string pyval :=
  <["title" := PyStr "Minimum Wages"]>
    (<["authors" := PyList ["A. Card"; "B. Krueger"]]>
       (<["journal" := PyStr "NBER Working Paper"]>
          (<["date" := PyStr "January 2025"]> ∅))).

Definition silence : file_content := Audio 24000 [0; 0].

(** A temporary directory left behind by an earlier run: two segment files. *)
Definition leftover_world : World :=
  world_of (<["temp_audio" := Dir]>
              (<["temp_audio/metadata.wav" := File false silence]>
                 (<["temp_audio/Data.wav" := File false silence]> ∅))).

(** The same, with one file that cannot be removed, and the episode already
    produced. *)
Definition locked_world : World :=
  world_of (<["output/podcast.wav" := File false silence]>
              (<["temp_audio" := Dir]>
                 (<["temp_audio/metadata.wav" := File true silence]>
                    (<["temp_audio/Data.wav" := File false silence]> ∅)))).

(** Two inputs for the assembler: one at half the target rate, one at the
    target rate. *)
Definition assembly_world : World :=
  world_of (<["a.wav" := File false (Audio 22050 [1; 2])]>
              (<["b.wav" := File false (Audio 44100 [3; 4; 5; 6])]> ∅)).

Definition demo_record : gmap string pyval :=
  <["unique_id" := PyStr "nber_w1"]>
    (<["title" := PyStr "Minimum Wages"]>
       (<["authors" := PyList ["A. Card"]]>
          (<["abstract" := PyStr "An abstract."]> ∅))).

(** The episode of the demo document exists and is in no feed yet. *)
Definition published_world : World :=
  world_of (<["output/NBER_Papers/nber_w1.wav" := File false silence]> ∅).

(** A batch of one document, with its metadata file next to it. *)
Definition batch_world : World :=
  world_of (<["Data/papers/nber/w1/paper.pdf" := File false OtherData]>
              (<["Data/papers/nber/w1/metadata.json" := File false OtherData]> ∅)).

(** ** Paths that name one file, and what a run renders *)

(** A relative path as [pathlib] prints it, and without [..]: no component
    is empty (no slash at either end, none doubled), [.] or [..]. Two such
    paths name the same file only when they are equal. *)
Definition plain_path (p : string) : bool :=
  forallb (fun part => negb (String.eqb part "") && negb (String.eqb part ".")
                       && negb (String.eqb part ".."))
    (str_split "/" p).

(** The character [c] does not occur in [s]. *)
Definition lacks (c : ascii) (s : string) : Prop :=
  forallb (fun x => negb (Ascii.eqb x c)) (list_ascii_of_string s) = true.

(** The names of the segments of an episode in narration order; the file of
    a segment is [temp_audio/<name>.wav]. *)
Definition segment_names (plan : PaperSections) : list string :=
  ["metadata"; "high_school_summary"; "background_overview"]
  ++ map name (sections plan)
  ++ ["final_takeaways"].

(** Every segment has a file of its own: no planned section has the name of
    another one or of one of the four fixed segments, and no section name
    contains a slash, so that its file is an entry of the temporary
    directory. *)
Definition separate_segments (plan : PaperSections) : Prop :=
  NoDup (segment_names plan)
  /\ Forall (fun section => lacks "/" (name section)) (sections plan).

Definition is_synthesis (c : call) : bool :=
  match c with KPipeline _ _ => true | _ => false end.

(** The audio the speech engine returned for each of its calls among [made],
    the calls that followed [before], in call order: the concatenation of
    the arrays it yielded, which is what [generate_audio] writes. *)
Fixpoint engine_audio (env : Env) (before made : list call) : list (list sample) :=
  match made with
  | [] => []
  | c :: rest =>
      (if is_synthesis c
       then match kpipeline env (before ++ [c]) with
            | Ok arrays => [concat arrays]
            | Raise _ => []
            end
       else [])
      ++ engine_audio env (before ++ [c]) rest
  end.

(** The file system after the segments [segs], given as file and audio data,
    were written one after the other at 24000 Hz. *)
Definition written (segs : list (string * list sample)) (files : gmap string node)
  : gmap string node :=
  foldl (fun m seg => <[seg.1 := File false (Audio 24000 seg.2)]> m) files segs.

(** From [w] to [w'] the segments [segs] were rendered, in this order: the
    speech engine was called once per segment and returned its audio, which
    was written to its file; nothing else was written. *)
Definition rendered (env : Env) (segs : list (string * list sample)) (w w' : World) : Prop :=
  exists made,
    calls w' = calls w ++ made
    /\ engine_audio env (calls w) made = segs.*2
    /\ fs w' = written segs (fs w).

(** The planner never answers with a section name that contains a slash. *)
Definition planner_names_plain (env : Env) : Prop :=
  forall history plan,
    chat_parse env PaperSectionsSchema history = Ok plan ->
    Forall (fun section => lacks "/" (name section)) (sections plan).

(** ** A speech engine that numbers its answers *)


(** As [demo_env], but the planner answers [plan], the speech engine answers
    its n-th call with the one sample [n], and the resampler returns its
    input. *)
Definition echo_env (plan : PaperSections) : Env := {|
  upload_file := upload_file demo_env;
  generate_content := generate_content demo_env;
  chat_parse := fun s =>
    match s with
    | PaperMetadataSchema => fun _ => Ok demo_metadata
    | PaperSectionsSchema => fun _ => Ok plan
    end;
  kpipeline := fun history =>
    Ok [[Z.of_nat (length (List.filter is_synthesis history))]];
  resample := fun data num => Ok data;
  int_truediv := int_truediv demo_env;
  repr_list := repr_list demo_env;
  json_load := json_load demo_env;
  feed_parse := feed_parse demo_env;
  dropbox_connect := dropbox_connect demo_env;
  dropbox_upload := dropbox_upload demo_env;
  dropbox_download := dropbox_download demo_env;
  rss_file := rss_file demo_env;
  stat_of := stat_of demo_env
|}.


(** ** Entries of a stored feed *)

(** No hyphen occurs in [u]. *)
Definition hyphen_free (u : string) : bool :=
  forallb (fun c => negb (Ascii.eqb c "-")) (list_ascii_of_string u).

(** What [split('-')[0]] makes of [u]: its part before the first hyphen. *)
Definition before_hyphen (u : string) : string :=
  match str_split "-" u with
  | h :: _ => h
  | [] => ""
  end.

(** The attributes the listing loop of [load_existing_feed] reads. *)
Definition listable (entry : ParsedEntry) : Prop :=
  is_Some (pe_title entry) /\ is_Some (pe_id entry) /\ is_Some (pe_link entry).

(** The parsed entry is what a registration under the unique id [u] looks
    like when the feed is read back: its id is [pushpod-<u>], and title,
    description, link and publication date are there. *)
Definition stored_entry (entry : ParsedEntry) (u : string) : Prop :=
  pe_id entry = Some ("pushpod-" +:+ u)
  /\ is_Some (pe_title entry) /\ is_Some (pe_description entry)
  /\ is_Some (pe_link entry) /\ is_Some (pe_published entry).

(** The ids a list of unique ids has in the feed, newest first. *)
Definition stored_ids (us : list string) : list (option string) :=
  reverse ((fun u => Some ("pushpod-" +:+ u)) <$> us).

Definition archived (u t : string) : ParsedEntry :=
  {| pe_id := Some ("pushpod-" +:+ u); pe_title := Some t;
     pe_description := Some "Authors: A. Card"; pe_link := Some "https://dl.dropboxusercontent.com/s/abc/file?raw=1";
     pe_published := Some 0;
     pe_enclosures := [("https://dl.dropboxusercontent.com/s/abc/file?raw=1", "0", "audio/wav")] |}.

(** A stored feed with two episodes. *)
Definition archive_feed : ParsedFeed :=
  {| pf_title := Some "Research Paper Podcasts";
     pf_description := Some "Audio versions of research papers";
     pf_entries := [archived "nber_w1" "Minimum Wages"; archived "zotero_AB12" "Search"] |}.

(** The same feed followed by an entry of another origin, whose id has no
    hyphen. *)
Definition foreign_entry : ParsedEntry :=
  {| pe_id := Some "episode7"; pe_title := Some "Episode 7";
     pe_description := Some "A description"; pe_link := Some "https://example.org/7";
     pe_published := Some 0; pe_enclosures := [] |}.

Definition mixed_feed : ParsedFeed :=
  {| pf_title := pf_title archive_feed;
     pf_description := pf_description archive_feed;
     pf_entries := pf_entries archive_feed ++ [foreign_entry] |}.

(** A stored feed with an episode whose unique id has a hyphen. *)
Definition hyphen_feed : ParsedFeed :=
  {| pf_title := pf_title archive_feed;
     pf_description := pf_description archive_feed;
     pf_entries := [archived "nber_w1" "Minimum Wages"; archived "arxiv_2401-00001" "Search"] |}.

Definition with_feed_parse (oracle : list call -> result ParsedFeed) (env : Env) : Env :=
  {| upload_file := upload_file env;
     generate_content := generate_content env;
     chat_parse := chat_parse env;
     kpipeline := kpipeline env;
     resample := resample env;
     int_truediv := int_truediv env;
     repr_list := repr_list env;
     json_load := json_load env;
     feed_parse := oracle;
     dropbox_connect := dropbox_connect env;
     dropbox_upload := dropbox_upload env;
     dropbox_download := dropbox_download env;
     rss_file := rss_file env;
     stat_of := stat_of env |}.

Definition archive_env : Env := with_feed_parse (fun _ => Ok archive_feed) demo_env.
Definition mixed_env : Env := with_feed_parse (fun _ => Ok mixed_feed) demo_env.
Definition hyphen_env : Env := with_feed_parse (fun _ => Ok hyphen_feed) demo_env.

(** The feed file of an earlier batch is there. *)
Definition archive_world : World :=
  world_of (<["output/feed.xml" := File false OtherData]> (<["output" := Dir]> ∅)).

(** ** Shape of a cleaned text *)

(** A character that [clean_text] lets through and that is not white space:
    a letter, a digit or one of [. , ! ? ' -]. *)
Definition is_word_char (c : ascii) : bool :=
  Text.is_kept c && negb (Text.is_space c).

(** [s] is made of word characters and single spaces; when [prev_space] it
    does not start with a space. *)
Fixpoint spaced (prev_space : bool) (s : list ascii) : bool :=
  match s with
  | [] => true
  | c :: s' =>
      if Ascii.eqb c " " then negb prev_space && spaced true s'
      else is_word_char c && spaced false s'
  end.

(** ** Paths of stored documents *)

(** A name that is one component of a path: not empty, without separator,
    and not the name [.] of the directory itself. *)
Definition path_component (n : string) : Prop :=
  n <> "" /\ n <> "."
  /\ forallb (fun c => negb (Ascii.eqb c Path.slash)) (list_ascii_of_string n) = true.

(** ** Outcomes of effectful code *)

(** Started in a world where [Q] holds, [m] ends, whether it returns or
    raises, in a world where [P] holds. *)
Definition leads_to {A} (Q P : World -> Prop) (m : M A) : Prop :=
  forall w r w', m w = (r, w') -> Q w -> P w'.

(** The output path holds a complete episode: audio at 44100 Hz. *)
Definition episode_at (output_path : string) (w : World) : Prop :=
  exists data, fs w !! output_path = Some (File false (Audio 44100 data)).

(** ** The calls of a run, by kind *)

Inductive call_kind :=
| Upload | Generate | Structure | Synthesize | Read | Write | Cloud.

Definition kind_eqb (a b : call_kind) : bool :=
  match a, b with
  | Upload, Upload | Generate, Generate | Structure, Structure
  | Synthesize, Synthesize | Read, Read | Write, Write | Cloud, Cloud => true
  | _, _ => false
  end.

Definition kind_of (c : call) : call_kind :=
  match c with
  | UploadFile _ => Upload
  | GenerateContent _ _ _ => Generate
  | ChatParse _ _ _ => Structure
  | KPipeline _ _ => Synthesize
  | SfRead _ => Read
  | SfWrite _ _ => Write
  | _ => Cloud
  end.

(** The kinds of the calls made so far, in call order. *)
Definition kinds (w : World) : list call_kind := map kind_of (calls w).

(** How often a kind occurs. *)
Definition count_kind (k : call_kind) (l : list call_kind) : nat :=
  length (List.filter (kind_eqb k) l).

(** The calls of a completed run of [make_podcast] for a plan of [n]
    sections; [extract] tells that the metadata had to be extracted first. *)
Definition run_shape (extract : bool) (n : nat) : list call_kind :=
  (if extract then [Upload; Generate; Structure] else [])
  ++ [Upload; Generate]
  ++ [Upload; Generate; Structure]
  ++ [Synthesize; Write]
  ++ [Synthesize; Write]
  ++ [Upload; Generate; Synthesize; Write]
  ++ concat (replicate n [Upload; Generate; Synthesize; Write])
  ++ [Generate; Synthesize; Write]
  ++ replicate (n + 4) Read
  ++ [Write].

(** ** More collaborators, to run the batch *)

Definition with_json_load (oracle : string -> result (gmap string pyval)) (env : Env) : Env :=
  {| upload_file := upload_file env;
     generate_content := generate_content env;
     chat_parse := chat_parse env;
     kpipeline := kpipeline env;
     resample := resample env;
     int_truediv := int_truediv env;
     repr_list := repr_list env;
     json_load := oracle;
     feed_parse := feed_parse env;
     dropbox_connect := dropbox_connect env;
     dropbox_upload := dropbox_upload env;
     dropbox_download := dropbox_download env;
     rss_file := rss_file env;
     stat_of := stat_of env |}.

(** The metadata files carry no [unique_id]. *)
Definition anonymous_env : Env :=
  with_json_load (fun _ => Ok (<["title" := PyStr "Minimum Wages"]> ∅)) demo_env.

(** The metadata files cannot be decoded. *)
Definition garbled_env : Env :=
  with_json_load (fun _ => Raise (Exn ValueError "Expecting value: line 1 column 1 (char 0)"))
    demo_env.

(** The storage service cannot be reached. *)
Definition offline_env : Env :=
  {| upload_file := upload_file demo_env;
     generate_content := generate_content demo_env;
     chat_parse := chat_parse demo_env;
     kpipeline := kpipeline demo_env;
     resample := resample demo_env;
     int_truediv := int_truediv demo_env;
     repr_list := repr_list demo_env;
     json_load := json_load demo_env;
     feed_parse := feed_parse demo_env;
     dropbox_connect := fun _ => Raise (Exn ExternalError "invalid refresh token");
     dropbox_upload := dropbox_upload demo_env;
     dropbox_download := dropbox_download demo_env;
     rss_file := rss_file demo_env;
     stat_of := stat_of demo_env |}.

(** ** Scraping/nber_scraper.py: the metadata of a listed paper *)

(** The double quote. *)
Definition dq : string := String (ascii_of_nat 34) EmptyString.

(** [s.split(sep)] for a separator that is not empty, scanning left to
    right; [cur] is the piece being read, [skip] counts the characters of a
    separator that are still to be passed over. *)
Fixpoint split_from (sep : list ascii) (skip : nat) (cur s : list ascii)
  : list (list ascii) :=
  match s with
  | [] => [cur]
  | c :: s' =>
      match skip with
      | S k => split_from sep k cur s'
      | O =>
          if Text.starts_with sep s
          then cur :: split_from sep (length sep - 1) [] s'
          else split_from sep 0 (cur ++ [c]) s'
      end
  end.

Definition str_split_on (sep s : string) : list string :=
  map string_of_list_ascii
    (split_from (list_ascii_of_string sep) 0 [] (list_ascii_of_string s)).

(** A string method called on a dict value. *)
Definition as_str (method : string) (v : pyval) : result string :=
  match v with
  | PyStr s => Ok s
  | PyNone =>
      Raise (Exn AttributeError ("'NoneType' object has no attribute '" +:+ method +:+ "'"))
  | PyList _ =>
      Raise (Exn AttributeError ("'list' object has no attribute '" +:+ method +:+ "'"))
  end.

(** [for x in v] for a dict value: a string is iterated character by
    character. *)
Definition py_iter (v : pyval) : result (list string) :=
  match v with
  | PyList l => Ok l
  | PyStr s => Ok (chars_of s)
  | PyNone => Raise (Exn TypeError "'NoneType' object is not iterable")
  end.

(** A list comprehension whose body can raise. *)
Fixpoint map_result {A B} (f : A -> result B) (l : list A) : result (list B) :=
  match l with
  | [] => Ok []
  | x :: l' =>
      rbind (f x) (fun y =>
      rbind (map_result f l') (fun ys =>
      Ok (y :: ys)))
  end.

Definition people_prefix : string := "<a href=" +:+ dq +:+ "/people/".

(** The body of the comprehension that cleans the author names. *)
Definition clean_author (author : string) : result string :=
  rbind (py_getitem (str_split_on (dq +:+ ">") (str_replace people_prefix "" author)) 1)
    (fun shown => Ok (str_replace "</a>" "" shown)).

(** [process_paper_metadata(paper)]. *)
Definition process_paper_metadata (paper : gmap string pyval)
  : result (gmap string pyval) :=
  (url <- dict_getitem paper "url" ;;
   url <- as_str "split" url ;;
   paper_id <- py_getitem (str_split "/" url) (-1) ;;
   listed <- dict_getitem paper "authors" ;;
   listed <- py_iter listed ;;
   authors <- map_result clean_author listed ;;
   title <- dict_getitem paper "title" ;;
   abstract <- dict_getitem paper "abstract" ;;
   displaydate <- dict_getitem paper "displaydate" ;;
   Ok (<["unique_id" := PyStr ("nber_" +:+ paper_id)]>
         (<["title" := title]>
            (<["authors" := PyList authors]>
               (<["abstract" := abstract]>
                  (<["date" := displaydate]>
                     (<["paper_id" := PyStr paper_id]>
                        (<["url" := PyStr ("https://www.nber.org" +:+ url)]>
                           (<["journal" := PyStr "NBER Working Paper"]> ∅)))))))))%R.

(** The markup of an author in the listing: a link to the person's page
    around the name that is shown. *)
Definition author_link (slug shown : string) : string :=
  people_prefix +:+ slug +:+ dq +:+ ">" +:+ shown +:+ "</a>".

(** A listed paper, as the search API returns it. *)
Definition listed_paper : gmap string pyval :=
  <["url" := PyStr "/papers/w33433"]>
    (<["title" := PyStr "Minimum Wages"]>
       (<["authors" := PyList [author_link "david-card" "David Card";
                               author_link "alan-krueger" "Alan B. Krueger"]]>
          (<["abstract" := PyStr "An abstract."]>
             (<["displaydate" := PyStr "February 2025"]> ∅)))).

(** ** Scraping/zotero.py: the record made of a Zotero item *)

(** The values of an item as the Zotero client returns them (decoded JSON;
    numbers are integers). *)
#[warnings="-register-all"]
Inductive json :=
| JNull
| JBool (b : bool)
| JInt (n : Z)
| JStr (s : string)
| JList (l : list json)
| JDict (d : list (string * json)).

Definition type_name (v : json) : string :=
  match v with
  | JNull => "NoneType"
  | JBool _ => "bool"
  | JInt _ => "int"
  | JStr _ => "str"
  | JList _ => "list"
  | JDict _ => "dict"
  end.

(** The value stored under the key [k] of a dict. *)
Definition dict_find (d : list (string * json)) (k : string) : option json :=
  snd <$> List.find (fun kv => String.eqb kv.1 k) d.

(** [v[k]] for a string [k]. *)
Definition js_getitem (v : json) (k : string) : result json :=
  match v with
  | JDict d =>
      match dict_find d k with
      | Some x => Ok x
      | None => Raise (Exn KeyError ("'" +:+ k +:+ "'"))
      end
  | JStr _ => Raise (Exn TypeError "string indices must be integers, not 'str'")
  | JList _ => Raise (Exn TypeError "list indices must be integers or slices, not str")
  | _ => Raise (Exn TypeError ("'" +:+ type_name v +:+ "' object is not subscriptable"))
  end.

(** [v.get(k, default)]. *)
Definition js_get (v : json) (k : string) (default : json) : result json :=
  match v with
  | JDict d => Ok (from_option id default (dict_find d k))
  | _ => Raise (Exn AttributeError
                  ("'" +:+ type_name v +:+ "' object has no attribute 'get'"))
  end.

(** [for x in v]: a dict is iterated by its keys, a string by its
    characters. *)
Definition js_iter (v : json) : result (list json) :=
  match v with
  | JList l => Ok l
  | JDict d => Ok (JStr <$> d.*1)
  | JStr s => Ok (JStr <$> chars_of s)
  | _ => Raise (Exn TypeError ("'" +:+ type_name v +:+ "' object is not iterable"))
  end.

(** [s.strip()]. *)
Definition str_strip (s : string) : string :=
  string_of_list_ascii (Text.strip (list_ascii_of_string s)).

(** A string that is not empty and has no white space at either end. *)
Definition tidy (s : string) : bool :=
  match list_ascii_of_string s with
  | [] => false
  | c :: l =>
      negb (Text.is_space c)
      && match last (c :: l) with
         | Some d => negb (Text.is_space d)
         | None => false
         end
  end.

(** A string without white space at either end (the empty one included). *)
Definition stripped (s : string) : Prop :=
  (forall c, head (list_ascii_of_string s) = Some c -> Text.is_space c = false)
  /\ (forall c, last (list_ascii_of_string s) = Some c -> Text.is_space c = false).

Section Zotero.

(** [repr_of] is Python's [repr] for lists and dicts. *)
Variable repr_of : json -> string.

(** [f"{v}"]. *)
Definition js_format (v : json) : string :=
match v with
| JStr s => s
| JNull => "None"
| JBool true => "True"
| JBool false => "False"
| JInt n => pretty n
| _ => repr_of v
end.

(** The body of the comprehension that formats the creators. *)
Definition creator_name (creator : json) : result string :=
(firstName <- js_get creator "firstName" (JStr "") ;;
 lastName <- js_get creator "lastName" (JStr "") ;;
 Ok (str_strip (js_format firstName +:+ " " +:+ js_format lastName)))%R.

(** [process_zotero_metadata(item)]. *)
Definition process_zotero_metadata (item : json) : result (gmap string json) :=
(data <- js_getitem item "data" ;;
 creators <- js_get data "creators" (JList []) ;;
 creators <- js_iter creators ;;
 authors <- map_result creator_name creators ;;
 key <- js_getitem item "key" ;;
 title <- js_get data "title" (JStr "") ;;
 abstract <- js_get data "abstractNote" (JStr "") ;;
 date <- js_get data "date" (JStr "") ;;
 url <- js_get data "url" (JStr "") ;;
 journal <- js_get data "publicationTitle" (JStr "") ;;
 Ok (<["unique_id" := JStr ("zotero_" +:+ js_format key)]>
       (<["title" := title]>
          (<["authors" := JList (JStr <$> authors)]>
             (<["abstract" := abstract]>
                (<["date" := date]>
                   (<["paper_id" := key]>
                      (<["url" := url]>
                         (<["journal" := journal]> ∅)))))))))%R.

End Zotero.

(** [repr] of the values that occur in the examples. *)
Definition repr_plain (v : json) : string :=
  match v with
  | JList [] => "[]"
  | JDict [] => "{}"
  | _ => "..."
  end.

(** A journal article of the collection: an author in two fields, one with a
    last name only, and an institution in a single [name] field. *)
Definition journal_article : json :=
  JDict [("key", JStr "AB12CD34");
         ("data",
          JDict [("itemType", JStr "journalArticle");
                 ("title", JStr "Minimum Wages and Employment");
                 ("creators",
                  JList [JDict [("creatorType", JStr "author");
                                ("firstName", JStr "David");
                                ("lastName", JStr "Card")];
                         JDict [("creatorType", JStr "author");
                                ("firstName", JStr "");
                                ("lastName", JStr "Krueger")];
                         JDict [("creatorType", JStr "author");
                                ("name", JStr "World Bank")]]);
                 ("date", JStr "1994");
                 ("publicationTitle", JStr "American Economic Review")])].

(** The text of the name field [k] of a creator: the string stored there, the
    empty string when the creator has no such field. *)
Definition name_field (creator : list (string * json)) (k s : string) : Prop :=
  dict_find creator k = Some (JStr s) \/ (dict_find creator k = None /\ s = "").

(** The exceptions of a failed look-up in an item. *)
Definition lookup_error (e : exn) : Prop :=
  exn_kind e = KeyError \/ exn_kind e = TypeError \/ exn_kind e = AttributeError.

(** * Properties *)

Local Open Scope M_scope.

(** ** The voice rotator *)

Section Rotator.

Variable voices : list string.
Hypothesis nonempty : (1 <= length voices)%nat.

Lemma voice_at_is_Some i : is_Some (voice_at voices i).
Proof.
  unfold voice_at. apply lookup_lt_is_Some.
  pose proof (Z.mod_pos_bound i (Z.of_nat (length voices))). lia.
Qed.

Lemma voice_at_mod i : voice_at voices (i mod Z.of_nat (length voices)) = voice_at voices i.
Proof. unfold voice_at. rewrite Z.mod_mod by lia. reflexivity. Qed.

Lemma get_next_voice_step idx v :
  voice_at voices (idx + 1) = Some v ->
  get_next_voice voices idx = Ok (v, (idx + 1) mod Z.of_nat (length voices)).
Proof.
  unfold voice_at, get_next_voice, py_mod, py_getitem. intros Hv.
  destruct (Z.eqb_spec (Z.of_nat (length voices)) 0) as [E|_]; [lia|]. simpl.
  pose proof (Z.mod_pos_bound (idx + 1) (Z.of_nat (length voices))) as B.
  destruct (Z.ltb_spec ((idx + 1) mod Z.of_nat (length voices)) 0) as [?|_]; [lia|].
  destruct (Z.ltb_spec ((idx + 1) mod Z.of_nat (length voices)) 0) as [?|_]; [lia|].
  rewrite Hv. reflexivity.
Qed.

Lemma next_voices_lookup n : forall idx vs,
  next_voices voices n idx = Ok vs ->
  length vs = n /\
  forall i, (i < n)%nat -> vs !! i = voice_at voices (idx + 1 + Z.of_nat i).
Proof.
  induction n as [|n IH]; intros idx vs H; simpl in H.
  - inversion H; subst. split; [reflexivity | intros; lia].
  - destruct (voice_at_is_Some (idx + 1)) as [v Hv].
    rewrite (get_next_voice_step _ _ Hv) in H. simpl in H.
    destruct (next_voices voices n ((idx + 1) mod Z.of_nat (length voices)))
      as [rest|e] eqn:Hrest; simpl in H; [|discriminate].
    inversion H; subst. destruct (IH _ _ Hrest) as [Hlen Hnth].
    split; [simpl; congruence|].
    intros [|i] Hi; simpl.
    + rewrite Z.add_0_r. symmetry. exact Hv.
    + rewrite Hnth by lia. unfold voice_at. f_equal. f_equal.
      replace ((idx + 1) mod Z.of_nat (length voices) + 1 + Z.of_nat i)
        with ((idx + 1) mod Z.of_nat (length voices) + (1 + Z.of_nat i)) by lia.
      rewrite Zplus_mod_idemp_l. f_equal. lia.
Qed.

Lemma next_voices_total n : forall idx, exists vs, next_voices voices n idx = Ok vs.
Proof.
  induction n as [|n IH]; intros idx; simpl; [eauto|].
  destruct (voice_at_is_Some (idx + 1)) as [v Hv].
  rewrite (get_next_voice_step _ _ Hv). simpl.
  destruct (IH ((idx + 1) mod Z.of_nat (length voices))) as [rest ->]. simpl. eauto.
Qed.

End Rotator.

(** C8. For a voice list of length L >= 1, successive calls of
    [get_next_voice] starting from index -1 never fail, the i-th call
    (counting from 0) returns [voices[i mod L]], the first L calls return the
    list itself in order, and after L calls the cycle repeats: call L + j
    returns what call j returned. *)
Theorem get_next_voice_cycle (voices : list string) :
  (1 <= length voices)%nat ->
  let L := length voices in
  (forall n, exists vs,
      next_voices voices n (-1) = Ok vs /\ length vs = n /\
      forall i, (i < n)%nat -> vs !! i = voices !! (i mod L)%nat)
  /\ next_voices voices L (-1) = Ok voices
  /\ (forall k vs, next_voices voices (L + k) (-1) = Ok vs ->
      forall j, (j < k)%nat -> vs !! (L + j)%nat = vs !! j).
Proof.
  intros HL L.
  assert (Hat : forall i : nat, voice_at voices (-1 + 1 + Z.of_nat i) = voices !! (i mod L)%nat).
  { intros i. unfold voice_at. f_equal. replace (-1 + 1 + Z.of_nat i) with (Z.of_nat i) by lia.
    rewrite <- Nat2Z.inj_mod. apply Nat2Z.id. }
  assert (Hall : forall n vs, next_voices voices n (-1) = Ok vs ->
            length vs = n /\ forall i, (i < n)%nat -> vs !! i = voices !! (i mod L)%nat).
  { intros n vs H. destruct (next_voices_lookup voices HL n _ _ H) as [Hlen Hnth].
    split; [exact Hlen|]. intros i Hi. rewrite Hnth by exact Hi. apply Hat. }
  split; [|split].
  - intros n. destruct (next_voices_total voices HL n (-1)) as [vs Hvs].
    exists vs. destruct (Hall _ _ Hvs). auto.
  - destruct (next_voices_total voices HL L (-1)) as [vs Hvs].
    rewrite Hvs. f_equal. destruct (Hall _ _ Hvs) as [Hlen Hnth].
    apply list_eq. intros i. destruct (decide (i < L)%nat) as [Hi|Hi].
    + rewrite Hnth by exact Hi. rewrite Nat.mod_small by exact Hi. reflexivity.
    + rewrite !lookup_ge_None_2 by (fold L; lia). reflexivity.
  - intros k vs Hvs j Hj. destruct (Hall _ _ Hvs) as [Hlen Hnth].
    rewrite !Hnth by lia. f_equal.
    replace (L + j)%nat with (j + 1 * L)%nat by lia.
    apply Nat.Div0.mod_add.
Qed.

Lemma get_next_voice_cycle_witness :
  next_voices VOICES 4 (-1) = Ok VOICES.
Proof.
  assert (H : (1 <= length VOICES)%nat) by (simpl; lia).
  exact (proj1 (proj2 (get_next_voice_cycle VOICES H))).
Defined.

(** ** The text normalizer *)

Module TextFacts.
Import Text.

Lemma alnum_not_space c : is_alnum c = true -> is_space c = false.
Proof. destruct c as [[] [] [] [] [] [] [] []]; vm_compute; congruence. Qed.

Lemma alnum_kept c : is_alnum c = true -> is_kept c = true.
Proof. unfold is_kept. intros ->. reflexivity. Qed.

Lemma eqb_alnum_other q c : is_alnum q = true -> is_alnum c = false -> Ascii.eqb q c = false.
Proof. intros Hq Hc. destruct (Ascii.eqb_spec q c); [congruence | reflexivity]. Qed.

Lemma eqb_alnum_space q c : is_alnum q = true -> is_space c = true -> Ascii.eqb q c = false.
Proof.
  intros Hq Hc. destruct (Ascii.eqb_spec q c) as [->|]; [|reflexivity].
  rewrite (alnum_not_space _ Hq) in Hc. discriminate.
Qed.

Lemma starts_with_nil_r q : q <> [] -> starts_with q [] = false.
Proof. destruct q; [congruence | reflexivity]. Qed.

(** *** Replacement of one character by a text *)

Lemma replace_single a new s :
  replace [a] new s = flat_map (expand a new) s.
Proof.
  unfold replace. induction s as [|c s IH]; [reflexivity|].
  simpl. unfold expand at 1. rewrite andb_true_r.
  destruct (Ascii.eqb a c); simpl; rewrite IH; reflexivity.
Qed.

Lemma starts_with_expand a sp new q :
  plain q -> is_alnum a = false -> is_alnum sp = false ->
  forall s, starts_with q (flat_map (expand a (sp :: new)) s) = starts_with q s.
Proof.
  intros Hq Ha Hsp. induction Hq as [|x q Hx Hq IH]; intros s; [reflexivity|].
  destruct s as [|c s]; [reflexivity|]. simpl. unfold expand at 1.
  destruct (Ascii.eqb_spec a c) as [<-|Hne]; simpl.
  - rewrite !(eqb_alnum_other x) by assumption. reflexivity.
  - rewrite IH. reflexivity.
Qed.

Lemma occurrences_expand_other a sp new q c s :
  plain q -> is_alnum a = false -> is_alnum sp = false -> a <> c ->
  occurrences q (flat_map (expand a (sp :: new)) (c :: s))
  = ((if starts_with q (c :: s) then 1 else 0)
     + occurrences q (flat_map (expand a (sp :: new)) s))%nat.
Proof.
  intros Hq Ha Hsp Hne.
  rewrite <- (starts_with_expand a sp new q Hq Ha Hsp (c :: s)).
  simpl. unfold expand at 1 3. destruct (Ascii.eqb_spec a c); [contradiction|].
  reflexivity.
Qed.

Lemma plain_percent : plain percent.
Proof. repeat constructor. Qed.

(** Every [%] contributes one new occurrence, and none is lost. *)
Lemma occurrences_replace_percent s :
  occurrences percent (replace [percent_sign] (list_ascii_of_string " percent") s)
  = (occurrences [percent_sign] s + occurrences percent s)%nat.
Proof.
  rewrite replace_single. induction s as [|c s IH]; [reflexivity|].
  destruct (Ascii.eqb_spec percent_sign c) as [<-|Hne].
  - change (flat_map (expand percent_sign (list_ascii_of_string " percent"))
              (percent_sign :: s))
      with (list_ascii_of_string " percent"
            ++ flat_map (expand percent_sign (list_ascii_of_string " percent")) s).
    remember (flat_map (expand percent_sign (list_ascii_of_string " percent")) s) as R.
    cbn. f_equal. exact IH.
  - change (list_ascii_of_string " percent")
      with (" "%char :: list_ascii_of_string "percent") in *.
    rewrite occurrences_expand_other; try reflexivity; try assumption;
      [|apply plain_percent].
    rewrite IH. cbn [occurrences].
    replace (starts_with [percent_sign] (c :: s)) with false.
    + lia.
    + cbn [starts_with].
      destruct (Ascii.eqb_spec percent_sign c); [contradiction | reflexivity].
Qed.

Lemma occurrences_replace_star q s :
  plain q ->
  occurrences q (replace ["*"%char] [" "%char] s) = occurrences q s.
Proof.
  intros Hq. rewrite replace_single. induction s as [|c s IH]; [reflexivity|].
  destruct (Ascii.eqb_spec "*"%char c) as [<-|Hne].
  - cbn [flat_map expand Ascii.eqb Bool.eqb app]. cbn [occurrences]. rewrite IH.
    destruct Hq as [|x q Hx Hq]; [reflexivity|].
    cbn [starts_with]. rewrite !(eqb_alnum_other x) by (assumption || reflexivity).
    reflexivity.
  - rewrite occurrences_expand_other; try reflexivity; try assumption.
    rewrite IH. reflexivity.
Qed.

(** *** The two regular-expression substitutions *)

Lemma starts_with_sub_special q :
  plain q -> forall s, starts_with q (sub_special s) = starts_with q s.
Proof.
  intros Hq. induction Hq as [|x q Hx Hq IH]; intros s; [reflexivity|].
  destruct s as [|c s]; [reflexivity|]. cbn [sub_special map starts_with].
  fold (sub_special s). rewrite IH. f_equal.
  destruct (is_kept c) eqn:Hc; [reflexivity|].
  rewrite (eqb_alnum_other x " "%char) by (assumption || reflexivity).
  symmetry. apply eqb_alnum_other; [assumption|].
  destruct (is_alnum c) eqn:Hc'; [|reflexivity].
  rewrite (alnum_kept _ Hc') in Hc. discriminate.
Qed.

Lemma occurrences_sub_special q s :
  plain q -> occurrences q (sub_special s) = occurrences q s.
Proof.
  intros Hq. induction s as [|c s IH]; [reflexivity|].
  change (sub_special (c :: s))
    with ((if is_kept c then c else " "%char) :: sub_special s) at 1.
  cbn [occurrences]. rewrite IH. f_equal.
  change ((if is_kept c then c else " "%char) :: sub_special s)
    with (sub_special (c :: s)).
  rewrite starts_with_sub_special by assumption. reflexivity.
Qed.

Lemma starts_with_sub_spaces q :
  plain q -> forall s, starts_with q (sub_spaces false s) = starts_with q s.
Proof.
  intros Hq. induction Hq as [|x q Hx Hq IH]; intros s; [reflexivity|].
  destruct s as [|c s]; [reflexivity|]. cbn [sub_spaces].
  destruct (is_space c) eqn:Hc; cbn [starts_with].
  - rewrite (eqb_alnum_space x " "%char) by (assumption || reflexivity).
    rewrite (eqb_alnum_space x c) by assumption. reflexivity.
  - rewrite IH. reflexivity.
Qed.

Lemma starts_with_space q c s :
  plain q -> q <> [] -> is_space c = true -> starts_with q (c :: s) = false.
Proof.
  intros Hq Hne Hc. destruct Hq as [|x q Hx Hq]; [congruence|].
  cbn [starts_with]. rewrite (eqb_alnum_space x c) by assumption. reflexivity.
Qed.

Lemma occurrences_sub_spaces q :
  plain q -> q <> [] ->
  forall s in_run, occurrences q (sub_spaces in_run s) = occurrences q s.
Proof.
  intros Hq Hne. induction s as [|c s IH]; intros in_run; [reflexivity|].
  cbn [sub_spaces occurrences]. destruct (is_space c) eqn:Hc.
  - rewrite (starts_with_space q c s) by assumption.
    destruct in_run; [apply IH|].
    cbn [occurrences]. rewrite (starts_with_space q " "%char) by (assumption || reflexivity).
    rewrite IH. reflexivity.
  - cbn [occurrences]. rewrite IH. f_equal.
    replace (c :: sub_spaces false s) with (sub_spaces false (c :: s))
      by (cbn [sub_spaces]; rewrite Hc; reflexivity).
    rewrite starts_with_sub_spaces by assumption. reflexivity.
Qed.

(** *** Stripping *)

Lemma occurrences_lstrip q s :
  plain q -> q <> [] -> occurrences q (lstrip s) = occurrences q s.
Proof.
  intros Hq Hne. induction s as [|c s IH]; [reflexivity|].
  cbn [lstrip]. destruct (is_space c) eqn:Hc; [|reflexivity].
  cbn [occurrences]. rewrite (starts_with_space q c s) by assumption. exact IH.
Qed.

Lemma starts_with_rstrip s :
  forall q, plain q -> starts_with q (rstrip s) = starts_with q s.
Proof.
  induction s as [|c s IH]; intros q Hq; [reflexivity|].
  destruct Hq as [|x q Hx Hq]; [reflexivity|].
  specialize (IH q Hq). cbn [rstrip].
  destruct (rstrip s) as [|r rs] eqn:Hr.
  - destruct (is_space c) eqn:Hc; cbn [starts_with].
    + rewrite (eqb_alnum_space x c) by assumption. reflexivity.
    + rewrite IH. reflexivity.
  - cbn [starts_with]. cbn [starts_with] in IH. rewrite IH. reflexivity.
Qed.

Lemma occurrences_cons q c s :
  occurrences q (c :: s)
  = ((if starts_with q (c :: s) then 1 else 0) + occurrences q s)%nat.
Proof. reflexivity. Qed.

Lemma occurrences_rstrip q s :
  plain q -> q <> [] -> occurrences q (rstrip s) = occurrences q s.
Proof.
  intros Hq Hne. induction s as [|c s IH]; [reflexivity|].
  pose proof (starts_with_rstrip (c :: s) q Hq) as Hsw.
  rewrite (occurrences_cons q c s), <- Hsw, <- IH.
  cbn [rstrip]. destruct (rstrip s) as [|r rs] eqn:Hr.
  - destruct (is_space c) eqn:Hc.
    + rewrite starts_with_nil_r by assumption. reflexivity.
    + apply occurrences_cons.
  - apply occurrences_cons.
Qed.

Lemma occurrences_strip q s :
  plain q -> q <> [] -> occurrences q (strip s) = occurrences q s.
Proof.
  intros Hq Hne. unfold strip.
  rewrite occurrences_rstrip, occurrences_lstrip by assumption. reflexivity.
Qed.

End TextFacts.

(** C9, as amended. The occurrences of "percent" in the cleaned text are one
    per [%] of the input plus the occurrences of "percent" that the input
    already contains. *)
Theorem clean_text_percent_accounting (text : string) :
  count_occurrences "percent" (clean_text text)
  = (count_occurrences "%" text + count_occurrences "percent" text)%nat.
Proof.
  unfold count_occurrences, clean_text, str_replace.
  rewrite !list_ascii_of_string_of_list_ascii.
  change (list_ascii_of_string "percent") with Text.percent.
  assert (Hne : Text.percent <> []) by discriminate.
  rewrite TextFacts.occurrences_strip by (apply TextFacts.plain_percent || exact Hne).
  rewrite TextFacts.occurrences_sub_spaces by (apply TextFacts.plain_percent || exact Hne).
  rewrite TextFacts.occurrences_sub_special by apply TextFacts.plain_percent.
  change (list_ascii_of_string "*") with ["*"%char].
  change (list_ascii_of_string " ") with [" "%char].
  rewrite TextFacts.occurrences_replace_star by apply TextFacts.plain_percent.
  change (list_ascii_of_string "%") with [Text.percent_sign].
  apply TextFacts.occurrences_replace_percent.
Qed.

(** C9, counterexample. The input "percent" holds no [%], yet the cleaned
    text holds the word once. *)
Lemma clean_text_percent_counterexample :
  count_occurrences "percent" (clean_text "percent")
  <> count_occurrences "%" "percent".
Proof. vm_compute. discriminate. Qed.

(** ** The language-model call *)

Section LlmResponse.

Variable env : Env.

Lemma generation_caught model_name response_schema content w1 :
  exists text w',
    try_except
      (match response_schema with
       | Some sch =>
           response <- external (GenerateContent model_name content (Some sch))
                         (generate_content env) ;;
           text <- lift response ;;
           if String.eqb text ""
           then raise (Exn ValueError "Empty response received")
           else ret text
       | None =>
           response <- external (GenerateContent model_name content None)
                         (generate_content env) ;;
           lift response
       end)
      (fun e => ret (str_exn e)) w1 = (Ok text, w')
    /\ fs w' = fs w1 /\ logs w' = logs w1
    /\ llm_outcome env response_schema text w'.
Proof.
  unfold llm_outcome, try_except, bind, external, lift, raise, ret.
  destruct response_schema as [sch|]; cbn [calls add_call];
    match goal with
    | |- context [generate_content env ?h] =>
        destruct (generate_content env h) as [[t|e1]|e2] eqn:Hg
    end; cbn.
  - destruct (String.eqb t "") eqn:Ht; cbn;
      eexists _, _; (split; [reflexivity|]); cbn; rewrite Hg;
      repeat split; try discriminate; intros ? [= <-]; rewrite Ht; reflexivity.
  - eexists _, _; (split; [reflexivity|]); cbn; rewrite Hg;
      repeat split; try discriminate; intros ? [= <-]; reflexivity.
  - eexists _, _; (split; [reflexivity|]); cbn; rewrite Hg;
      repeat split; try discriminate; intros ? [= <-]; reflexivity.
  - eexists _, _; (split; [reflexivity|]); cbn; rewrite Hg;
      repeat split; try discriminate; intros ? [= <-].
    rewrite andb_false_r. reflexivity.
  - eexists _, _; (split; [reflexivity|]); cbn; rewrite Hg;
      repeat split; try discriminate; intros ? [= <-]; reflexivity.
  - eexists _, _; (split; [reflexivity|]); cbn; rewrite Hg;
      repeat split; try discriminate; intros ? [= <-]; reflexivity.
Qed.

Lemma get_llm_response_total prompt pdf_path model_name response_schema w :
  upload_succeeds env pdf_path w ->
  exists text w',
    get_llm_response env prompt pdf_path model_name response_schema w = (Ok text, w')
    /\ fs w' = fs w /\ logs w' = logs w
    /\ llm_outcome env response_schema text w'.
Proof.
  intros Hup. unfold get_llm_response. unfold bind at 1.
  destruct pdf_path as [p|]; cbn in Hup.
  - destruct (String.eqb p "") eqn:Hp.
    + unfold ret at 1. apply generation_caught.
    + destruct Hup as [->|Hup]; [discriminate|].
      unfold bind at 1, external at 1. cbn [calls add_call].
      destruct (upload_file env (calls w ++ [UploadFile p])) as [[]|e]; [|discriminate].
      unfold ret at 1.
      destruct (generation_caught model_name response_schema
                  ([FileRef p] ++ [TextPart (nl +:+ nl +:+ prompt)])
                  (add_call (UploadFile p) w)) as (text & w' & H & Hfs & Hrest).
      exists text, w'. split; [exact H|]. split; [exact Hfs|exact Hrest].
  - unfold ret at 1. apply generation_caught.
Qed.

(** C10. Once the optional upload of the document has succeeded,
    [get_llm_response] returns a string and does not raise, whatever
    happens inside response generation: when [generate_content] raises, or
    when reading the text of the response raises, the returned string is the
    message of that exception, and an empty structured response gives the
    message of the [ValueError] raised for it. The script functions return
    this string as their narration, so the caller goes on with it. *)
Theorem get_llm_response_returns_error_text prompt pdf_path model_name response_schema w :
  upload_succeeds env pdf_path w ->
  (exists text w',
      get_llm_response env prompt pdf_path model_name response_schema w = (Ok text, w')
      /\ llm_outcome env response_schema text w')
  /\ (forall p section bullets,
      pdf_path = Some p ->
      exists content w',
        generate_section_details env p section bullets w = (Ok content, w')
        /\ llm_outcome env None content w')
  /\ (forall p num_sentences,
      pdf_path = Some p ->
      exists summary w',
        get_high_school_summary env p num_sentences w = (Ok summary, w')
        /\ llm_outcome env None summary w').
Proof.
  intros Hup. split; [|split].
  - destruct (get_llm_response_total prompt pdf_path model_name response_schema w Hup)
      as (text & w' & H & _ & _ & Hout). eauto.
  - intros p section bullets ->.
    unfold generate_section_details. unfold bind at 1, log at 1.
    match goal with
    | |- context [get_llm_response env ?pr (Some p) ?m None] =>
        destruct (get_llm_response_total pr (Some p) m None
                    (add_log INFO ("Generating " +:+ name section +:+ " section...") w) Hup)
          as (text & w' & H & _ & _ & Hout)
    end.
    unfold bind at 1. rewrite H. unfold bind, log, ret.
    eexists _, _. split; [reflexivity|]. exact Hout.
  - intros p num_sentences ->.
    unfold get_high_school_summary. unfold bind at 1, log at 1.
    match goal with
    | |- context [get_llm_response env ?pr (Some p) ?m None] =>
        destruct (get_llm_response_total pr (Some p) m None
                    (add_log INFO "Generating high-school level summary..." w) Hup)
          as (text & w' & H & _ & _ & Hout)
    end.
    rewrite H. eauto.
Qed.

End LlmResponse.

Lemma get_llm_response_returns_error_text_witness :
  exists text w',
    get_llm_response quota_env "Summarize." (Some "paper.pdf") default_model_name None
      empty_world = (Ok text, w')
    /\ llm_outcome quota_env None text w'.
Proof.
  exact (proj1 (get_llm_response_returns_error_text quota_env "Summarize."
                  (Some "paper.pdf") default_model_name None empty_world
                  (or_intror eq_refl))).
Defined.

(** With a language model that always fails, every narrated segment is
    synthesized from the error message. *)
Example error_text_is_synthesized :
  let w := (process_paper quota_env "paper.pdf" "output/podcast.wav" demo_dict empty_world).2 in
  texts_spoken w
  = ["Title Minimum Wages. By A. Card, B. Krueger. Published in NBER Working Paper.";
     "First, let me give you a simple overview that anyone can understand. 429 quota exceeded";
     "Now, let me provide some context about the broader research landscape. 429 quota exceeded";
     "429 quota exceeded"; "429 quota exceeded"; "429 quota exceeded";
     "To wrap up, here are the key takeaways from our discussion 429 quota exceeded"].
Proof. vm_compute. reflexivity. Qed.


(** ** The metadata segment *)






(** ** Reasoning about effectful code *)

Lemma bind_Ok {A B} (m : M A) (k : A -> M B) w b w' :
  bind m k w = (Ok b, w') ->
  exists a w1, m w = (Ok a, w1) /\ k a w1 = (Ok b, w').
Proof.
  unfold bind. destruct (m w) as [[a|e] w1]; [eauto | discriminate].
Qed.

Lemma bind_cases {A B} (m : M A) (k : A -> M B) w r w' :
  bind m k w = (r, w') ->
  (exists a w1, m w = (Ok a, w1) /\ k a w1 = (r, w'))
  \/ (exists e, m w = (Raise e, w') /\ r = Raise e).
Proof.
  unfold bind. destruct (m w) as [[a|e] w1]; [eauto|].
  intros [= <- <-]. eauto.
Qed.

Lemma lift_Ok {A} (r : result A) w a w' :
  lift r w = (Ok a, w') -> r = Ok a /\ w' = w.
Proof. unfold lift. intros [= -> ->]. auto. Qed.

Lemma ret_Ok {A} (x : A) w a w' : ret x w = (Ok a, w') -> a = x /\ w' = w.
Proof. unfold ret. intros [= -> ->]. auto. Qed.

Lemma log_Ok l msg w a w' : log l msg w = (Ok a, w') -> w' = add_log l msg w.
Proof. unfold log. intros H. inversion H. reflexivity. Qed.

(** Splits a hypothesis [bind m k w = (Ok _, _)] into the run of [m] and the
    run of the continuation. *)
Ltac bind_ok H :=
  let a := fresh "a" in
  let w1 := fresh "w" in
  let E := fresh "E" in
  apply bind_Ok in H; destruct H as (a & w1 & E & H);
  repeat match goal with u : unit |- _ => destruct u end.

Section Frames.

Context {X : Type} (f : World -> X).

Lemma preserves_ret {A} (a : A) : preserves f (ret a).
Proof. intros w r w' [= <- <-]. reflexivity. Qed.

Lemma preserves_raise {A} e : preserves f (@raise A e).
Proof. intros w r w' [= <- <-]. reflexivity. Qed.

Lemma preserves_lift {A} (x : result A) : preserves f (lift x).
Proof. intros w r w' [= <- <-]. reflexivity. Qed.

Lemma preserves_bind {A B} (m : M A) (k : A -> M B) :
  preserves f m -> (forall a, preserves f (k a)) -> preserves f (bind m k).
Proof.
  intros Hm Hk w r w' H. destruct (bind_cases _ _ _ _ _ H) as [(a & w1 & E1 & E2)|(e & E1 & _)].
  - rewrite (Hk _ _ _ _ E2). exact (Hm _ _ _ E1).
  - exact (Hm _ _ _ E1).
Qed.

Lemma preserves_try_except {A} (m : M A) (h : exn -> M A) :
  preserves f m -> (forall e, preserves f (h e)) -> preserves f (try_except m h).
Proof.
  intros Hm Hh w r w' H. unfold try_except in H.
  destruct (m w) as [[a|e] w1] eqn:E.
  - inversion H; subst. exact (Hm _ _ _ E).
  - rewrite (Hh _ _ _ _ H). exact (Hm _ _ _ E).
Qed.

Lemma preserves_try_finally {A} (m : M A) (final : M unit) :
  preserves f m -> preserves f final -> preserves f (try_finally m final).
Proof.
  intros Hm Hf w r w' H. unfold try_finally in H.
  destruct (m w) as [r1 w1] eqn:E. destruct (final w1) as [[u|e] w2] eqn:E2;
    inversion H; subst; rewrite (Hf _ _ _ E2); exact (Hm _ _ _ E).
Qed.

Lemma preserves_for_each {A} (l : list A) (body : A -> M unit) :
  (forall x, preserves f (body x)) -> preserves f (for_each l body).
Proof.
  intros Hb. induction l as [|x l IH]; simpl.
  - apply preserves_ret.
  - apply preserves_bind; [apply Hb | intros _; exact IH].
Qed.

Lemma preserves_log l msg :
  (forall l msg w, f (add_log l msg w) = f w) -> preserves f (log l msg).
Proof. intros Hf w r w' [= <- <-]. apply Hf. Qed.

Lemma preserves_external {A} c (oracle : list call -> result A) :
  (forall c w, f (add_call c w) = f w) -> preserves f (external c oracle).
Proof. intros Hf w r w' [= <- <-]. apply Hf. Qed.

Lemma preserves_path_exists p : preserves f (path_exists p).
Proof. intros w r w' [= <- <-]. reflexivity. Qed.

Lemma preserves_glob_star d : preserves f (glob_star d).
Proof. intros w r w' [= <- <-]. reflexivity. Qed.

Lemma preserves_rglob d n : preserves f (rglob d n).
Proof. intros w r w' [= <- <-]. reflexivity. Qed.

Lemma preserves_open_read p : preserves f (open_read p).
Proof.
  intros w r w' H. unfold open_read in H.
  destruct (fs w !! p) as [[]|]; inversion H; reflexivity.
Qed.

Hypothesis f_fs : forall g w, f (set_fs g w) = f w.

Lemma preserves_mkdir_exist_ok p : preserves f (mkdir_exist_ok p).
Proof.
  intros w r w' H. unfold mkdir_exist_ok in H.
  destruct (Path.is_base p); [inversion H; reflexivity|].
  destruct (fs w !! p) as [[]|]; try (inversion H; reflexivity).
  destruct (is_dir w (Path.parent p)); inversion H; [apply f_fs | reflexivity].
Qed.

Lemma preserves_mkdir_parents p : preserves f (mkdir_parents p).
Proof. apply preserves_for_each. intros x. apply preserves_mkdir_exist_ok. Qed.

Lemma preserves_unlink p : preserves f (unlink p).
Proof.
  intros w r w' H. unfold unlink in H.
  destruct (fs w !! p) as [[[] ?|]|]; inversion H; try reflexivity. apply f_fs.
Qed.

Lemma preserves_rmdir p : preserves f (rmdir p).
Proof.
  intros w r w' H. unfold rmdir in H.
  destruct (fs w !! p) as [[|]|]; try (inversion H; reflexivity).
  destruct (has_entries w p); inversion H; [reflexivity | apply f_fs].
Qed.

Hypothesis f_calls : forall c w, f (add_call c w) = f w.

Lemma preserves_sf_read p : preserves f (sf_read p).
Proof.
  intros w r w' H. unfold sf_read in H.
  destruct (fs w !! p) as [[? []|]|]; inversion H; apply f_calls.
Qed.

Lemma preserves_sf_write p data sr : preserves f (sf_write p data sr).
Proof.
  intros w r w' H. unfold sf_write in H.
  destruct (negb (is_dir w (Path.parent p))); [inversion H; apply f_calls|].
  destruct (fs w !! p) as [[[] ?|]|]; inversion H;
    rewrite ?f_fs; apply f_calls.
Qed.

End Frames.

Tactic Notation "bind_ok" hyp(H) "as" simple_intropattern(a) ident(w1) ident(E) :=
  apply bind_Ok in H; destruct H as (a & w1 & E & H).

(** Proves [preserves f m] by following the structure of [m]. *)
Ltac frame_step :=
  match goal with
  | H : preserves ?f ?m |- preserves ?f ?m => exact H
  | |- preserves _ (ret _) => apply preserves_ret
  | |- preserves _ (raise _) => apply preserves_raise
  | |- preserves _ (lift _) => apply preserves_lift
  | |- preserves _ (path_exists _) => apply preserves_path_exists
  | |- preserves _ (glob_star _) => apply preserves_glob_star
  | |- preserves _ (rglob _ _) => apply preserves_rglob
  | |- preserves _ (open_read _) => apply preserves_open_read
  | |- preserves _ (log _ _) => apply preserves_log; reflexivity
  | |- preserves _ (external _ _) => apply preserves_external; reflexivity
  | |- preserves _ (mkdir_exist_ok _) => apply preserves_mkdir_exist_ok; reflexivity
  | |- preserves _ (mkdir_parents _) => apply preserves_mkdir_parents; reflexivity
  | |- preserves _ (unlink _) => apply preserves_unlink; reflexivity
  | |- preserves _ (rmdir _) => apply preserves_rmdir; reflexivity
  | |- preserves _ (sf_read _) => apply preserves_sf_read; reflexivity
  | |- preserves _ (sf_write _ _ _) => apply preserves_sf_write; reflexivity
  | |- preserves _ (bind _ _) => apply preserves_bind; [|intros ?]
  | |- preserves _ (try_except _ _) => apply preserves_try_except; [|intros ?]
  | |- preserves _ (try_finally _ _) => apply preserves_try_finally
  | |- preserves _ (for_each _ _) => apply preserves_for_each; intros ?
  | |- preserves _ (if ?b then _ else _) => destruct b
  | |- preserves _ (match ?x with _ => _ end) => destruct x
  | |- preserves _ (let _ := _ in _) => cbv zeta
  end.

Ltac frame := repeat frame_step.

Section CallsOnly.

Context (P : call -> bool).

Lemma calls_only_same {A} (m : M A) : preserves calls m -> calls_only (fun c => P c = true) m.
Proof.
  intros Hm w r w' H. exists []. rewrite (Hm _ _ _ H), app_nil_r. auto.
Qed.

Lemma calls_only_bind {A B} (m : M A) (k : A -> M B) :
  calls_only (fun c => P c = true) m ->
  (forall a, calls_only (fun c => P c = true) (k a)) ->
  calls_only (fun c => P c = true) (bind m k).
Proof.
  intros Hm Hk w r w' H.
  destruct (bind_cases _ _ _ _ _ H) as [(a & w1 & E1 & E2)|(e & E1 & _)].
  - destruct (Hk _ _ _ _ E2) as (l2 & H2 & F2).
    destruct (Hm _ _ _ E1) as (l1 & H1 & F1).
    exists (l1 ++ l2). rewrite H2, H1, app_assoc. split; [reflexivity|].
    apply Forall_app; auto.
  - exact (Hm _ _ _ E1).
Qed.

Lemma calls_only_try_except {A} (m : M A) (h : exn -> M A) :
  calls_only (fun c => P c = true) m ->
  (forall e, calls_only (fun c => P c = true) (h e)) ->
  calls_only (fun c => P c = true) (try_except m h).
Proof.
  intros Hm Hh w r w' H. unfold try_except in H.
  destruct (m w) as [[a|e] w1] eqn:E.
  - inversion H; subst. exact (Hm _ _ _ E).
  - destruct (Hm _ _ _ E) as (l1 & H1 & F1).
    destruct (Hh _ _ _ _ H) as (l2 & H2 & F2).
    exists (l1 ++ l2). rewrite H2, H1, app_assoc. split; [reflexivity|].
    apply Forall_app; auto.
Qed.

Lemma calls_only_external {A} c (oracle : list call -> result A) :
  P c = true -> calls_only (fun c => P c = true) (external c oracle).
Proof.
  intros Hc w r w' [= <- <-]. exists [c]. split; [reflexivity|].
  constructor; [exact Hc | constructor].
Qed.

End CallsOnly.

Lemma calls_only_prefix {A} P (m : M A) w r w' :
  calls_only P m -> m w = (r, w') -> calls w `prefix_of` calls w'.
Proof. intros Hm H. destruct (Hm _ _ _ H) as (l & -> & _). by exists l. Qed.

(** Proves [calls_only P m] by following the structure of [m]. *)
Ltac calls_step :=
  match goal with
  | H : calls_only ?P ?m |- calls_only ?P ?m => exact H
  | |- calls_only _ (external _ _) => apply calls_only_external; reflexivity
  | |- calls_only _ (bind _ _) => apply calls_only_bind; [|intros ?]
  | |- calls_only _ (try_except _ _) => apply calls_only_try_except; [|intros ?]
  | |- calls_only _ (if ?b then _ else _) => destruct b
  | |- calls_only _ (match ?x with _ => _ end) => destruct x
  | |- calls_only _ (let _ := _ in _) => cbv zeta
  | |- calls_only _ (ret _) => apply calls_only_same; apply preserves_ret
  | |- calls_only _ (raise _) => apply calls_only_same; apply preserves_raise
  | |- calls_only _ (lift _) => apply calls_only_same; apply preserves_lift
  | |- calls_only _ (log _ _) => apply calls_only_same; apply preserves_log; reflexivity
  | |- calls_only _ (mkdir_parents _) =>
      apply calls_only_same; apply preserves_mkdir_parents; reflexivity
  end.

Ltac calls_tac := repeat calls_step.

(** ** The script functions only talk to the language models *)

Section ScriptFacts.

Variable env : Env.

Local Abbreviation llm_only := (calls_only (fun c => is_llm_call c = true)).

Lemma get_llm_response_calls prompt pdf_path model_name response_schema :
  llm_only (get_llm_response env prompt pdf_path model_name response_schema).
Proof. unfold get_llm_response. calls_tac. Qed.

Lemma get_llm_response_frame {X} (f : World -> X) prompt pdf_path model_name response_schema :
  (forall l msg w, f (add_log l msg w) = f w) ->
  (forall c w, f (add_call c w) = f w) ->
  preserves f (get_llm_response env prompt pdf_path model_name response_schema).
Proof.
  intros Hl Hc. unfold get_llm_response.
  repeat first
    [ match goal with
      | |- preserves _ (external _ _) => apply preserves_external; exact Hc
      end
    | frame_step ].
Qed.

Lemma get_openai_structured_response_calls prompt response_schema :
  llm_only (get_openai_structured_response env prompt response_schema).
Proof. unfold get_openai_structured_response. calls_tac. Qed.

Lemma get_openai_structured_response_frame {X} (f : World -> X) prompt response_schema :
  (forall c w, f (add_call c w) = f w) ->
  preserves f (get_openai_structured_response env prompt response_schema).
Proof.
  intros Hc. unfold get_openai_structured_response.
  repeat first
    [ match goal with
      | |- preserves _ (external _ _) => apply preserves_external; exact Hc
      end
    | frame_step ].
Qed.

Ltac script_calls :=
  match goal with
  | |- calls_only _ (get_llm_response _ _ _ _ _) => apply get_llm_response_calls
  | |- calls_only _ (get_openai_structured_response _ _ _) =>
      apply get_openai_structured_response_calls
  end.

Lemma get_structured_metadata_calls pdf_path :
  llm_only (get_structured_metadata env pdf_path).
Proof.
  unfold get_structured_metadata.
  repeat first [ script_calls | calls_step ].
Qed.

Lemma get_high_school_summary_calls pdf_path n :
  llm_only (get_high_school_summary env pdf_path n).
Proof.
  unfold get_high_school_summary.
  repeat first [ script_calls | calls_step ].
Qed.

Lemma get_final_takeaways_calls script :
  llm_only (get_final_takeaways env script).
Proof.
  unfold get_final_takeaways.
  repeat first [ script_calls | calls_step ].
Qed.

Lemma get_all_section_bullets_at_once_calls pdf_path :
  llm_only (get_all_section_bullets_at_once env pdf_path).
Proof.
  unfold get_all_section_bullets_at_once.
  repeat first [ script_calls | calls_step ].
Qed.

Lemma get_background_overview_calls pdf_path :
  llm_only (get_background_overview env pdf_path).
Proof.
  unfold get_background_overview.
  repeat first [ script_calls | calls_step ].
Qed.

Lemma generate_section_details_calls pdf_path section all_bullets :
  llm_only (generate_section_details env pdf_path section all_bullets).
Proof.
  unfold generate_section_details.
  repeat first [ script_calls | calls_step ].
Qed.

(** The script functions leave the file system and the feed alone. *)
Section ScriptFrame.

Context {X : Type} (f : World -> X).
Hypothesis f_log : forall l msg w, f (add_log l msg w) = f w.
Hypothesis f_calls : forall c w, f (add_call c w) = f w.

Ltac script_frame :=
  repeat first
    [ match goal with
      | |- preserves _ (get_llm_response _ _ _ _ _) =>
          apply get_llm_response_frame; assumption
      | |- preserves _ (get_openai_structured_response _ _ _) =>
          apply get_openai_structured_response_frame; assumption
      | |- preserves _ (log _ _) => apply preserves_log; assumption
      end
    | frame_step ].

Lemma get_structured_metadata_frame pdf_path :
  preserves f (get_structured_metadata env pdf_path).
Proof. unfold get_structured_metadata. script_frame. Qed.

Lemma get_high_school_summary_frame pdf_path n :
  preserves f (get_high_school_summary env pdf_path n).
Proof. unfold get_high_school_summary. script_frame. Qed.

Lemma get_final_takeaways_frame script :
  preserves f (get_final_takeaways env script).
Proof. unfold get_final_takeaways. script_frame. Qed.

Lemma get_all_section_bullets_at_once_frame pdf_path :
  preserves f (get_all_section_bullets_at_once env pdf_path).
Proof. unfold get_all_section_bullets_at_once. script_frame. Qed.

Lemma get_background_overview_frame pdf_path :
  preserves f (get_background_overview env pdf_path).
Proof. unfold get_background_overview. script_frame. Qed.

Lemma generate_section_details_frame pdf_path section all_bullets :
  preserves f (generate_section_details env pdf_path section all_bullets).
Proof. unfold generate_section_details. script_frame. Qed.

End ScriptFrame.

End ScriptFacts.

(** Calls to the language models do not show in [device_calls]. *)
Lemma device_calls_llm w w' l :
  calls w' = calls w ++ l -> Forall (fun c => is_llm_call c = true) l ->
  device_calls w' = device_calls w.
Proof.
  unfold device_calls. intros -> Hl. rewrite List.filter_app.
  replace (List.filter (fun c => negb (is_llm_call c)) l) with (@nil call).
  - apply app_nil_r.
  - induction Hl as [|c l Hc Hl IH]; [reflexivity|]. simpl. rewrite Hc. exact IH.
Qed.

Lemma llm_only_device {A} (m : M A) w r w' :
  calls_only (fun c => is_llm_call c = true) m -> m w = (r, w') ->
  device_calls w' = device_calls w.
Proof.
  intros Hm H. destruct (Hm _ _ _ H) as (l & Hl & Fl). exact (device_calls_llm _ _ _ Hl Fl).
Qed.

Lemma device_calls_add_log l msg w : device_calls (add_log l msg w) = device_calls w.
Proof. reflexivity. Qed.

(** ** Cleaning the temporary directory *)

Lemma strip_prefix_longer (s t : list ascii) x : Path.strip_prefix (s ++ x :: t) s = None.
Proof.
  induction s as [|c s IH]; [reflexivity|]. simpl.
  rewrite Ascii.eqb_refl. exact IH.
Qed.

Lemma is_child_irrefl d : Path.is_child d d = false.
Proof. unfold Path.is_child. rewrite strip_prefix_longer. reflexivity. Qed.

Lemma is_under_irrefl d : Path.is_under d d = false.
Proof. unfold Path.is_under. rewrite strip_prefix_longer. reflexivity. Qed.

Lemma is_child_under d k : Path.is_child d k = true -> Path.is_under d k = true.
Proof.
  unfold Path.is_child, Path.is_under.
  destruct (Path.strip_prefix _ _); [reflexivity | discriminate].
Qed.

Lemma glob_star_spec d w :
  exists l, glob_star d w = (Ok l, w)
            /\ forall k, k ∈ l <-> is_Some (fs w !! k) /\ Path.is_child d k = true.
Proof.
  eexists. split; [reflexivity|]. intros k. rewrite list_elem_of_fmap. split.
  - intros ([k' n] & -> & Hin). apply elem_of_map_to_list in Hin.
    apply map_lookup_filter_Some in Hin as [Hk Hc]. split; [eauto | exact Hc].
  - intros [[n Hn] Hc]. exists (k, n). split; [reflexivity|].
    apply elem_of_map_to_list. apply map_lookup_filter_Some. split; assumption.
Qed.

Section Cleanup.

Lemma unlink_quietly_cases file w :
  match fs w !! file with
  | None => unlink_quietly file w = (Ok tt, w)
  | Some (File false _) => unlink_quietly file w = (Ok tt, set_fs (delete file) w)
  | Some (File true _) =>
      unlink_quietly file w
      = (Raise (Exn PermissionError ("Operation not permitted: '" +:+ file +:+ "'")), w)
  | Some Dir =>
      unlink_quietly file w
      = (Raise (Exn IsADirectoryError ("Is a directory: '" +:+ file +:+ "'")), w)
  end.
Proof.
  unfold unlink_quietly, try_except, unlink.
  destruct (fs w !! file) as [[[] ?|]|]; reflexivity.
Qed.

(** The loop removes nothing but the files it is given. *)
Lemma unlink_loop_frame l : forall w r w',
  for_each l unlink_quietly w = (r, w') ->
  calls w' = calls w /\ logs w' = logs w /\ feed w' = feed w
  /\ forall k, k ∉ l -> fs w' !! k = fs w !! k.
Proof.
  induction l as [|x l IH]; intros w r w' H; simpl in H.
  - inversion H; subst. auto.
  - pose proof (unlink_quietly_cases x w) as Hx. unfold bind in H.
    destruct (fs w !! x) as [[[] ?|]|] eqn:Ex; rewrite Hx in H.
    + inversion H; subst. auto.
    + destruct (IH _ _ _ H) as (Hc & Hl & Hf & Hfs). repeat split; try assumption.
      intros k Hk. rewrite Hfs by set_solver. cbn. apply lookup_delete_ne. set_solver.
    + inversion H; subst. auto.
    + destruct (IH _ _ _ H) as (Hc & Hl & Hf & Hfs). repeat split; try assumption.
      intros k Hk. apply Hfs. set_solver.
Qed.

(** A file that is already gone is passed over: when every path of the
    list is either absent or a removable file, the loop completes and none
    of the paths is left. *)
Lemma unlink_loop_passes l : forall w,
  (forall k, k ∈ l -> fs w !! k = None \/ exists c, fs w !! k = Some (File false c)) ->
  exists w', for_each l unlink_quietly w = (Ok tt, w')
             /\ forall k, k ∈ l -> fs w' !! k = None.
Proof.
  induction l as [|x l IH]; intros w Hl; simpl.
  - eexists. split; [reflexivity|]. intros k Hk. inversion Hk.
  - pose proof (unlink_quietly_cases x w) as Hx. unfold bind.
    destruct (Hl x) as [Ex|[c Ex]]; [set_solver| |]; rewrite Ex in Hx; rewrite Hx.
    + destruct (IH w) as (w' & Hw' & Hgone); [intros k Hk; apply Hl; set_solver|].
      exists w'. split; [exact Hw'|]. intros k Hk.
      destruct (decide (k ∈ l)) as [Hin|Hnin]; [auto|].
      assert (k = x) as -> by set_solver.
      destruct (unlink_loop_frame _ _ _ _ Hw') as (_ & _ & _ & Hfs).
      rewrite Hfs by assumption. exact Ex.
    + destruct (IH (set_fs (delete x) w)) as (w' & Hw' & Hgone).
      { intros k Hk. cbn. destruct (decide (x = k)) as [->|Hne].
        - left. apply lookup_delete_eq.
        - rewrite lookup_delete_ne by assumption. apply Hl. set_solver. }
      exists w'. split; [exact Hw'|]. intros k Hk.
      destruct (decide (k ∈ l)) as [Hin|Hnin]; [auto|].
      assert (k = x) as -> by set_solver.
      destruct (unlink_loop_frame _ _ _ _ Hw') as (_ & _ & _ & Hfs).
      rewrite Hfs by assumption. cbn. apply lookup_delete_eq.
Qed.

(** [rmdir] can only fail with an [OSError]. *)
Lemma rmdir_cases p w :
  (rmdir p w = (Ok tt, set_fs (delete p) w)
   /\ fs w !! p = Some Dir /\ has_entries w p = false)
  \/ (exists e, rmdir p w = (Raise e, w) /\ is_OSError e = true
                /\ (fs w !! p <> Some Dir \/ has_entries w p = true)).
Proof.
  unfold rmdir. destruct (fs w !! p) as [[|]|] eqn:E.
  - right. eexists. split; [reflexivity|]. split; [reflexivity|]. left. discriminate.
  - destruct (has_entries w p) eqn:Eh.
    + right. eexists. split; [reflexivity|]. split; [reflexivity|]. right. reflexivity.
    + left. auto.
  - right. eexists. split; [reflexivity|]. split; [reflexivity|]. left. discriminate.
Qed.

(** Whatever its outcome, cleanup makes no call, leaves the feed alone and
    touches nothing outside the directory. *)
Lemma cleanup_frame d w r w' :
  cleanup_temp_files d w = (r, w') ->
  calls w' = calls w /\ feed w' = feed w
  /\ forall k, Path.is_child d k = false -> k <> d -> fs w' !! k = fs w !! k.
Proof.
  unfold cleanup_temp_files. unfold bind at 1, path_exists.
  destruct (present w d); [|intros H; inversion H; subst; auto].
  destruct (glob_star_spec d w) as (l & Hl & Hin).
  unfold bind at 1. rewrite Hl. unfold bind at 1.
  destruct (for_each l unlink_quietly w) as [[[]|e] w1] eqn:Eloop.
  - destruct (unlink_loop_frame _ _ _ _ Eloop) as (Hc & Hlg & Hf & Hfs).
    unfold try_except.
    destruct (rmdir_cases d w1) as [(Hr & _)|(e & Hr & He & _)]; rewrite Hr.
    + intros H; inversion H; subst. cbn. repeat split; try assumption.
      intros k Hk Hne. rewrite lookup_delete_ne by congruence.
      apply Hfs. rewrite Hin. intros [_ Hc']. congruence.
    + rewrite He. intros H; inversion H; subst. cbn. repeat split; try assumption.
      intros k Hk Hne. apply Hfs. rewrite Hin. intros [_ Hc']. congruence.
  - destruct (unlink_loop_frame _ _ _ _ Eloop) as (Hc & Hlg & Hf & Hfs).
    intros H; inversion H; subst. repeat split; try assumption.
    intros k Hk Hne. apply Hfs. rewrite Hin. intros [_ Hc']. congruence.
Qed.

Lemma cleanup_preserves_calls d : preserves calls (cleanup_temp_files d).
Proof. intros w r w' H. apply (cleanup_frame _ _ _ _ H). Qed.

Lemma cleanup_preserves_feed d : preserves feed (cleanup_temp_files d).
Proof. intros w r w' H. apply (cleanup_frame _ _ _ _ H). Qed.

(** When every entry of the directory is a removable file, cleanup returns
    normally, leaves no entry behind and removes the directory; when the
    directory itself cannot be removed, a warning is logged and cleanup
    still returns normally. *)
Lemma cleanup_removes d w :
  entries_removable w d ->
  exists w',
    cleanup_temp_files d w = (Ok tt, w')
    /\ (present w d = true -> forall k, Path.is_child d k = true -> fs w' !! k = None)
    /\ (fs w !! d = Some Dir -> flat_dir w d -> fs w' !! d = None /\ logs w' = logs w)
    /\ (present w d = true -> fs w !! d <> Some Dir -> exists msg,
          fs w' !! d = fs w !! d
          /\ logs w' = logs w ++ [(WARNING, "Could not remove temp directory: " +:+ msg)]).
Proof.
  intros Hrem. unfold cleanup_temp_files. unfold bind at 1, path_exists.
  destruct (present w d) eqn:Hp.
  2:{ eexists. split; [reflexivity|]. split; [discriminate|].
      split; [|discriminate]. intros Hd. unfold present in Hp.
      rewrite Hd in Hp. rewrite orb_false_iff in Hp. destruct Hp as [_ Hp].
      rewrite bool_decide_eq_false in Hp. exfalso. apply Hp. eauto. }
  destruct (glob_star_spec d w) as (l & Hl & Hin).
  unfold bind at 1. rewrite Hl. unfold bind at 1.
  destruct (unlink_loop_passes l w) as (w1 & Eloop & Hgone).
  { intros k Hk. apply Hin in Hk as [[n Hn] Hc]. right.
    destruct (Hrem _ _ Hn Hc) as [c ->]. eauto. }
  rewrite Eloop.
  destruct (unlink_loop_frame _ _ _ _ Eloop) as (Hc & Hlg & Hf & Hfs).
  assert (Hchild : forall k, Path.is_child d k = true -> fs w1 !! k = None).
  { intros k Hk. destruct (fs w !! k) as [n|] eqn:En.
    - apply Hgone. apply Hin. eauto.
    - rewrite Hfs; [exact En|]. rewrite Hin. intros [[n Hn] _]. congruence. }
  assert (Hd : fs w1 !! d = fs w !! d).
  { apply Hfs. rewrite Hin. intros [_ Hc']. rewrite is_child_irrefl in Hc'. discriminate. }
  unfold try_except.
  destruct (rmdir_cases d w1) as [(Hr & Hdir & Hent)|(e & Hr & He & Hwhy)]; rewrite Hr.
  - eexists. split; [reflexivity|]. cbn. split; [|split].
    + intros _ k Hk. destruct (decide (d = k)) as [->|Hne];
        [apply lookup_delete_eq | rewrite lookup_delete_ne by assumption; auto].
    + intros _ _. split; [apply lookup_delete_eq | exact Hlg].
    + intros _ Hnd. rewrite Hd in Hdir. contradiction.
  - rewrite He. unfold log. eexists. split; [reflexivity|]. cbn. split; [|split].
    + intros _. exact Hchild.
    + intros Hdir Hflat. exfalso. destruct Hwhy as [Hwhy|Hwhy].
      * rewrite Hd in Hwhy. contradiction.
      * unfold has_entries in Hwhy. rewrite bool_decide_eq_true in Hwhy.
        apply Hwhy. apply map_eq. intros k. rewrite lookup_empty.
        apply map_lookup_filter_None. right. intros n Hn Hu. cbn in Hu.
        assert (Hk : fs w !! k = Some n \/ fs w !! k = None).
        { destruct (decide (k ∈ l)) as [Hkl|Hkl].
          - rewrite (Hgone _ Hkl) in Hn. discriminate.
          - rewrite (Hfs _ Hkl) in Hn. auto. }
        destruct Hk as [Hk|Hk]; [|rewrite Hfs in Hn; [congruence|]].
        -- assert (Hc' : Path.is_child d k = true) by (apply Hflat; eauto).
           rewrite (Hchild _ Hc') in Hn. discriminate.
        -- rewrite Hin. intros [[n' Hn'] _]. congruence.
    + intros _ _. exists (str_exn e). split; [exact Hd | rewrite Hlg; reflexivity].
Qed.

End Cleanup.

(** ** Cleanup on every exit path *)

(** C5, as amended. [process_paper] runs [cleanup_temp_files] on the temporary
    directory after [make_podcast], whether that returned or raised (a raise
    is logged first and raised again after cleanup). When every entry of the
    directory is a file that can be removed, cleanup returns normally, leaves
    no entry behind and removes the directory; a path that is already gone is
    passed over; when the directory itself cannot be removed, a warning is
    logged and cleanup still returns normally. *)
Theorem process_paper_cleanup env pdf_path output_path metadata_dict w :
  process_paper env pdf_path output_path metadata_dict w
  = (let '(r, w1) := make_podcast env pdf_path output_path metadata_dict 5 w in
     let w2 := match r with
               | Ok _ => w1
               | Raise e =>
                   add_log ERROR ("Error processing " +:+ pdf_path +:+ ": " +:+ str_exn e) w1
               end in
     let '(rc, w3) := cleanup_temp_files "temp_audio" w2 in
     (match rc with Ok _ => r | Raise e' => Raise e' end, w3))
  /\ (forall d w2,
        entries_removable w2 d ->
        exists w3,
          cleanup_temp_files d w2 = (Ok tt, w3)
          /\ (present w2 d = true -> forall k, Path.is_child d k = true -> fs w3 !! k = None)
          /\ (fs w2 !! d = Some Dir -> flat_dir w2 d -> fs w3 !! d = None /\ logs w3 = logs w2)
          /\ (present w2 d = true -> fs w2 !! d <> Some Dir -> exists msg,
                fs w3 !! d = fs w2 !! d
                /\ logs w3 = logs w2 ++ [(WARNING, "Could not remove temp directory: " +:+ msg)]))
  /\ (forall files w2,
        (forall k, k ∈ files ->
                   fs w2 !! k = None \/ exists c, fs w2 !! k = Some (File false c)) ->
        exists w3, for_each files unlink_quietly w2 = (Ok tt, w3)
                   /\ forall k, k ∈ files -> fs w3 !! k = None).
Proof.
  split; [|split].
  - unfold process_paper, try_finally, try_except.
    destruct (make_podcast env pdf_path output_path metadata_dict 5 w) as [[[]|e] w1].
    + destruct (cleanup_temp_files "temp_audio" w1) as [[[]|e'] w3]; reflexivity.
    + unfold bind, log, raise.
      destruct (cleanup_temp_files "temp_audio" _) as [[[]|e'] w3]; reflexivity.
  - intros d w2. apply cleanup_removes.
  - intros files w2. apply unlink_loop_passes.
Qed.

Lemma leftover_entries_removable : entries_removable leftover_world "temp_audio".
Proof.
  intros k n Hn Hc. unfold leftover_world, world_of in Hn. cbn [fs] in Hn.
  apply lookup_insert_Some in Hn as [[<- <-]|[_ Hn]]; [discriminate Hc|].
  apply lookup_insert_Some in Hn as [[<- <-]|[_ Hn]]; [eauto|].
  apply lookup_insert_Some in Hn as [[<- <-]|[_ Hn]]; [eauto|].
  rewrite lookup_empty in Hn. discriminate.
Defined.

Lemma process_paper_cleanup_witness :
  exists w3,
    cleanup_temp_files "temp_audio" leftover_world = (Ok tt, w3)
    /\ (present leftover_world "temp_audio" = true ->
        forall k, Path.is_child "temp_audio" k = true -> fs w3 !! k = None)
    /\ (fs leftover_world !! "temp_audio" = Some Dir ->
        flat_dir leftover_world "temp_audio" ->
        fs w3 !! "temp_audio" = None /\ logs w3 = logs leftover_world)
    /\ (present leftover_world "temp_audio" = true ->
        fs leftover_world !! "temp_audio" <> Some Dir -> exists msg,
          fs w3 !! "temp_audio" = fs leftover_world !! "temp_audio"
          /\ logs w3 = logs leftover_world
                       ++ [(WARNING, "Could not remove temp directory: " +:+ msg)]).
Proof.
  exact (proj1 (proj2 (process_paper_cleanup demo_env "paper.pdf" "output/podcast.wav"
                         demo_dict empty_world))
           "temp_audio" leftover_world leftover_entries_removable).
Defined.

(** C5, counterexample. The episode already exists, so [make_podcast] returns
    at once; the temporary directory holds a file that cannot be removed,
    visited first. Cleanup stops at it: [process_paper] raises the
    [PermissionError], and the other file and the directory are still there. *)
Lemma process_paper_cleanup_counterexample :
  let run := process_paper demo_env "paper.pdf" "output/podcast.wav" demo_dict locked_world in
  (glob_star "temp_audio" locked_world).1
  = Ok ["temp_audio/metadata.wav"; "temp_audio/Data.wav"]
  /\ make_podcast demo_env "paper.pdf" "output/podcast.wav" demo_dict 5 locked_world
     = (Ok tt, add_log INFO "Podcast already exists at output/podcast.wav, skipping generation"
                 locked_world)
  /\ run.1 = Raise (Exn PermissionError "Operation not permitted: 'temp_audio/metadata.wav'")
  /\ fs run.2 !! "temp_audio/Data.wav" = Some (File false silence)
  /\ fs run.2 !! "temp_audio" = Some Dir.
Proof. vm_compute. repeat split; reflexivity. Qed.

(** When the speech engine fails, the temporary directory and what earlier
    runs left in it are gone by the time [process_paper] raises. *)
Example cleanup_after_synthesis_failure :
  let run := process_paper mute_env "paper.pdf" "output/podcast.wav" demo_dict leftover_world in
  run.1 = Raise (Exn ExternalError "engine error") /\ fs run.2 = ∅.
Proof. vm_compute. split; reflexivity. Qed.

(** ** Rendering and assembling segments *)

Lemma device_calls_app w w' l :
  calls w' = calls w ++ l -> forallb (fun c => negb (is_llm_call c)) l = true ->
  device_calls w' = device_calls w ++ l.
Proof.
  unfold device_calls. intros -> Hl. rewrite List.filter_app. f_equal.
  induction l as [|c l IH]; [reflexivity|]. simpl in Hl |- *.
  apply andb_true_iff in Hl as [Hc Hl]. rewrite Hc, IH by assumption. reflexivity.
Qed.

Lemma device_calls_same w w' : calls w' = calls w -> device_calls w' = device_calls w.
Proof. unfold device_calls. intros ->. reflexivity. Qed.

Lemma sf_write_Ok p data sr w w' :
  sf_write p data sr w = (Ok tt, w') ->
  w' = set_fs (insert p (File false (Audio sr data))) (add_call (SfWrite p sr) w).
Proof.
  unfold sf_write. destruct (negb (is_dir w (Path.parent p))); [discriminate|].
  destruct (fs w !! p) as [[[] ?|]|]; intros H; inversion H; reflexivity.
Qed.

Lemma sf_read_Ok p w data sr w' :
  sf_read p w = (Ok (data, sr), w') ->
  w' = add_call (SfRead p) w /\ exists i, fs w !! p = Some (File i (Audio sr data)).
Proof.
  unfold sf_read. destruct (fs w !! p) as [[i []|]|]; intros H; inversion H; subst; eauto.
Qed.

Section Render.

Variable env : Env.

Lemma generate_audio_Ok text voice path w w' :
  generate_audio env text voice path w = (Ok tt, w') ->
  calls w' = calls w ++ [KPipeline (clean_text text) voice; SfWrite path 24000]
  /\ feed w' = feed w.
Proof.
  unfold generate_audio. destruct (negb _); [discriminate|]. intros H.
  bind_ok H as segments w1 E. bind_ok H as audio w2 E0. apply sf_write_Ok in H. subst w'.
  apply lift_Ok in E0 as [_ ->].
  unfold external in E. inversion E; subst. cbn. rewrite <- app_assoc. auto.
Qed.

Lemma generate_audio_frame {X} (f : World -> X) text voice path :
  (forall c w, f (add_call c w) = f w) ->
  (forall g w, f (set_fs g w) = f w) ->
  preserves f (generate_audio env text voice path).
Proof.
  intros Hc Hf. unfold generate_audio.
  repeat first
    [ match goal with
      | |- preserves _ (external _ _) => apply preserves_external; exact Hc
      | |- preserves _ (sf_write _ _ _) => apply preserves_sf_write; assumption
      end
    | frame_step ].
Qed.

Lemma generate_audio_monotone text voice path :
  calls_only (fun _ => true = true) (generate_audio env text voice path).
Proof.
  intros w r w' H. unfold generate_audio in H. destruct (negb _).
  - inversion H; subst. exists []. rewrite app_nil_r. auto.
  - destruct (bind_cases _ _ _ _ _ H) as [(a & w1 & E1 & E2)|(e & E1 & _)];
      unfold external in E1; inversion E1; subst; [|eexists [_]; split; [reflexivity|auto]].
    destruct (bind_cases _ _ _ _ _ E2) as [(a' & w2 & E3 & E4)|(e & E3 & _)];
      unfold lift in E3; inversion E3; subst; [|eexists [_]; split; [reflexivity|auto]].
    unfold sf_write in E4. cbn in E4.
    destruct (negb _); [inversion E4; subst; eexists [_;_]; cbn; rewrite <- app_assoc; auto|].
    destruct (fs w !! path) as [[[] ?|]|]; inversion E4; subst;
      eexists [_;_]; cbn; rewrite <- app_assoc; auto.
Qed.

Lemma voice_at_shift voices a b :
  voice_at voices (a mod Z.of_nat (length voices) + b) = voice_at voices (a + b).
Proof. unfold voice_at. rewrite Zplus_mod_idemp_l. reflexivity. Qed.

Lemma get_next_voice_Ok voices idx v idx' :
  get_next_voice voices idx = Ok (v, idx') ->
  voice_at voices (idx + 1) = Some v
  /\ idx' = (idx + 1) mod Z.of_nat (length voices).
Proof.
  unfold get_next_voice, py_mod, py_getitem. intros Hnext.
  destruct (Z.eqb_spec (Z.of_nat (length voices)) 0) as [|Hne]; [discriminate|].
  cbn [rbind] in Hnext.
  pose proof (Z.mod_pos_bound (idx + 1) (Z.of_nat (length voices))) as B.
  destruct (Z.ltb_spec ((idx + 1) mod Z.of_nat (length voices)) 0) as [?|_]; [lia|].
  destruct (Z.ltb_spec ((idx + 1) mod Z.of_nat (length voices)) 0) as [?|_]; [lia|].
  unfold voice_at.
  destruct (voices !! _) as [v'|]; [|discriminate]. inversion Hnext; subst. auto.
Qed.

(** The section loop renders one segment per planned section, in plan
    order, each with the voice that follows the one before. *)
Lemma section_loop_Ok pdf_path temp_dir voices todo : forall st w st' w',
  section_loop env pdf_path temp_dir voices todo st w = (Ok st', w') ->
  exists segs,
    map seg_file segs = map (section_file temp_dir) todo
    /\ (forall k v, map seg_voice segs !! k = Some v ->
                    voice_at voices (current_voice_idx st + 1 + Z.of_nat k) = Some v)
    /\ device_calls w' = device_calls w ++ synth_calls segs
    /\ audio_files st' = audio_files st ++ map seg_file segs
    /\ (forall j, voice_at voices (current_voice_idx st' + j)
                  = voice_at voices (current_voice_idx st + Z.of_nat (length todo) + j))
    /\ feed w' = feed w
    /\ calls w `prefix_of` calls w'.
Proof.
  induction todo as [|section rest IH]; intros st w st' w' H; simpl in H.
  - apply ret_Ok in H as [-> ->]. exists []. cbn.
    rewrite !app_nil_r.
    repeat split; try reflexivity.
    + intros k v Hk. rewrite lookup_nil in Hk. discriminate.
    + intros j. rewrite Z.add_0_r. reflexivity.
  - bind_ok H as [] w1 E. apply log_Ok in E. subst w1.
    bind_ok H as [voice idx] w1 E. apply lift_Ok in E as [Hnext ->].
    bind_ok H as content w0 Edetails.
    bind_ok H as [] w1 Eaudio.
    bind_ok H as [] w2 E. apply log_Ok in E. subst w2.
    apply IH in H as (segs & Hfiles & Hvoices & Hdev & Haf & Hidx & Hfeed & Hpre).
    cbn [current_voice_idx audio_files append_script append_file set_voice_idx
         fst snd] in *.
    apply get_next_voice_Ok in Hnext as [Hv ->].
    destruct (generate_audio_Ok _ _ _ _ _ Eaudio) as (Hcalls & Hfeed').
    destruct (generate_section_details_calls env _ _ _ _ _ _ Edetails) as (l1 & Hl1 & _).
    exists ({| seg_file := Path.join temp_dir (name section +:+ ".wav");
               seg_voice := voice; seg_text := clean_text content |} :: segs).
    cbn [map seg_file seg_voice seg_text synth_calls flat_map].
    split; [unfold section_file at 1; f_equal; exact Hfiles|].
    split.
    { intros [|k] v Hk; cbn in Hk.
      - inversion Hk; subst. rewrite Z.add_0_r. exact Hv.
      - apply Hvoices in Hk. rewrite <- Hk.
        replace ((current_voice_idx st + 1) mod Z.of_nat (length voices) + 1 + Z.of_nat k)
          with ((current_voice_idx st + 1) mod Z.of_nat (length voices) + (1 + Z.of_nat k))
          by lia.
        rewrite voice_at_shift. f_equal. lia. }
    split.
    { rewrite Hdev, device_calls_add_log.
      rewrite (device_calls_app _ _ _ Hcalls eq_refl).
      rewrite (llm_only_device _ _ _ _ (generate_section_details_calls env _ _ _) Edetails).
      rewrite device_calls_add_log.
      cbn [app]. rewrite <- app_assoc. reflexivity. }
    split; [rewrite Haf, <- app_assoc; reflexivity|].
    split.
    { intros j. rewrite Hidx.
      replace ((current_voice_idx st + 1) mod Z.of_nat (length voices)
               + Z.of_nat (length rest) + j)
        with ((current_voice_idx st + 1) mod Z.of_nat (length voices)
              + (Z.of_nat (length rest) + j)) by lia.
      rewrite voice_at_shift. f_equal. cbn [length]. lia. }
    split.
    { rewrite Hfeed. cbn [feed add_log]. rewrite Hfeed'.
      rewrite (generate_section_details_frame env feed
                 (fun _ _ _ => eq_refl) (fun _ _ => eq_refl) _ _ _ _ _ _ Edetails).
      reflexivity. }
    etrans; [|exact Hpre]. cbn [calls add_log]. rewrite Hcalls, Hl1.
    cbn [calls add_log]. rewrite <- app_assoc. by eexists.
Qed.

(** *** The assembler *)

Lemma mkdir_exist_ok_keeps p w r w' k n :
  mkdir_exist_ok p w = (r, w') -> fs w !! k = Some n -> fs w' !! k = Some n.
Proof.
  unfold mkdir_exist_ok. destruct (Path.is_base p); [intros [= <- <-]; auto|].
  destruct (fs w !! p) as [[]|] eqn:Ep; try (intros [= <- <-]; auto).
  destruct (is_dir w (Path.parent p)); intros [= <- <-]; [|auto].
  intros Hk. cbn. rewrite lookup_insert_ne; [exact Hk | congruence].
Qed.

Lemma mkdir_parents_keeps p w r w' k n :
  mkdir_parents p w = (r, w') -> fs w !! k = Some n -> fs w' !! k = Some n.
Proof.
  unfold mkdir_parents. generalize (Path.ancestors p). intros l. revert w.
  induction l as [|x l IH]; intros w H Hk; simpl in H.
  - inversion H; subst. exact Hk.
  - destruct (bind_cases _ _ _ _ _ H) as [(a & w1 & E1 & E2)|(e & E1 & _)].
    + eapply IH; [exact E2|]. eapply mkdir_exist_ok_keeps; eassumption.
    + eapply mkdir_exist_ok_keeps; eassumption.
Qed.

Lemma combine_loop_Ok file_list target_sr : forall combined w res w',
  combine_loop env file_list target_sr combined w = (Ok res, w') ->
  calls w' = calls w ++ map SfRead file_list /\ fs w' = fs w /\ feed w' = feed w.
Proof.
  induction file_list as [|file rest IH]; intros combined w res w' H; simpl in H.
  - apply ret_Ok in H as [_ ->]. rewrite app_nil_r. auto.
  - bind_ok H as [data sr] w1 E. apply sf_read_Ok in E as [-> _].
    bind_ok H as data' w0 E. apply IH in H as (Hc & Hf & Hfeed).
    assert (Hw : calls w0 = calls (add_call (SfRead file) w) /\ fs w0 = fs w /\ feed w0 = feed w).
    { cbn [fst snd] in E. destruct (negb (sr =? target_sr)).
      - bind_ok E as [] w2 E0. apply log_Ok in E0. subst w2.
        destruct (sr =? 0); [discriminate|]. apply lift_Ok in E as [_ ->]. auto.
      - apply ret_Ok in E as [_ ->]. auto. }
    destruct Hw as (Hc0 & Hf0 & Hfeed0).
    rewrite Hc, Hf, Hfeed, Hc0, Hf0, Hfeed0. cbn. rewrite <- app_assoc. auto.
Qed.

(** A completed assembly read the files in list order and wrote the output
    file last. *)
Lemma combine_audio_files_Ok file_list output_file target_sr w w' :
  combine_audio_files env file_list output_file target_sr w = (Ok tt, w') ->
  calls w' = calls w ++ map SfRead file_list ++ [SfWrite output_file target_sr]
  /\ feed w' = feed w
  /\ exists data, fs w' !! output_file = Some (File false (Audio target_sr data)).
Proof.
  unfold combine_audio_files. intros H.
  bind_ok H as [] w0 E. bind_ok H as combined w1 E0. bind_ok H as final_audio w2 E1.
  apply sf_write_Ok in H. subst w'.
  apply lift_Ok in E1 as [_ ->].
  apply combine_loop_Ok in E0 as (Hc & Hf & Hfeed).
  assert (Hm : calls w0 = calls w /\ feed w0 = feed w).
  { split.
    - eapply (preserves_mkdir_parents calls); [reflexivity | exact E].
    - eapply (preserves_mkdir_parents feed); [reflexivity | exact E]. }
  destruct Hm as [Hm1 Hm2]. cbn. rewrite Hc, Hm1, Hfeed, Hm2, <- app_assoc.
  split; [reflexivity|]. split; [reflexivity|].
  eexists. apply lookup_insert_eq.
Qed.

Lemma combine_loop_monotone file_list target_sr : forall combined,
  calls_only (fun _ => true = true) (combine_loop env file_list target_sr combined).
Proof.
  induction file_list as [|file rest IH]; intros combined; simpl.
  - calls_tac.
  - apply calls_only_bind.
    + intros w r w' H. unfold sf_read in H. exists [SfRead file].
      destruct (fs w !! file) as [[? []|]|]; inversion H; subst; auto.
    + intros [data sr]. apply calls_only_bind; [|intros ?; apply IH].
      cbn [fst snd]. calls_tac.
Qed.

Lemma sf_write_monotone p data sr : calls_only (fun _ => true = true) (sf_write p data sr).
Proof.
  intros w r w' H. unfold sf_write in H. exists [SfWrite p sr].
  destruct (negb _); [inversion H; subst; auto|].
  destruct (fs w !! p) as [[[] ?|]|]; inversion H; subst; auto.
Qed.

Lemma combine_audio_files_monotone file_list output_file target_sr :
  calls_only (fun _ => true = true) (combine_audio_files env file_list output_file target_sr).
Proof.
  unfold combine_audio_files.
  repeat first
    [ match goal with
      | |- calls_only _ (combine_loop _ _ _ _) => apply combine_loop_monotone
      | |- calls_only _ (sf_write _ _ _) => apply sf_write_monotone
      end
    | calls_step ].
Qed.

End Render.

(** ** What a completed run renders *)

Lemma list_ascii_of_string_app (a b : string) :
  list_ascii_of_string (a +:+ b) = list_ascii_of_string a ++ list_ascii_of_string b.
Proof.
  induction a as [|c a IH]; [reflexivity|].
  change (String c a +:+ b) with (String c (a +:+ b)). cbn. rewrite IH. reflexivity.
Qed.

Lemma engine_audio_app env before l1 l2 :
  engine_audio env before (l1 ++ l2)
  = engine_audio env before l1 ++ engine_audio env (before ++ l1) l2.
Proof.
  revert before. induction l1 as [|c l1 IH]; intros before; cbn [app engine_audio].
  - rewrite app_nil_r. reflexivity.
  - rewrite IH, <- !app_assoc. reflexivity.
Qed.

Lemma engine_audio_quiet env before l :
  forallb (fun c => negb (is_synthesis c)) l = true -> engine_audio env before l = [].
Proof.
  revert before. induction l as [|c l IH]; intros before Hl; [reflexivity|].
  cbn in Hl. apply andb_true_iff in Hl as [Hc Hl].
  cbn [engine_audio]. destruct (is_synthesis c); [discriminate|]. apply IH, Hl.
Qed.

Lemma engine_audio_llm env before l :
  Forall (fun c => is_llm_call c = true) l -> engine_audio env before l = [].
Proof.
  intros Hl. apply engine_audio_quiet. induction Hl as [|c l Hc _ IH]; [reflexivity|].
  cbn. rewrite IH. destruct c; try discriminate; reflexivity.
Qed.

Lemma written_app segs1 segs2 files :
  written (segs1 ++ segs2) files = written segs2 (written segs1 files).
Proof. unfold written. apply foldl_app. Qed.



Lemma rendered_refl env w w' :
  calls w' = calls w -> fs w' = fs w -> rendered env [] w w'.
Proof. intros Hc Hf. exists []. rewrite app_nil_r. auto. Qed.

Lemma rendered_trans env segs1 segs2 w w1 w2 :
  rendered env segs1 w w1 -> rendered env segs2 w1 w2 -> rendered env (segs1 ++ segs2) w w2.
Proof.
  intros (l1 & Hc1 & Ha1 & Hf1) (l2 & Hc2 & Ha2 & Hf2). exists (l1 ++ l2).
  rewrite Hc2, Hc1, <- app_assoc. split; [reflexivity|].
  rewrite engine_audio_app, Ha1, <- Hc1, Ha2, fmap_app. split; [reflexivity|].
  rewrite Hf2, Hf1, written_app. reflexivity.
Qed.

Lemma rendered_llm env {A} (m : M A) w r w' :
  calls_only (fun c => is_llm_call c = true) m -> preserves fs m ->
  m w = (r, w') -> rendered env [] w w'.
Proof.
  intros Hc Hf H. destruct (Hc _ _ _ H) as (l & Hl & Hllm). exists l.
  split; [exact Hl|]. split; [apply engine_audio_llm, Hllm|]. exact (Hf _ _ _ H).
Qed.

Section Rendering.

Variable env : Env.

Lemma generate_audio_rendered text voice path w w' :
  generate_audio env text voice path w = (Ok tt, w') ->
  exists audio, rendered env [(path, audio)] w w'.
Proof.
  unfold generate_audio. destruct (negb _); [discriminate|]. intros H.
  bind_ok H as segments w1 E. bind_ok H as audio w2 E0. apply sf_write_Ok in H. subst w'.
  apply lift_Ok in E0 as [Hcat ->].
  unfold external in E. inversion E as [[Hk Hw]]. subst w1.
  exists audio, [KPipeline (clean_text text) voice; SfWrite path 24000].
  cbn [calls fs set_fs add_call]. rewrite <- app_assoc. split; [reflexivity|].
  split; [|reflexivity].
  cbn [engine_audio is_synthesis]. cbn [calls add_call] in Hk. rewrite Hk.
  unfold np_concatenate in Hcat. destruct segments; inversion Hcat. reflexivity.
Qed.

Lemma section_loop_rendered pdf_path temp_dir voices todo : forall st w st' w',
  section_loop env pdf_path temp_dir voices todo st w = (Ok st', w') ->
  exists segs,
    segs.*1 = map (section_file temp_dir) todo /\ rendered env segs w w'.
Proof.
  induction todo as [|section rest IH]; intros st w st' w' H; simpl in H.
  - apply ret_Ok in H as [-> ->]. exists []. split; [reflexivity|].
    apply rendered_refl; reflexivity.
  - bind_ok H as [] w1 E. apply log_Ok in E. subst w1.
    bind_ok H as [voice idx] w1 E. apply lift_Ok in E as [Hnext ->].
    bind_ok H as content w0 Edetails.
    bind_ok H as [] w1 Eaudio.
    bind_ok H as [] w2 E. apply log_Ok in E. subst w2.
    apply IH in H as (segs & Hfiles & Hrest).
    destruct (generate_audio_rendered _ _ _ _ _ Eaudio) as (audio & Haudio).
    exists ((Path.join temp_dir (name section +:+ ".wav"), audio) :: segs).
    split; [cbn; rewrite Hfiles; reflexivity|].
    change ((Path.join temp_dir (name section +:+ ".wav"), audio) :: segs)
      with (([] ++ [] ++ [(Path.join temp_dir (name section +:+ ".wav"), audio)] ++ [])
            ++ segs).
    eapply rendered_trans; [|exact Hrest].
    eapply (rendered_trans _ _ _ _
              (add_log INFO ("Processing section: " +:+ name section) w));
      [apply rendered_refl; reflexivity|].
    eapply (rendered_trans _ _ _ _ w0).
    { eapply rendered_llm; [apply generate_section_details_calls| |exact Edetails].
      apply generate_section_details_frame; reflexivity. }
    eapply (rendered_trans _ _ _ _ w1); [exact Haudio|].
    apply rendered_refl; reflexivity.
Qed.

(** *** The assembler reads what was rendered *)



End Rendering.

(** ** The shape of a completed run of [make_podcast] *)

Section Run.

Variable env : Env.

Lemma planner_call pdf_path w plan w' :
  get_all_section_bullets_at_once env pdf_path w = (Ok plan, w') ->
  planner_returned env plan w' /\ feed w' = feed w
  /\ device_calls w' = device_calls w.
Proof.
  intros H. split; [|split].
  - unfold get_all_section_bullets_at_once in H.
    bind_ok H as [] w1 E. bind_ok H as raw w2 E0.
    unfold get_openai_structured_response, try_except in H.
    unfold bind at 1, external at 1 in H. cbn [calls add_call] in H.
    destruct (chat_parse env PaperSectionsSchema _) as [parsed|e] eqn:Hp;
      [|unfold raise in H; discriminate].
    unfold ret in H. cbn in H. inversion H; subst.
    exists (calls w2), raw. split; [reflexivity | exact Hp].
  - exact (get_all_section_bullets_at_once_frame env feed
             (fun _ _ _ => eq_refl) (fun _ _ => eq_refl) _ _ _ _ H).
  - exact (llm_only_device _ _ _ _ (get_all_section_bullets_at_once_calls env _) H).
Qed.

Lemma voice_at_VOICES (k : nat) : voice_at VOICES (Z.of_nat k) = VOICES !! (k mod 4)%nat.
Proof.
  unfold voice_at. f_equal. change (Z.of_nat (length VOICES)) with (Z.of_nat 4).
  rewrite <- Nat2Z.inj_mod. apply Nat2Z.id.
Qed.

(** The run up to the assembly: the segments with their files, voices and
    texts, and the audio that was rendered for each of them, in order. *)
Lemma make_podcast_trace pdf_path output_path metadata_dict summary_sentences w w' :
  make_podcast env pdf_path output_path metadata_dict summary_sentences w = (Ok tt, w') ->
  present w output_path = false ->
  exists plan segs w_a w_b,
    planner_returned env plan w'
    /\ map seg_file segs = segment_files "temp_audio" plan
    /\ map seg_voice segs !! 0%nat = Some "af_bella"
    /\ (forall k v, map seg_voice segs !! S k = Some v -> VOICES !! (k mod 4)%nat = Some v)
    /\ device_calls w_a = device_calls w ++ synth_calls segs
    /\ feed w_a = feed w
    /\ combine_audio_files env (segment_files "temp_audio" plan) output_path 44100 w_a
       = (Ok tt, w_b)
    /\ cleanup_temp_files "temp_audio" w_b = (Ok tt, w')
    /\ exists audio w_m,
        audio.*1 = segment_files "temp_audio" plan
        /\ calls w_m = calls w
        /\ rendered env audio w_m w_a.
Proof.
  intros H Hnew. unfold make_podcast in H.
  bind_ok H as skip w0 E. unfold path_exists in E. inversion E; subst skip w0. clear E.
  rewrite Hnew in H.
  bind_ok H as [] w1 E. apply log_Ok in E. subst w1.
  bind_ok H as [] w1 Emk.
  bind_ok H as md w2 Emd.
  bind_ok H as summary w3 Esum.
  bind_ok H as plan w4 Eplan.
  bind_ok H as [] w5 E. apply log_Ok in E. subst w5.
  bind_ok H as metadata_text w5 E. apply lift_Ok in E as [Htext ->].
  bind_ok H as voice0 w5 E. apply lift_Ok in E as [Hv0 ->].
  bind_ok H as [] w5 Ea0.
  bind_ok H as [voice1 idx1] w6 E. apply lift_Ok in E as [Hv1 ->].
  bind_ok H as [] w6 Ea1.
  bind_ok H as [voice2 idx2] w7 E. apply lift_Ok in E as [Hv2 ->].
  bind_ok H as background w7 Ebg.
  bind_ok H as [] w8 Ea2.
  bind_ok H as st w9 Eloop.
  bind_ok H as [voice3 idx3] w10 E. apply lift_Ok in E as [Hv3 ->].
  bind_ok H as takeaways w10 Etk.
  bind_ok H as [] w11 Ea3.
  bind_ok H as [] w12 E. apply log_Ok in E. subst w12.
  bind_ok H as [] w12 Ecomb.
  cbn [current_voice_idx audio_files full_script append_script append_file
       set_voice_idx fst snd app] in *.
  vm_compute in Hv0. inversion Hv0; subst voice0. clear Hv0.
  vm_compute in Hv1. inversion Hv1; subst voice1 idx1. clear Hv1.
  vm_compute in Hv2. inversion Hv2; subst voice2 idx2. clear Hv2.
  (* what each step did to the calls and to the feed *)
  destruct (planner_call _ _ _ _ Eplan) as (Hplan & Hfeed4 & Hdev4).
  pose proof (preserves_mkdir_exist_ok calls (fun _ _ => eq_refl) _ _ _ _ Emk) as Hc1.
  pose proof (preserves_mkdir_exist_ok feed (fun _ _ => eq_refl) _ _ _ _ Emk) as Hf1.
  assert (Hmd : calls_only (fun c => is_llm_call c = true)
                  (if bool_decide (metadata_dict = ∅)
                   then get_structured_metadata env pdf_path else ret metadata_dict)).
  { destruct (bool_decide _); [apply get_structured_metadata_calls | calls_tac]. }
  assert (Hmdf : preserves feed
                   (if bool_decide (metadata_dict = ∅)
                    then get_structured_metadata env pdf_path else ret metadata_dict)).
  { destruct (bool_decide _); [|frame].
    apply get_structured_metadata_frame; reflexivity. }
  pose proof (llm_only_device _ _ _ _ Hmd Emd) as Hdev2.
  pose proof (Hmdf _ _ _ Emd) as Hf2.
  pose proof (llm_only_device _ _ _ _ (get_high_school_summary_calls env _ _) Esum) as Hdev3.
  pose proof (get_high_school_summary_frame env feed (fun _ _ _ => eq_refl)
                (fun _ _ => eq_refl) _ _ _ _ _ Esum) as Hf3.
  destruct (generate_audio_Ok _ _ _ _ _ _ Ea0) as (Hc5 & Hf5).
  destruct (generate_audio_Ok _ _ _ _ _ _ Ea1) as (Hc6 & Hf6).
  pose proof (llm_only_device _ _ _ _ (get_background_overview_calls env _) Ebg) as Hdev7.
  pose proof (get_background_overview_frame env feed (fun _ _ _ => eq_refl)
                (fun _ _ => eq_refl) _ _ _ _ Ebg) as Hf7.
  pose proof (calls_only_prefix _ _ _ _ _ (get_background_overview_calls env _) Ebg) as Hp7.
  destruct (generate_audio_Ok _ _ _ _ _ _ Ea2) as (Hc8 & Hf8).
  destruct (section_loop_Ok _ _ _ _ _ _ _ _ _ Eloop)
    as (segs & Hfiles & Hvoices & Hdev9 & Haf & Hidx & Hf9 & Hp9).
  pose proof (llm_only_device _ _ _ _ (get_final_takeaways_calls env _) Etk) as Hdev10.
  pose proof (get_final_takeaways_frame env feed (fun _ _ _ => eq_refl)
                (fun _ _ => eq_refl) _ _ _ _ Etk) as Hf10.
  pose proof (calls_only_prefix _ _ _ _ _ (get_final_takeaways_calls env _) Etk) as Hp10.
  destruct (generate_audio_Ok _ _ _ _ _ _ Ea3) as (Hc11 & Hf11).
  pose proof (calls_only_prefix _ _ _ _ _ (combine_audio_files_monotone env _ _ _) Ecomb)
    as Hp12.
  pose proof (cleanup_preserves_calls _ _ _ _ H) as Hc13.
  apply get_next_voice_Ok in Hv3 as [Hv3 _].
  cbn [current_voice_idx audio_files full_script append_script append_file
       set_voice_idx fst snd app calls add_log feed] in *.
  set (seg0 := {| seg_file := Path.join "temp_audio" "metadata.wav";
                  seg_voice := "af_bella"; seg_text := clean_text metadata_text |}).
  set (seg1 := {| seg_file := Path.join "temp_audio" "high_school_summary.wav";
                  seg_voice := "af_bella";
                  seg_text := clean_text (high_school_intro +:+ " " +:+ summary) |}).
  set (seg2 := {| seg_file := Path.join "temp_audio" "background_overview.wav";
                  seg_voice := "af_sarah";
                  seg_text := clean_text (background_intro +:+ " " +:+ background) |}).
  set (seg3 := {| seg_file := Path.join "temp_audio" "final_takeaways.wav";
                  seg_voice := voice3;
                  seg_text := clean_text (takeaway_intro +:+ " " +:+ takeaways) |}).
  exists plan, ([seg0; seg1; seg2] ++ segs ++ [seg3]),
    (add_log STDOUT (takeaway_intro +:+ " " +:+ takeaways) w11), w12.
  split.
  { destruct Hplan as (h & raw & Hpre & Hans). exists h, raw. split; [|exact Hans].
    etrans; [exact Hpre|]. rewrite Hc13.
    etrans; [|exact Hp12]. cbn [calls add_log]. rewrite Hc11.
    etrans; [|apply prefix_app_r; reflexivity].
    etrans; [|exact Hp10]. etrans; [|exact Hp9]. rewrite Hc8.
    etrans; [|apply prefix_app_r; reflexivity].
    etrans; [|exact Hp7]. rewrite Hc6.
    etrans; [|apply prefix_app_r; reflexivity].
    rewrite Hc5. apply prefix_app_r. reflexivity. }
  split.
  { unfold segment_files. rewrite !map_app. cbn [map seg_file seg0 seg1 seg2 seg3].
    rewrite Hfiles. reflexivity. }
  split; [reflexivity|].
  split.
  { intros k v Hk. rewrite !map_app in Hk. cbn [map seg_voice seg0 seg1 seg2 seg3 app] in Hk.
    destruct k as [|[|k]]; [inversion Hk; reflexivity | inversion Hk; reflexivity |].
    change ((("af_bella" :: "af_bella" :: "af_sarah" :: map seg_voice segs ++ [voice3])
             !! S (S (S k))) = Some v)
      with ((map seg_voice segs ++ [voice3]) !! k = Some v) in Hk.
    rewrite <- voice_at_VOICES.
    destruct (decide (k < length (map seg_voice segs))%nat) as [Hlt|Hge].
    - rewrite lookup_app_l in Hk by exact Hlt. apply Hvoices in Hk.
      rewrite <- Hk. f_equal. lia.
    - rewrite lookup_app_r in Hk by lia.
      destruct (k - length (map seg_voice segs))%nat as [|j] eqn:Hj; [|discriminate].
      inversion Hk; subst v. rewrite <- Hv3, Hidx. f_equal.
      assert (length (map seg_voice segs) = length (sections plan)) as Hlen.
      { rewrite length_map, <- (length_map (section_file "temp_audio")), <- Hfiles.
        symmetry. apply length_map. }
      lia. }
  split.
  { rewrite device_calls_add_log.
    rewrite (device_calls_app _ _ _ Hc11 eq_refl), Hdev10, Hdev9.
    rewrite (device_calls_app _ _ _ Hc8 eq_refl), Hdev7.
    rewrite (device_calls_app _ _ _ Hc6 eq_refl).
    rewrite (device_calls_app (add_log INFO "Generated all section bullet points" w4)
               _ _ Hc5 eq_refl).
    rewrite device_calls_add_log, Hdev4, Hdev3, Hdev2.
    rewrite (device_calls_same _ _ Hc1), ?device_calls_add_log.
    unfold synth_calls. rewrite !flat_map_app. cbn [flat_map app seg_file seg_voice seg_text
      seg0 seg1 seg2 seg3]. rewrite <- !app_assoc. reflexivity. }
  split.
  { cbn [feed add_log].
    rewrite Hf11, Hf10, Hf9, Hf8, Hf7, Hf6, Hf5, Hfeed4, Hf3, Hf2, Hf1. reflexivity. }
  split.
  { rewrite <- Ecomb. f_equal. unfold segment_files. rewrite Haf, Hfiles.
    reflexivity. }
  split; [exact H|].
  destruct (generate_audio_rendered _ _ _ _ _ _ Ea0) as (a0 & Hr0).
  destruct (generate_audio_rendered _ _ _ _ _ _ Ea1) as (a1 & Hr1).
  destruct (generate_audio_rendered _ _ _ _ _ _ Ea2) as (a2 & Hr2).
  destruct (generate_audio_rendered _ _ _ _ _ _ Ea3) as (a3 & Hr3).
  destruct (section_loop_rendered _ _ _ _ _ _ _ _ _ Eloop) as (rsegs & Hrfiles & Hrloop).
  exists ([] ++ [] ++ [] ++ [] ++ [(Path.join "temp_audio" "metadata.wav", a0)]
          ++ [(Path.join "temp_audio" "high_school_summary.wav", a1)]
          ++ [] ++ [(Path.join "temp_audio" "background_overview.wav", a2)]
          ++ rsegs ++ [] ++ [(Path.join "temp_audio" "final_takeaways.wav", a3)] ++ []),
    w1.
  split.
  { cbn [app]. unfold segment_files. rewrite !fmap_cons, fmap_app, Hrfiles.
    reflexivity. }
  split; [exact Hc1|].
  eapply (rendered_trans _ _ _ _ w2); [eapply rendered_llm; [exact Hmd| |exact Emd]|].
  { destruct (bool_decide _); [|frame].
    apply get_structured_metadata_frame; reflexivity. }
  eapply (rendered_trans _ _ _ _ w3).
  { eapply rendered_llm; [apply get_high_school_summary_calls| |exact Esum].
    apply get_high_school_summary_frame; reflexivity. }
  eapply (rendered_trans _ _ _ _ w4).
  { eapply rendered_llm;
      [apply get_all_section_bullets_at_once_calls| |exact Eplan].
    apply get_all_section_bullets_at_once_frame; reflexivity. }
  eapply (rendered_trans _ _ _ _ (add_log INFO "Generated all section bullet points" w4));
    [apply rendered_refl; reflexivity|].
  eapply (rendered_trans _ _ _ _ w5); [exact Hr0|].
  eapply (rendered_trans _ _ _ _ w6); [exact Hr1|].
  eapply (rendered_trans _ _ _ _ w7).
  { eapply rendered_llm; [apply get_background_overview_calls| |exact Ebg].
    apply get_background_overview_frame; reflexivity. }
  eapply (rendered_trans _ _ _ _ w8); [exact Hr2|].
  eapply (rendered_trans _ _ _ _ w9); [exact Hrloop|].
  eapply (rendered_trans _ _ _ _ w10).
  { eapply rendered_llm; [apply get_final_takeaways_calls| |exact Etk].
    apply get_final_takeaways_frame; reflexivity. }
  eapply (rendered_trans _ _ _ _ w11); [exact Hr3|].
  apply rendered_refl; reflexivity.
Qed.

Lemma make_podcast_run pdf_path output_path metadata_dict summary_sentences w w' :
  make_podcast env pdf_path output_path metadata_dict summary_sentences w = (Ok tt, w') ->
  present w output_path = false ->
  exists plan segs w_a w_b,
    planner_returned env plan w'
    /\ map seg_file segs = segment_files "temp_audio" plan
    /\ map seg_voice segs !! 0%nat = Some "af_bella"
    /\ (forall k v, map seg_voice segs !! S k = Some v -> VOICES !! (k mod 4)%nat = Some v)
    /\ device_calls w_a = device_calls w ++ synth_calls segs
    /\ feed w_a = feed w
    /\ combine_audio_files env (segment_files "temp_audio" plan) output_path 44100 w_a
       = (Ok tt, w_b)
    /\ cleanup_temp_files "temp_audio" w_b = (Ok tt, w').
Proof.
  intros H Hnew.
  destruct (make_podcast_trace _ _ _ _ _ _ H Hnew)
    as (plan & segs & w_a & w_b & H1 & H2 & H3 & H4 & H5 & H6 & H7 & H8 & _).
  exists plan, segs, w_a, w_b. auto 10.
Qed.

End Run.

(** ** Idempotent re-run *)

Lemma make_podcast_skips env pdf_path output_path metadata_dict summary_sentences w :
  present w output_path = true ->
  make_podcast env pdf_path output_path metadata_dict summary_sentences w
  = (Ok tt, add_log INFO ("Podcast already exists at " +:+ output_path
                          +:+ ", skipping generation") w).
Proof.
  intros Hp. unfold make_podcast. unfold bind at 1, path_exists. rewrite Hp. reflexivity.
Qed.

(** C1, as amended. When something exists at the output path, [make_podcast]
    returns at once: it only logs that it skips, so it makes no call (no
    extraction, no script generation, no synthesis) and leaves the file
    system, hence the existing file, as it is. For an output path that is
    relative and in normal form, and is neither the temporary directory nor
    inside it: after a run that completed the output file exists, so a second
    run with the same arguments is such a no-op; a first run that had to
    produce the file wrote it as its last call. *)
Theorem make_podcast_idempotent env pdf_path output_path metadata_dict summary_sentences :
  let skip_msg := "Podcast already exists at " +:+ output_path +:+ ", skipping generation" in
  (forall w,
      present w output_path = true ->
      exists w',
        make_podcast env pdf_path output_path metadata_dict summary_sentences w = (Ok tt, w')
        /\ calls w' = calls w /\ fs w' = fs w /\ logs w' = logs w ++ [(INFO, skip_msg)])
  /\ (forall w0 w1,
        make_podcast env pdf_path output_path metadata_dict summary_sentences w0 = (Ok tt, w1) ->
        plain_path output_path = true ->
        Path.is_under "temp_audio" output_path = false ->
        output_path <> "temp_audio" ->
        present w1 output_path = true
        /\ (present w0 output_path = false ->
            last (calls w1) = Some (SfWrite output_path 44100))
        /\ exists w2,
            make_podcast env pdf_path output_path metadata_dict summary_sentences w1
            = (Ok tt, w2)
            /\ calls w2 = calls w1 /\ fs w2 = fs w1).
Proof.
  intros skip_msg. split.
  - intros w Hp. eexists. split; [apply make_podcast_skips; exact Hp|]. auto.
  - intros w0 w1 Hrun _ Hunder Hne.
    assert (Hchild : Path.is_child "temp_audio" output_path = false).
    { destruct (Path.is_child "temp_audio" output_path) eqn:Hc; [|reflexivity].
      apply is_child_under in Hc. congruence. }
    assert (Hp1 : present w1 output_path = true
                  /\ (present w0 output_path = false ->
                      last (calls w1) = Some (SfWrite output_path 44100))).
    { destruct (present w0 output_path) eqn:Hp0.
      - rewrite (make_podcast_skips _ _ _ _ _ _ Hp0) in Hrun. inversion Hrun; subst.
        split; [exact Hp0 | discriminate].
      - destruct (make_podcast_run _ _ _ _ _ _ _ Hrun Hp0)
          as (plan & segs & w_a & w_b & _ & _ & _ & _ & _ & _ & Hcomb & Hclean).
        destruct (combine_audio_files_Ok _ _ _ _ _ _ Hcomb) as (Hc & _ & data & Hout).
        destruct (cleanup_frame _ _ _ _ Hclean) as (Hc' & _ & Hfs).
        split.
        + unfold present. rewrite Hfs, Hout by assumption.
          rewrite bool_decide_eq_true_2 by eauto. apply orb_true_r.
        + intros _. rewrite Hc', Hc, app_assoc. apply last_snoc. }
    destruct Hp1 as [Hp1 Hlast]. split; [exact Hp1|]. split; [exact Hlast|].
    eexists. split; [apply make_podcast_skips; exact Hp1|]. auto.
Qed.

Lemma demo_run_completes :
  make_podcast demo_env "paper.pdf" "output/podcast.wav" demo_dict 5 empty_world
  = (Ok tt, (make_podcast demo_env "paper.pdf" "output/podcast.wav" demo_dict 5 empty_world).2).
Proof. vm_compute. reflexivity. Defined.

Lemma make_podcast_idempotent_witness :
  (exists w',
      make_podcast demo_env "paper.pdf" "output/podcast.wav" demo_dict 5 locked_world
      = (Ok tt, w')
      /\ calls w' = calls locked_world /\ fs w' = fs locked_world
      /\ logs w' = logs locked_world
                   ++ [(INFO, "Podcast already exists at output/podcast.wav, skipping generation")])
  /\ (let w1 := (make_podcast demo_env "paper.pdf" "output/podcast.wav" demo_dict 5
                   empty_world).2 in
      present w1 "output/podcast.wav" = true
      /\ (present empty_world "output/podcast.wav" = false ->
          last (calls w1) = Some (SfWrite "output/podcast.wav" 44100))
      /\ exists w2,
          make_podcast demo_env "paper.pdf" "output/podcast.wav" demo_dict 5 w1 = (Ok tt, w2)
          /\ calls w2 = calls w1 /\ fs w2 = fs w1).
Proof.
  split.
  - exact (proj1 (make_podcast_idempotent demo_env "paper.pdf" "output/podcast.wav" demo_dict 5)
             locked_world eq_refl).
  - apply (proj2 (make_podcast_idempotent demo_env "paper.pdf" "output/podcast.wav"
                    demo_dict 5) empty_world _ demo_run_completes).
    + reflexivity.
    + reflexivity.
    + discriminate.
Defined.

(** C1, counterexample. With an output path inside the temporary directory
    the first run completes, but its cleanup removes the episode it has just
    written: nothing exists at the output path afterwards, and a second run
    with the same arguments does not skip: it makes every call again and
    writes the output file a second time. *)
Lemma make_podcast_idempotent_counterexample :
  let first :=
    make_podcast demo_env "paper.pdf" "temp_audio/podcast.wav" demo_dict 5 empty_world in
  let second :=
    make_podcast demo_env "paper.pdf" "temp_audio/podcast.wav" demo_dict 5 first.2 in
  let writes w :=
    length (List.filter
              (fun c => match c with
                        | SfWrite f _ => String.eqb f "temp_audio/podcast.wav"
                        | _ => false
                        end)
              (calls w)) in
  first.1 = Ok tt
  /\ present first.2 "temp_audio/podcast.wav" = false
  /\ second.1 = Ok tt
  /\ length (calls first.2) = 36%nat
  /\ length (calls second.2) = 72%nat
  /\ writes first.2 = 1%nat
  /\ writes second.2 = 2%nat.
Proof. vm_compute. repeat split; reflexivity. Qed.

(** Two runs in a row: the second adds no call and changes no file. *)
Example second_run_is_a_no_op :
  let first := make_podcast demo_env "paper.pdf" "output/podcast.wav" demo_dict 5 empty_world in
  let second := make_podcast demo_env "paper.pdf" "output/podcast.wav" demo_dict 5 first.2 in
  first.1 = Ok tt /\ second.1 = Ok tt
  /\ calls second.2 = calls first.2 /\ fs second.2 = fs first.2
  /\ length (List.filter
               (fun c => match c with
                         | SfWrite f _ => String.eqb f "output/podcast.wav"
                         | _ => false
                         end)
               (calls second.2)) = 1%nat.
Proof. vm_compute. repeat split; reflexivity. Qed.

(** ** Segment order and voices *)


Lemma voices_used_device w :
  voices_used w
  = flat_map (fun c => match c with KPipeline _ v => [v] | _ => [] end) (device_calls w).
Proof.
  unfold voices_used, device_calls. induction (calls w) as [|c l IH]; [reflexivity|].
  destruct c; cbn; rewrite IH; reflexivity.
Qed.


Lemma voices_synth_calls segs :
  flat_map (fun c => match c with KPipeline _ v => [v] | _ => [] end) (synth_calls segs)
  = map seg_voice segs.
Proof.
  induction segs as [|s segs IH]; [reflexivity|].
  change (seg_voice s
          :: flat_map (fun c => match c with KPipeline _ v => [v] | _ => [] end)
               (synth_calls segs)
          = seg_voice s :: map seg_voice segs).
  rewrite IH. reflexivity.
Qed.

Lemma files_read_app w w' l :
  calls w' = calls w ++ l ->
  files_read w' = files_read w
                  ++ flat_map (fun c => match c with SfRead f => [f] | _ => [] end) l.
Proof. unfold files_read. intros ->. apply flat_map_app. Qed.

Lemma voices_used_app w w' l :
  calls w' = calls w ++ l ->
  voices_used w' = voices_used w
                   ++ flat_map (fun c => match c with KPipeline _ v => [v] | _ => [] end) l.
Proof. unfold voices_used. intros ->. apply flat_map_app. Qed.


Lemma flat_map_SfRead_voices l :
  flat_map (fun c => match c with KPipeline _ v => [v] | _ => [] end) (map SfRead l) = [].
Proof. induction l as [|x l IH]; [reflexivity | exact IH]. Qed.










(** The scenario of the specification: sections Data, Methodology, Findings.
    The engine numbers its answers, so the episode shows the order. *)
Example segment_order_scenario :
  let env := echo_env demo_plan in
  let w' := (make_podcast env "paper.pdf" "output/podcast.wav" demo_dict 5 empty_world).2 in
  map name (sections demo_plan) = ["Data"; "Methodology"; "Findings"]
  /\ separate_segments demo_plan
  /\ files_read w'
     = ["temp_audio/metadata.wav"; "temp_audio/high_school_summary.wav";
        "temp_audio/background_overview.wav"; "temp_audio/Data.wav";
        "temp_audio/Methodology.wav"; "temp_audio/Findings.wav";
        "temp_audio/final_takeaways.wav"]
  /\ engine_audio env [] (calls w') = [[1]; [2]; [3]; [4]; [5]; [6]; [7]]
  /\ fs w' !! "output/podcast.wav" = Some (File false (Audio 44100 [1; 2; 3; 4; 5; 6; 7])).
Proof.
  cbv zeta. split; [reflexivity|]. split.
  { split; [|repeat constructor].
    apply (bool_decide_unpack _). vm_compute. reflexivity. }
  vm_compute. repeat split; reflexivity.
Qed.


(** The voices of a completed run: the metadata segment is rendered with the
    first voice without the rotator being advanced, so the summary gets the
    first voice again; from the summary on, segment [S k] has voice
    [VOICES[k mod 4]]. *)
Lemma voices_of_a_run env pdf_path output_path metadata_dict summary_sentences w w' :
  make_podcast env pdf_path output_path metadata_dict summary_sentences w = (Ok tt, w') ->
  present w output_path = false ->
  exists vs,
    voices_used w' = voices_used w ++ vs
    /\ vs !! 0%nat = Some "af_bella"
    /\ vs !! 1%nat = Some "af_bella"
    /\ forall k v, vs !! S k = Some v -> VOICES !! (k mod 4)%nat = Some v.
Proof.
  intros Hrun Hnew.
  destruct (make_podcast_run _ _ _ _ _ _ _ Hrun Hnew)
    as (plan & segs & w_a & w_b & _ & Hfiles & Hv0 & Hvs & Hdev & _ & Hcomb & Hclean).
  destruct (combine_audio_files_Ok _ _ _ _ _ _ Hcomb) as (Hc & _ & _).
  destruct (cleanup_frame _ _ _ _ Hclean) as (Hc' & _ & _).
  exists (map seg_voice segs). split; [|split; [exact Hv0|split; [|exact Hvs]]].
  - unfold voices_used at 1. rewrite Hc', Hc, !flat_map_app. fold (voices_used w_a).
    rewrite flat_map_SfRead_voices. cbn [flat_map]. rewrite !app_nil_r.
    rewrite (voices_used_device w_a), Hdev, flat_map_app, voices_synth_calls.
    rewrite <- voices_used_device. reflexivity.
  - assert (Hlen : (1 < length (map seg_voice segs))%nat).
    { rewrite length_map, <- (length_map seg_file), Hfiles. cbn. lia. }
    destruct (lookup_lt_is_Some_2 _ _ Hlen) as [v Hv]. rewrite Hv. f_equal.
    apply Hvs in Hv. inversion Hv. reflexivity.
Qed.

(** C4, the code at a failing input. A document with three planned sections:
    the seven segments get the voices below, so the metadata segment and the
    summary segment, which follow each other, both have the first voice, and
    segment 1 does not have [VOICES[1]]. *)
Theorem voices_of_demo_run :
  let w' := (make_podcast demo_env "paper.pdf" "output/podcast.wav" demo_dict 5 empty_world).2 in
  voices_used w'
  = ["af_bella"; "af_bella"; "af_sarah"; "af_heart"; "am_michael"; "af_bella"; "af_sarah"]
  /\ voices_used w' !! 0%nat = voices_used w' !! 1%nat
  /\ voices_used w' !! 1%nat <> VOICES !! 1%nat.
Proof. vm_compute. repeat split; try reflexivity. discriminate. Qed.

(** ** Audio assembly *)

Section Assembly.

Variable env : Env.

Lemma combine_loop_total target_sr file_list : forall inputs outputs combined w,
  Forall2 (readable w) file_list inputs ->
  Forall2 (fun input output =>
             0 < input.1 /\ at_target_rate env target_sr input.1 input.2 = Ok output)
    inputs outputs ->
  exists w',
    combine_loop env file_list target_sr combined w = (Ok (combined ++ outputs), w')
    /\ fs w' = fs w
    /\ calls w' = calls w ++ map SfRead file_list.
Proof.
  induction file_list as [|file rest IH]; intros inputs outputs combined w Hin Hout.
  - inversion Hin; subst. inversion Hout; subst. eexists.
    cbn. rewrite !app_nil_r. auto.
  - inversion Hin as [|? [sr data] ? inputs' [i Hfile] Hin']; subst.
    inversion Hout as [|? output ? outputs' [Hsr Hrate] Hout']; subst.
    cbn [fst snd] in *. cbn [combine_loop].
    unfold bind at 1. unfold sf_read at 1. rewrite Hfile.
    unfold bind at 1. cbn [fst snd].
    unfold at_target_rate in Hrate.
    destruct (Z.eqb_spec sr target_sr) as [->|Hne]; cbn [negb].
    + inversion Hrate; subst output. unfold ret at 1.
      destruct (IH inputs' outputs' (combined ++ [data]) (add_call (SfRead file) w))
        as (w' & Hrun & Hfs & Hcalls); [exact Hin' | exact Hout' |].
      exists w'. rewrite Hrun, <- app_assoc. split; [reflexivity|].
      split; [exact Hfs|]. rewrite Hcalls. cbn. rewrite <- app_assoc. reflexivity.
    + unfold bind at 1, log at 1.
      destruct (Z.eqb_spec sr 0) as [->|_]; [lia|].
      unfold lift at 1. rewrite Hrate.
      destruct (IH inputs' outputs' (combined ++ [output])
                  (add_log INFO ("Resampling " +:+ file +:+ " from " +:+ pretty sr
                                 +:+ "Hz to " +:+ pretty target_sr +:+ "Hz")
                     (add_call (SfRead file) w)))
        as (w' & Hrun & Hfs & Hcalls); [exact Hin' | exact Hout' |].
      exists w'. rewrite Hrun, <- app_assoc. split; [reflexivity|].
      split; [exact Hfs|]. rewrite Hcalls. cbn. rewrite <- app_assoc. reflexivity.
Qed.

(** C3, as amended. For a non-empty list of readable sound files, when the
    resampler answers for the inputs whose rate differs from the target and
    the output file can be written, [combine_audio_files] completes, reads
    the inputs in list order and then writes one output file at the target
    rate; its data is the concatenation, in list order, of one array per
    input: the input's own data when its rate is the target rate, else the
    data resampled to [int(len(data) * target_sr / sr)] samples. *)
Theorem combine_audio_files_concatenates file_list output_file target_sr w w1
    (inputs : list (Z * list sample)) (outputs : list (list sample)) :
  file_list <> [] ->
  Forall2 (readable w) file_list inputs ->
  Forall2 (fun input output =>
             0 < input.1 /\ at_target_rate env target_sr input.1 input.2 = Ok output)
    inputs outputs ->
  destination_ready output_file w w1 ->
  (forall sr data, at_target_rate env target_sr sr data
                   = if Z.eqb sr target_sr then Ok data
                     else resample env data
                            (int_truediv env (Z.of_nat (length data) * target_sr) sr))
  /\ exists w',
      combine_audio_files env file_list output_file target_sr w = (Ok tt, w')
      /\ fs w' = <[output_file := File false (Audio target_sr (concat outputs))]> (fs w1)
      /\ calls w' = calls w ++ map SfRead file_list ++ [SfWrite output_file target_sr].
Proof.
  intros Hne Hin Hout (Hmk & Hdir & Hfree). split; [reflexivity|].
  unfold combine_audio_files. unfold bind at 1. rewrite Hmk.
  assert (Hin1 : Forall2 (readable w1) file_list inputs).
  { eapply Forall2_impl; [exact Hin|]. intros file input [i Hf]. exists i.
    eapply mkdir_parents_keeps; eassumption. }
  destruct (combine_loop_total target_sr file_list inputs outputs [] w1 Hin1 Hout)
    as (w2 & Hloop & Hfs & Hcalls).
  unfold bind at 1. rewrite Hloop. cbn [app].
  assert (Hout_ne : outputs <> []).
  { intros ->. inversion Hout; subst. inversion Hin. subst. contradiction. }
  unfold bind at 1, lift at 1, np_concatenate.
  destruct outputs as [|o outputs]; [contradiction|].
  unfold sf_write, is_dir. rewrite Hfs. unfold is_dir in Hdir. rewrite Hdir. cbn [negb].
  pose proof (preserves_mkdir_parents calls (fun _ _ => eq_refl) _ _ _ _ Hmk) as Hc1.
  exists (set_fs (insert output_file (File false (Audio target_sr (concat (o :: outputs)))))
            (add_call (SfWrite output_file target_sr) w2)).
  split.
  - destruct (fs w1 !! output_file) as [[[] ?|]|]; try contradiction; reflexivity.
  - cbn. rewrite Hfs, Hcalls, Hc1, <- app_assoc. auto.
Qed.

End Assembly.

Lemma combine_audio_files_concatenates_witness :
  (forall sr data, at_target_rate demo_env 44100 sr data
                   = if Z.eqb sr 44100 then Ok data
                     else resample demo_env data
                            (int_truediv demo_env (Z.of_nat (length data) * 44100) sr))
  /\ exists w',
      combine_audio_files demo_env ["a.wav"; "b.wav"] "out.wav" 44100 assembly_world
      = (Ok tt, w')
      /\ fs w' = <["out.wav" := File false (Audio 44100 (concat [[0; 0; 0; 0]; [3; 4; 5; 6]]))]>
                   (fs assembly_world)
      /\ calls w' = calls assembly_world ++ map SfRead ["a.wav"; "b.wav"]
                    ++ [SfWrite "out.wav" 44100].
Proof.
  apply (combine_audio_files_concatenates demo_env ["a.wav"; "b.wav"] "out.wav" 44100
           assembly_world assembly_world
           [(22050, [1; 2]); (44100, [3; 4; 5; 6])] [[0; 0; 0; 0]; [3; 4; 5; 6]]).
  - discriminate.
  - repeat constructor; exists false; reflexivity.
  - repeat constructor; cbn; lia.
  - repeat split.
Defined.

(** C3, counterexample. With an empty list of input files the concatenation
    raises and no output file is written. *)
Lemma combine_audio_files_counterexample :
  let run := combine_audio_files demo_env [] "out.wav" 44100 empty_world in
  run.1 = Raise (Exn ValueError "need at least one array to concatenate")
  /\ fs run.2 !! "out.wav" = None
  /\ calls run.2 = [].
Proof. vm_compute. repeat split; reflexivity. Qed.

(** ** The feed *)

Section FeedFrames.

Variable env : Env.

Ltac pipeline_frame_step :=
  match goal with
  | |- preserves _ (get_structured_metadata _ _) =>
      apply get_structured_metadata_frame; reflexivity
  | |- preserves _ (get_high_school_summary _ _ _) =>
      apply get_high_school_summary_frame; reflexivity
  | |- preserves _ (get_all_section_bullets_at_once _ _) =>
      apply get_all_section_bullets_at_once_frame; reflexivity
  | |- preserves _ (get_background_overview _ _) =>
      apply get_background_overview_frame; reflexivity
  | |- preserves _ (get_final_takeaways _ _) =>
      apply get_final_takeaways_frame; reflexivity
  | |- preserves _ (generate_section_details _ _ _ _) =>
      apply generate_section_details_frame; reflexivity
  | |- preserves _ (generate_audio _ _ _ _) => apply generate_audio_frame; reflexivity
  | |- preserves _ (cleanup_temp_files _) => apply cleanup_preserves_feed
  | H : forall x, preserves _ (?loop x) |- preserves _ (?loop _) => apply H
  | _ => frame_step
  end.

Lemma section_loop_feed pdf_path temp_dir voices todo :
  forall st, preserves feed (section_loop env pdf_path temp_dir voices todo st).
Proof.
  induction todo as [|section rest IH]; intros st; simpl.
  - frame.
  - repeat pipeline_frame_step.
Qed.

Lemma combine_loop_feed file_list target_sr :
  forall combined, preserves feed (combine_loop env file_list target_sr combined).
Proof.
  induction file_list as [|file rest IH]; intros combined; simpl.
  - frame.
  - repeat pipeline_frame_step.
Qed.

Lemma combine_audio_files_feed file_list output_file target_sr :
  preserves feed (combine_audio_files env file_list output_file target_sr).
Proof.
  unfold combine_audio_files.
  repeat first
    [ match goal with
      | |- preserves _ (combine_loop _ _ _ _) => apply combine_loop_feed
      end
    | frame_step ].
Qed.

Lemma make_podcast_feed pdf_path output_path metadata_dict summary_sentences :
  preserves feed (make_podcast env pdf_path output_path metadata_dict summary_sentences).
Proof.
  unfold make_podcast.
  repeat first
    [ match goal with
      | |- preserves _ (section_loop _ _ _ _ _ _) => apply section_loop_feed
      | |- preserves _ (combine_audio_files _ _ _ _) => apply combine_audio_files_feed
      end
    | pipeline_frame_step ].
Qed.

Lemma process_paper_feed pdf_path output_path metadata_dict :
  preserves feed (process_paper env pdf_path output_path metadata_dict).
Proof.
  unfold process_paper.
  repeat first
    [ match goal with
      | |- preserves _ (make_podcast _ _ _ _ _) => apply make_podcast_feed
      end
    | pipeline_frame_step ].
Qed.

Lemma get_output_path_feed input_path output_base :
  preserves feed (get_output_path input_path output_base).
Proof. unfold get_output_path. frame. Qed.

Lemma upload_to_dropbox_feed file_path : preserves feed (upload_to_dropbox env file_path).
Proof. unfold upload_to_dropbox. frame. Qed.

Lemma fg_rss_file_feed path : preserves feed (fg_rss_file env path).
Proof.
  intros w r w' H. unfold fg_rss_file, external in H.
  destruct (rss_file env _); inversion H; reflexivity.
Qed.

Lemma verify_feed_content_feed feed_path : preserves feed (verify_feed_content env feed_path).
Proof. unfold verify_feed_content, log_titles. frame. Qed.

Lemma stat_feed p : preserves feed (stat env p).
Proof. intros w r w' H. unfold stat in H. destruct (fs w !! p); inversion H; reflexivity. Qed.

(** *** Registration *)

Lemma keeps_bind {A B} Q (m : M A) (k : A -> M B) :
  keeps Q m -> (forall a, keeps Q (k a)) -> keeps Q (bind m k).
Proof.
  intros Hm Hk w r w' H HQ.
  destruct (bind_cases _ _ _ _ _ H) as [(a & w1 & E1 & E2)|(e & E1 & _)].
  - exact (Hk _ _ _ _ E2 (Hm _ _ _ E1 HQ)).
  - exact (Hm _ _ _ E1 HQ).
Qed.

Lemma keeps_registered_frame {A} id older (m : M A) :
  preserves feed m -> keeps (registered id older) m.
Proof.
  intros Hm w r w' H (e & He & Hid). exists e. rewrite (Hm _ _ _ H). auto.
Qed.

Lemma keeps_registered_fe_set id older f :
  (forall e, fe_id (f e) = fe_id e) -> keeps (registered id older) (fe_set f).
Proof.
  intros Hf w r w' H (e & He & Hid). unfold fe_set in H. inversion H; subst.
  exists (f e). cbn. rewrite He, Hf. auto.
Qed.

(** Once [add_podcast_to_feed] has found the unique id, it adds exactly one
    entry, with the id made from it, in front of the entries already there,
    whether or not one of them has that id, and whether it then completes
    or raises. *)
Lemma add_podcast_to_feed_registers audio_path metadata url unique_id w r w' :
  metadata !! "unique_id" = Some unique_id ->
  add_podcast_to_feed env audio_path metadata url w = (r, w') ->
  registered ("pushpod-" +:+ py_format env unique_id) (feed w) w'.
Proof.
  intros Hid H. unfold add_podcast_to_feed in H.
  unfold dict_getitem at 1 in H. rewrite Hid in H.
  unfold bind at 1, lift at 1 in H.
  unfold bind at 1, log at 1 in H.
  unfold bind at 1, add_entry at 1 in H.
  unfold bind at 1, fe_set at 1 in H. cbn [feed set_feed add_log] in H.
  revert H.
  match goal with
  | |- ?rest ?w0 = _ -> _ =>
      assert (Hk : keeps (registered ("pushpod-" +:+ py_format env unique_id) (feed w)) rest)
  end.
  { repeat first
      [ match goal with |- keeps _ (bind _ _) => apply keeps_bind; [|intros ?] end
      | match goal with |- keeps _ (match ?t with _ => _ end) => destruct t end
      | apply keeps_registered_fe_set; intros ?; reflexivity
      | apply keeps_registered_frame;
        first [ apply stat_feed | solve [repeat frame_step] ] ]. }
  intros H. apply (Hk _ _ _ H). eexists. split; reflexivity.
Qed.

End FeedFrames.

Section BatchLoop.

Variable env : Env.

(** What the body of the batch loop does to the feed in one iteration. *)
Lemma papers_loop_step output_base pdf_path rest existing_ids w r w' :
  papers_loop env output_base (pdf_path :: rest) existing_ids w = (r, w') ->
  feed w' = feed w
  \/ exists ids2 w2,
      papers_loop env output_base rest ids2 w2 = (r, w')
      /\ ((ids2 = existing_ids /\ feed w2 = feed w)
          \/ exists unique_id,
              unique_id_of env pdf_path = Some unique_id
              /\ set_contains existing_ids unique_id = Ok false
              /\ (ids2 = existing_ids \/ ids2 = {[unique_id]} ∪ existing_ids)
              /\ (feed w2 = feed w
                  \/ registered ("pushpod-" +:+ py_format env unique_id) (feed w) w2)).
Proof.
  intros H. cbn [papers_loop] in H.
  set (metadata_path := Path.join (Path.parent pdf_path) "metadata.json") in *.
  destruct (bind_cases _ _ _ _ _ H) as [(loaded & w1 & E1 & E2)|(e & E1 & _)]; clear H.
  2:{ left. revert E1. apply (preserves_try_except feed); [|intros ?]; repeat frame_step. }
  assert (Hf1 : feed w1 = feed w).
  { revert E1. apply (preserves_try_except feed); [|intros ?]; repeat frame_step. }
  assert (Hload : forall metadata, loaded = Some metadata ->
                                   json_load env metadata_path = Ok metadata).
  { intros metadata ->. unfold try_except, bind, open_read, lift, ret, log in E1.
    destruct (fs w !! metadata_path) as [[]|]; try discriminate.
    destruct (json_load env metadata_path); inversion E1; subst; reflexivity. }
  destruct loaded as [metadata|].
  2:{ right. exists existing_ids, w1. split; [exact E2|]. left. auto. }
  specialize (Hload _ eq_refl).
  destruct (bind_cases _ _ _ _ _ E2) as [(unique_id & w2 & E3 & E4)|(e & E3 & _)]; clear E2.
  2:{ left. unfold lift in E3. inversion E3; subst. exact Hf1. }
  apply lift_Ok in E3 as [Hid ->].
  assert (Huid : unique_id_of env pdf_path = Some unique_id).
  { unfold unique_id_of. fold metadata_path. rewrite Hload.
    unfold dict_getitem in Hid. destruct (metadata !! "unique_id"); inversion Hid; auto. }
  destruct (bind_cases _ _ _ _ _ E4) as [(known & w2 & E5 & E6)|(e & E5 & _)]; clear E4.
  2:{ left. unfold lift in E5. inversion E5; subst. exact Hf1. }
  apply lift_Ok in E5 as [Hknown ->].
  destruct known.
  { destruct (bind_cases _ _ _ _ _ E6) as [([] & w2 & E7 & E8)|(e & E7 & _)];
      [|discriminate].
    apply log_Ok in E7. subst w2. right. do 2 eexists. split; [exact E8|].
    left. auto. }
  destruct (bind_cases _ _ _ _ _ E6) as [(output_path & w2 & E7 & E8)|(e & E7 & _)]; clear E6.
  2:{ left. etrans; [exact (get_output_path_feed _ _ _ _ _ E7) | exact Hf1]. }
  pose proof (get_output_path_feed _ _ _ _ _ E7) as Hf2.
  destruct (bind_cases _ _ _ _ _ E8) as [(t & w3 & E9 & E10)|(e & E9 & _)]; clear E8.
  2:{ left. unfold lift in E9. inversion E9; subst. congruence. }
  apply lift_Ok in E9 as [_ ->].
  destruct (bind_cases _ _ _ _ _ E10) as [([] & w3 & E11 & E12)|(e & E11 & _)];
    [|discriminate].
  apply log_Ok in E11. subst w3. clear E10.
  destruct (bind_cases _ _ _ _ _ E12) as [(ids2 & w4 & E13 & E14)|(e & E13 & _)]; clear E12.
  2:{ exfalso. unfold try_except in E13.
      destruct (bind _ _ _) as [[?|e'] w5]; [discriminate|].
      unfold bind, log, ret in E13. discriminate. }
  right. exists ids2, w4. split; [exact E14|]. right. exists unique_id.
  split; [exact Huid|]. split; [exact Hknown|].
  assert (Hreg_id : metadata !! "unique_id" = Some unique_id).
  { unfold dict_getitem in Hid. destruct (metadata !! "unique_id"); inversion Hid; auto. }
  unfold try_except in E13.
  match type of E13 with
  | (match ?body ?w0 with _ => _ end) = _ => destruct (body w0) as [[ids|e] w5] eqn:Ebody
  end.
  - inversion E13; subst ids w5. clear E13.
    bind_ok Ebody as [] w5 Ep. bind_ok Ebody as url w6 Eu.
    bind_ok Ebody as [] w7 Ea. bind_ok Ebody as [] w8 Er.
    bind_ok Ebody as url2 w9 Eu2. bind_ok Ebody as [] w10 Ev.
    bind_ok Ebody as [] w11 El. apply log_Ok in El. subst w11.
    apply ret_Ok in Ebody as [-> ->].
    split; [right; reflexivity|]. right.
    destruct (add_podcast_to_feed_registers env _ _ _ _ _ _ _ Hreg_id Ea) as (e & He & Hide).
    exists e. split; [|exact Hide]. cbn [feed add_log].
    rewrite (verify_feed_content_feed env _ _ _ _ Ev),
      (upload_to_dropbox_feed env _ _ _ _ Eu2), (fg_rss_file_feed env _ _ _ _ Er), He.
    f_equal.
    etrans; [exact (upload_to_dropbox_feed env _ _ _ _ Eu)|].
    etrans; [exact (process_paper_feed env _ _ _ _ _ _ Ep)|].
    cbn [feed add_log]. congruence.
  - unfold bind, log, ret in E13. inversion E13; subst ids2 w4. clear E13.
    split; [left; reflexivity|]. cbn [feed add_log].
    assert (Hstart : feed (add_log INFO ("Processing " +:+ py_format env unique_id +:+ ": "
                                         +:+ py_format env t) w2) = feed w)
      by (cbn [feed add_log]; congruence).
    revert Ebody Hstart.
    generalize (add_log INFO ("Processing " +:+ py_format env unique_id +:+ ": "
                              +:+ py_format env t) w2).
    intros w0 Ebody Hstart.
    destruct (bind_cases _ _ _ _ _ Ebody) as [([] & w6 & Ep & Eb)|(e' & Ep & _)].
    2:{ left. etrans; [exact (process_paper_feed env _ _ _ _ _ _ Ep) | exact Hstart]. }
    pose proof (process_paper_feed env _ _ _ _ _ _ Ep) as Hf6.
    destruct (bind_cases _ _ _ _ _ Eb) as [(url & w7 & Eu & Eb2)|(e' & Eu & _)].
    2:{ left. etrans; [exact (upload_to_dropbox_feed env _ _ _ _ Eu) | congruence]. }
    pose proof (upload_to_dropbox_feed env _ _ _ _ Eu) as Hf7.
    assert (Hreg : forall rr ww, add_podcast_to_feed env output_path metadata url w7 = (rr, ww) ->
                                 registered ("pushpod-" +:+ py_format env unique_id) (feed w) ww).
    { intros rr ww Ea.
      destruct (add_podcast_to_feed_registers env _ _ _ _ _ _ _ Hreg_id Ea) as (e0 & He & Hide).
      exists e0. split; [|exact Hide]. rewrite He. f_equal. congruence. }
    right.
    destruct (bind_cases _ _ _ _ _ Eb2) as [([] & w8 & Ea & Eb3)|(e' & Ea & _)];
      [|exact (Hreg _ _ Ea)].
    apply Hreg in Ea.
    assert (Hkeep : forall ww, feed ww = feed w8 ->
              registered ("pushpod-" +:+ py_format env unique_id) (feed w) ww).
    { intros ww Hww. destruct Ea as (e0 & He & Hide). exists e0. rewrite Hww. auto. }
    destruct (bind_cases _ _ _ _ _ Eb3) as [([] & w9 & Er & Eb4)|(e' & Er & _)];
      [|apply Hkeep; exact (fg_rss_file_feed env _ _ _ _ Er)].
    pose proof (fg_rss_file_feed env _ _ _ _ Er) as Hf9.
    destruct (bind_cases _ _ _ _ _ Eb4) as [(url2 & w10 & Eu2 & Eb5)|(e' & Eu2 & _)];
      [|apply Hkeep; etrans; [exact (upload_to_dropbox_feed env _ _ _ _ Eu2) | exact Hf9]].
    pose proof (upload_to_dropbox_feed env _ _ _ _ Eu2) as Hf10.
    destruct (bind_cases _ _ _ _ _ Eb5) as [([] & w11 & Ev & Eb6)|(e' & Ev & _)];
      [|apply Hkeep; etrans; [exact (verify_feed_content_feed env _ _ _ _ Ev) | congruence]].
    exfalso. unfold bind, log, ret in Eb6. discriminate.
Qed.

Lemma feed_ids_registered id w w0 :
  registered id (feed w0) w -> feed_ids w = Some id :: feed_ids w0.
Proof. intros (e & He & Hid). unfold feed_ids. rewrite He. cbn. rewrite Hid. reflexivity. Qed.

Lemma set_contains_false existing_ids v :
  set_contains existing_ids v = Ok false -> v ∉ existing_ids.
Proof.
  unfold set_contains. destruct v; try discriminate; intros [= H];
    apply bool_decide_eq_false in H; exact H.
Qed.

(** The invariant of the batch loop. [tracked] holds the ids of
    [existing_ids] and those of the documents of this batch that were
    registered although their processing then failed. *)
Lemma papers_loop_no_duplicates output_base pdf_files :
  forall existing_ids (tracked : gset pyval) w r w',
    papers_loop env output_base pdf_files existing_ids w = (r, w') ->
    existing_ids ⊆ tracked ->
    NoDup (feed_ids w) ->
    feed_covered w tracked ->
    ids_distinct env pdf_files ->
    Forall (fun pdf_path => forall v, unique_id_of env pdf_path = Some v ->
                                      v ∈ tracked -> v ∈ existing_ids) pdf_files ->
    NoDup (feed_ids w').
Proof.
  induction pdf_files as [|pdf_path rest IH];
    intros existing_ids tracked w r w' H Hsub Hnd Hcov Hdist Hfresh.
  - cbn in H. inversion H; subst. exact Hnd.
  - destruct Hdist as [Hhead Hdist]. inversion Hfresh as [|? ? Hfresh1 Hfresh2]; subst.
    destruct (papers_loop_step _ _ _ _ _ _ _ H)
      as [Hsame|(ids2 & w2 & Hrest & [[-> Hf]|(unique_id & Huid & Hknown & Hids & Hf)])].
    + unfold feed_ids. rewrite Hsame. exact Hnd.
    + eapply (IH existing_ids tracked); try eassumption.
      * unfold feed_ids. rewrite Hf. exact Hnd.
      * intros id Hid. apply Hcov. unfold feed_ids in *. rewrite <- Hf. exact Hid.
    + destruct (Hhead _ Huid) as [[u ->] Hothers].
      apply set_contains_false in Hknown.
      assert (Hnew : PyStr u ∉ tracked) by (intros Hin; apply Hknown, Hfresh1; assumption).
      eapply (IH ids2 ({[PyStr u]} ∪ tracked)); try eassumption.
      * destruct Hids as [->| ->]; set_solver.
      * destruct Hf as [Hf|Hreg].
        -- unfold feed_ids. rewrite Hf. exact Hnd.
        -- rewrite (feed_ids_registered _ _ _ Hreg). constructor; [|exact Hnd].
           intros Hin. destruct (Hcov _ Hin) as (u0 & Heq & Hu0).
           cbn [py_format] in Heq. inversion Heq as [Heq'].
           apply String.app_inj in Heq'. subst u0. contradiction.
      * intros id Hid. destruct Hf as [Hf|Hreg].
        -- unfold feed_ids in Hid. rewrite Hf in Hid.
           destruct (Hcov _ Hid) as (u0 & Heq & Hu0). exists u0. split; [exact Heq|].
           set_solver.
        -- rewrite (feed_ids_registered _ _ _ Hreg) in Hid.
           apply elem_of_cons in Hid as [->|Hid].
           ++ exists u. split; [reflexivity|]. set_solver.
           ++ destruct (Hcov _ Hid) as (u0 & Heq & Hu0). exists u0. split; [exact Heq|].
              set_solver.
      * apply Forall_forall. intros q Hq v Hv Hin.
        rewrite Forall_forall in Hothers, Hfresh2.
        apply elem_of_union in Hin as [Hin|Hin].
        -- apply elem_of_singleton in Hin. subst v. exfalso. exact (Hothers _ Hq Hv).
        -- pose proof (Hfresh2 _ Hq _ Hv Hin). destruct Hids as [->| ->]; set_solver.
Qed.

End BatchLoop.

(** C6, as amended. [add_podcast_to_feed] does not check membership: once it
    has read the unique id it adds one entry with that id in front of the
    feed, whatever the feed holds. De-duplication is the pre-check of the
    batch loop: a document whose unique id is in [existing_ids] leaves the
    feed untouched. So when the loop starts from a feed without duplicate ids
    whose ids are all recorded in [existing_ids], and the documents of the
    batch have string ids that differ from one another, the feed has no two
    entries with the same id when the loop ends, however the processing of
    the documents fails. *)
Theorem feed_has_no_duplicate_ids env output_base :
  (forall audio_path metadata url unique_id w r w',
      metadata !! "unique_id" = Some unique_id ->
      add_podcast_to_feed env audio_path metadata url w = (r, w') ->
      registered ("pushpod-" +:+ py_format env unique_id) (feed w) w')
  /\ (forall pdf_path rest existing_ids u w r w',
        papers_loop env output_base (pdf_path :: rest) existing_ids w = (r, w') ->
        unique_id_of env pdf_path = Some (PyStr u) ->
        PyStr u ∈ existing_ids ->
        feed w' = feed w
        \/ exists w2, papers_loop env output_base rest existing_ids w2 = (r, w')
                      /\ feed w2 = feed w)
  /\ (forall pdf_files existing_ids w r w',
        papers_loop env output_base pdf_files existing_ids w = (r, w') ->
        NoDup (feed_ids w) ->
        feed_covered w existing_ids ->
        ids_distinct env pdf_files ->
        NoDup (feed_ids w')).
Proof.
  split; [|split].
  - intros audio_path metadata url unique_id w r w' Hid H.
    exact (add_podcast_to_feed_registers env _ _ _ _ _ _ _ Hid H).
  - intros pdf_path rest existing_ids u w r w' H Huid Hin.
    destruct (papers_loop_step _ _ _ _ _ _ _ _ H)
      as [Hsame|(ids2 & w2 & Hrest & [[-> Hf]|(unique_id & Huid' & Hknown & _)])].
    + left. exact Hsame.
    + right. eauto.
    + exfalso. rewrite Huid in Huid'. inversion Huid'; subst unique_id.
      apply set_contains_false in Hknown. contradiction.
  - intros pdf_files existing_ids w r w' H Hnd Hcov Hdist.
    eapply (papers_loop_no_duplicates env output_base pdf_files existing_ids existing_ids);
      try eassumption; [reflexivity|].
    apply Forall_forall. auto.
Qed.


Lemma feed_has_no_duplicate_ids_witness :
  registered "pushpod-nber_w1" (feed published_world)
    (add_podcast_to_feed demo_env "output/NBER_Papers/nber_w1.wav" demo_record
       "https://www.dropbox.com/s/abc/nber_w1.wav?dl=0" published_world).2
  /\ (let known : gset pyval := {[ PyStr "nber_w1" ]} in
      let run := papers_loop demo_env "output" ["Data/papers/nber/w1/paper.pdf"] known
                   batch_world in
      feed run.2 = feed batch_world
      \/ exists w2, papers_loop demo_env "output" [] known w2 = run /\ feed w2 = feed batch_world)
  /\ NoDup (feed_ids (papers_loop demo_env "output" ["Data/papers/nber/w1/paper.pdf"] ∅
                        batch_world).2).
Proof.
  destruct (feed_has_no_duplicate_ids demo_env "output") as (Hadd & Hskip & Hloop).
  split; [|split].
  - apply (Hadd "output/NBER_Papers/nber_w1.wav" demo_record
             "https://www.dropbox.com/s/abc/nber_w1.wav?dl=0" (PyStr "nber_w1") published_world
             (add_podcast_to_feed demo_env "output/NBER_Papers/nber_w1.wav" demo_record
                "https://www.dropbox.com/s/abc/nber_w1.wav?dl=0" published_world).1).
    + reflexivity.
    + apply surjective_pairing.
  - intros known run.
    destruct (Hskip "Data/papers/nber/w1/paper.pdf" [] known "nber_w1" batch_world run.1 run.2)
      as [H|(w2 & H1 & H2)].
    + apply surjective_pairing.
    + reflexivity.
    + apply elem_of_singleton. reflexivity.
    + left. exact H.
    + right. exists w2. split; [|exact H2]. rewrite H1. symmetry. apply surjective_pairing.
  - apply (Hloop ["Data/papers/nber/w1/paper.pdf"] ∅ batch_world
             (papers_loop demo_env "output" ["Data/papers/nber/w1/paper.pdf"] ∅ batch_world).1).
    + apply surjective_pairing.
    + constructor.
    + intros id Hid. inversion Hid.
    + split; [|exact I]. intros v Hv. inversion Hv; subst v. split.
      * exists "nber_w1". reflexivity.
      * constructor.
Defined.

(** C6, counterexample. Registering the episode of the same document twice
    succeeds both times and leaves two entries with the same id in the feed:
    the registration does not look at what the feed holds. *)
Lemma add_podcast_to_feed_counterexample :
  let register := add_podcast_to_feed demo_env "output/NBER_Papers/nber_w1.wav" demo_record
                    "https://www.dropbox.com/s/abc/nber_w1.wav?dl=0" in
  let twice := (register ;; register) published_world in
  twice.1 = Ok tt
  /\ feed_ids twice.2 = [Some "pushpod-nber_w1"; Some "pushpod-nber_w1"]
  /\ ~ NoDup (feed_ids twice.2).
Proof.
  split; [vm_compute; reflexivity|]. split; [vm_compute; reflexivity|].
  intros H. vm_compute in H. inversion H as [|? ? Hin _]. apply Hin. left.
Qed.

(** A batch run over one new document registers it once. *)
Example batch_registers_once :
  let run := process_all_papers demo_env false batch_world in
  run.1 = Ok tt /\ feed_ids run.2 = [Some "pushpod-nber_w1"].
Proof. split; vm_compute; reflexivity. Qed.

(** * Further properties of the code *)

(** ** Voice rotation *)

(** [get_next_voice] accepts every integer as the current index, also a
    negative one or one beyond the list: with a non-empty list it returns an
    index inside the list and the voice at that index, so it never raises an
    [IndexError]; with an empty list it raises [ZeroDivisionError]. *)
Theorem get_next_voice_in_bounds (voices : list string) (current_index : Z) :
  match get_next_voice voices current_index with
  | Ok (voice, next_index) =>
      voices <> []
      /\ 0 <= next_index < Z.of_nat (length voices)
      /\ voices !! Z.to_nat next_index = Some voice
      /\ next_index = (current_index + 1) mod Z.of_nat (length voices)
  | Raise e => voices = [] /\ exn_kind e = ZeroDivisionError
  end.
Proof.
  unfold get_next_voice, py_mod, py_getitem.
  destruct (Z.eqb_spec (Z.of_nat (length voices)) 0) as [H0|Hne]; cbn [rbind].
  - split; [|reflexivity]. destruct voices; [reflexivity | discriminate H0].
  - pose proof (Z.mod_pos_bound (current_index + 1) (Z.of_nat (length voices))) as B.
    assert (Hpos : 0 < Z.of_nat (length voices)) by lia. specialize (B Hpos).
    destruct (Z.ltb_spec ((current_index + 1) mod Z.of_nat (length voices)) 0) as [?|_]; [lia|].
    destruct (Z.ltb_spec ((current_index + 1) mod Z.of_nat (length voices)) 0) as [?|_]; [lia|].
    destruct (lookup_lt_is_Some_2 voices
                (Z.to_nat ((current_index + 1) mod Z.of_nat (length voices)))) as [v Hv];
      [lia|].
    rewrite Hv. cbn [rbind]. repeat split; try lia; try assumption.
    intros ->. cbn in Hne. lia.
Qed.

(** ** Speech synthesis of one segment *)


(** ** Cleanup stays inside the temporary directory *)

Lemma unlink_loop_shrinks l : forall w r w',
  for_each l unlink_quietly w = (r, w') ->
  forall k n, fs w' !! k = Some n -> fs w !! k = Some n.
Proof.
  induction l as [|x l IH]; intros w r w' H k n Hk; simpl in H.
  - inversion H; subst. exact Hk.
  - pose proof (unlink_quietly_cases x w) as Hx. unfold bind in H.
    destruct (fs w !! x) as [[[] ?|]|] eqn:Ex; rewrite Hx in H.
    + inversion H; subst. exact Hk.
    + specialize (IH _ _ _ H k n Hk). cbn in IH.
      apply lookup_delete_Some in IH as [_ IH]. exact IH.
    + inversion H; subst. exact Hk.
    + exact (IH _ _ _ H k n Hk).
Qed.

(** Whatever its outcome, [cleanup_temp_files] makes no call to a library or
    service and leaves the feed alone; a path that is neither the directory
    nor one of its entries keeps what it held; nothing is created or
    rewritten anywhere (what is there afterwards was there before, with the
    same content); and when the directory does not exist the call changes
    nothing at all. *)
Theorem cleanup_temp_files_confined temp_dir w :
  let run := cleanup_temp_files temp_dir w in
  calls run.2 = calls w /\ feed run.2 = feed w
  /\ (forall k, Path.is_child temp_dir k = false -> k <> temp_dir ->
                fs run.2 !! k = fs w !! k)
  /\ (forall k n, fs run.2 !! k = Some n -> fs w !! k = Some n)
  /\ (present w temp_dir = false -> run = (Ok tt, w)).
Proof.
  cbv zeta. destruct (cleanup_temp_files temp_dir w) as [r w'] eqn:H. cbn [fst snd].
  destruct (cleanup_frame _ _ _ _ H) as (Hc & Hf & Hfs).
  split; [exact Hc|]. split; [exact Hf|]. split; [exact Hfs|]. split.
  - revert H. unfold cleanup_temp_files. unfold bind at 1, path_exists.
    destruct (present w temp_dir); [|intros H; inversion H; subst; auto].
    destruct (glob_star_spec temp_dir w) as (l & Hl & Hin).
    unfold bind at 1. rewrite Hl. unfold bind at 1.
    destruct (for_each l unlink_quietly w) as [[[]|e] w1] eqn:Eloop.
    + unfold try_except.
      destruct (rmdir_cases temp_dir w1) as [(Hr & _)|(e & Hr & He & _)]; rewrite Hr.
      * intros H; inversion H; subst. cbn. intros k n Hk.
        apply lookup_delete_Some in Hk as [_ Hk].
        exact (unlink_loop_shrinks _ _ _ _ Eloop _ _ Hk).
      * rewrite He. intros H; inversion H; subst. cbn.
        exact (unlink_loop_shrinks _ _ _ _ Eloop).
    + intros H; inversion H; subst. exact (unlink_loop_shrinks _ _ _ _ Eloop).
  - intros Hp. revert H. unfold cleanup_temp_files. unfold bind at 1, path_exists.
    rewrite Hp. unfold ret. intros <-. reflexivity.
Qed.

(** ** Requests to the language model *)

(** [get_llm_response] raises in one case only: a document path was given and
    the upload of the document raised; the exception is that of the upload, and
    no generation request was made. Without a document path (or with an empty
    one) it never raises and uploads nothing: its only call is the generation
    request, whose content is the prompt alone. *)
Theorem get_llm_response_raises_only_on_upload env prompt pdf_path model_name
    response_schema w :
  let run := get_llm_response env prompt pdf_path model_name response_schema w in
  (forall e, run.1 = Raise e <->
             exists p, pdf_path = Some p /\ p <> ""
                       /\ upload_file env (calls w ++ [UploadFile p]) = Raise e)
  /\ (forall e, run.1 = Raise e ->
                exists p, pdf_path = Some p /\ calls run.2 = calls w ++ [UploadFile p])
  /\ (pdf_path = None \/ pdf_path = Some "" ->
      calls run.2
      = calls w ++ [GenerateContent model_name [TextPart (nl +:+ nl +:+ prompt)]
                      response_schema]).
Proof.
  cbv zeta.
  destruct (get_llm_response env prompt pdf_path model_name response_schema w)
    as [r w'] eqn:H.
  cbn [fst snd]. unfold get_llm_response in H. unfold bind at 1 in H.
  assert (Hgen : forall content w1,
    exists text w2,
      try_except
        (match response_schema with
         | Some sch =>
             response <- external (GenerateContent model_name content (Some sch))
                           (generate_content env) ;;
             text <- lift response ;;
             if String.eqb text ""
             then raise (Exn ValueError "Empty response received")
             else ret text
         | None =>
             response <- external (GenerateContent model_name content None)
                           (generate_content env) ;;
             lift response
         end)
        (fun e => ret (str_exn e)) w1 = (Ok text, w2)
      /\ calls w2 = calls w1 ++ [GenerateContent model_name content response_schema]).
  { intros content w1. unfold try_except, bind, external, lift, raise, ret.
    destruct response_schema as [sch|]; cbn [calls add_call];
      destruct (generate_content env _) as [[t|e]|e]; try (eexists _, _; split; reflexivity).
    destruct (String.eqb t ""); eexists _, _; split; reflexivity. }
  destruct pdf_path as [p|].
  - destruct (String.eqb_spec p "") as [->|Hp].
    + unfold ret at 1 in H. cbn [app] in H.
      destruct (Hgen [TextPart (nl +:+ nl +:+ prompt)] w) as (text & w2 & Hg & Hc).
      rewrite Hg in H. inversion H; subst. split; [|split].
      * intros e. split; [discriminate|]. intros (p & [= <-] & Hp & _). contradiction.
      * discriminate.
      * intros _. exact Hc.
    + unfold bind at 1, external at 1 in H. cbn [calls add_call] in H.
      destruct (upload_file env (calls w ++ [UploadFile p])) as [[]|e0] eqn:Hup.
      * unfold ret at 1 in H.
        destruct (Hgen ([FileRef p] ++ [TextPart (nl +:+ nl +:+ prompt)])
                    (add_call (UploadFile p) w)) as (text & w2 & Hg & Hc).
        rewrite Hg in H. inversion H; subst. split; [|split].
        -- intros e. split; [discriminate|]. intros (p' & [= <-] & _ & Hr). congruence.
        -- discriminate.
        -- intros [|[= ->]]; [discriminate | contradiction].
      * inversion H; subst. split; [|split].
        -- intros e. split.
           ++ intros [= <-]. exists p. auto.
           ++ intros (p' & [= <-] & _ & Hr). congruence.
        -- intros e _. exists p. auto.
        -- intros [|[= ->]]; [discriminate | contradiction].
  - unfold ret at 1 in H. cbn [app] in H.
    destruct (Hgen [TextPart (nl +:+ nl +:+ prompt)] w) as (text & w2 & Hg & Hc).
    rewrite Hg in H. inversion H; subst. split; [|split].
    + intros e. split; [discriminate|]. intros (p & [=] & _).
    + discriminate.
    + intros _. exact Hc.
Qed.

(** ** The batch loop only adds to the feed *)

(** Whatever happens to the documents of a batch, the loop of
    [process_all_papers] never removes or changes an entry that was in the
    feed: the feed it ends with is the feed it started from with new entries
    in front, at most one per document, each carrying the id [pushpod-<id>]
    of the unique id in the metadata of one of the documents. *)
Theorem papers_loop_feed_grows env output_base pdf_files existing_ids w :
  let run := papers_loop env output_base pdf_files existing_ids w in
  exists added,
    feed run.2 = added ++ feed w
    /\ (length added <= length pdf_files)%nat
    /\ Forall (fun e => exists pdf_path unique_id,
                 pdf_path ∈ pdf_files
                 /\ unique_id_of env pdf_path = Some unique_id
                 /\ fe_id e = Some ("pushpod-" +:+ py_format env unique_id)) added.
Proof.
  cbv zeta. revert existing_ids w.
  induction pdf_files as [|pdf_path rest IH]; intros existing_ids w.
  - exists []. cbn. auto.
  - destruct (papers_loop env output_base (pdf_path :: rest) existing_ids w)
      as [r w'] eqn:H.
    cbn [fst snd].
    destruct (papers_loop_step _ _ _ _ _ _ _ _ H)
      as [Hsame|(ids2 & w2 & Hrest & Hstep)].
    + exists []. cbn. split; [exact Hsame|]. split; [lia | constructor].
    + destruct (IH ids2 w2) as (added & Hfeed & Hlen & Hall). rewrite Hrest in Hfeed.
      cbn [fst snd] in Hfeed.
      assert (Hall' : Forall (fun e => exists pdf_path0 unique_id,
                 pdf_path0 ∈ pdf_path :: rest
                 /\ unique_id_of env pdf_path0 = Some unique_id
                 /\ fe_id e = Some ("pushpod-" +:+ py_format env unique_id)) added).
      { eapply Forall_impl; [exact Hall|]. intros e (q & u & Hq & Hu & He).
        exists q, u. split; [set_solver | auto]. }
      destruct Hstep as [[-> Hf]|(unique_id & Huid & _ & _ & [Hf|(e & He & Hid)])].
      * exists added. rewrite Hfeed, Hf. cbn [length]. split; [reflexivity|]. split; [lia|].
        exact Hall'.
      * exists added. rewrite Hfeed, Hf. cbn [length]. split; [reflexivity|]. split; [lia|].
        exact Hall'.
      * exists (added ++ [e]). rewrite Hfeed, He, <- app_assoc. split; [reflexivity|].
        split; [rewrite length_app; cbn [length]; lia|].
        apply Forall_app. split; [exact Hall'|]. constructor; [|constructor].
        exists pdf_path, unique_id. split; [set_solver | auto].
Qed.

(** ** The assembler writes the output file last, or not at all *)

Lemma dirname_split s d :
  Path.dirname s = Some d -> exists n, s = d ++ Path.slash :: n.
Proof.
  revert d. induction s as [|c s IH]; intros d H; simpl in H; [discriminate|].
  destruct (Path.dirname s) as [d'|] eqn:E.
  - inversion H; subst. destruct (IH d' eq_refl) as [n ->]. exists n. reflexivity.
  - destruct (Ascii.eqb_spec c Path.slash) as [->|]; [|discriminate].
    inversion H; subst. exists s. reflexivity.
Qed.

Lemma ancestors_from_length acc s a :
  a ∈ Path.ancestors_from acc s ->
  (length (list_ascii_of_string a) <= length acc + length s)%nat.
Proof.
  revert acc. induction s as [|c s IH]; intros acc Ha; simpl in Ha.
  - destruct acc as [|x acc]; [inversion Ha|].
    apply list_elem_of_singleton in Ha. subst a.
    rewrite list_ascii_of_string_of_list_ascii. lia.
  - apply elem_of_app in Ha as [Ha|Ha].
    + destruct (Ascii.eqb c Path.slash); [|inversion Ha].
      destruct acc as [|x acc]; [inversion Ha|].
      apply list_elem_of_singleton in Ha. subst a.
      rewrite list_ascii_of_string_of_list_ascii. cbn [length]. lia.
    + apply IH in Ha. rewrite length_app in Ha. cbn [length] in Ha |- *. lia.
Qed.

(** Creating the directory of a path does not touch the path itself. *)
Lemma mkdir_parents_parent_frame p w r w' :
  mkdir_parents (Path.parent p) w = (r, w') -> fs w' !! p = fs w !! p.
Proof.
  unfold mkdir_parents.
  assert (Hl : forall a, a ∈ Path.ancestors (Path.parent p) ->
                         a <> p \/ Path.is_base a = true).
  { intros a Ha. unfold Path.parent in Ha.
    destruct (Path.dirname (Path.chars p)) as [d|] eqn:Ed.
    - apply dirname_split in Ed as [n Hn].
      destruct d as [|x d].
      + cbn in Ha. apply list_elem_of_singleton in Ha. subst a. right. reflexivity.
      + left. intros ->. unfold Path.ancestors in Ha.
        destruct (String.eqb _ _); [inversion Ha|].
        apply ancestors_from_length in Ha. unfold Path.chars in Ha, Hn.
        rewrite list_ascii_of_string_of_list_ascii in Ha. rewrite Hn in Ha.
        rewrite length_app in Ha. cbn [length] in Ha. lia.
    - cbn in Ha. inversion Ha. }
  revert Hl. generalize (Path.ancestors (Path.parent p)). intros l. revert w.
  induction l as [|x l IH]; intros w Hl H; simpl in H.
  - inversion H; subst. reflexivity.
  - assert (Hx : forall r1 w1, mkdir_exist_ok x w = (r1, w1) -> fs w1 !! p = fs w !! p).
    { intros r1 w1. unfold mkdir_exist_ok.
      destruct (Path.is_base x) eqn:Eb; [intros [= <- <-]; reflexivity|].
      destruct (fs w !! x) as [[]|]; try (intros [= <- <-]; reflexivity).
      destruct (is_dir w (Path.parent x)); intros [= <- <-]; [|reflexivity].
      cbn. apply lookup_insert_ne. destruct (Hl x) as [Hne|Hb]; [set_solver | exact Hne |].
      congruence. }
    destruct (bind_cases _ _ _ _ _ H) as [(a & w1 & E1 & E2)|(e & E1 & _)].
    + rewrite (IH w1); [exact (Hx _ _ E1) | intros a' Ha'; apply Hl; set_solver | exact E2].
    + exact (Hx _ _ E1).
Qed.

(** Creating directories only adds directories. *)
Lemma mkdir_exist_ok_adds_dirs p w r w' k :
  mkdir_exist_ok p w = (r, w') ->
  fs w' !! k = fs w !! k \/ (fs w !! k = None /\ fs w' !! k = Some Dir).
Proof.
  unfold mkdir_exist_ok. destruct (Path.is_base p); [intros [= <- <-]; auto|].
  destruct (fs w !! p) as [[]|] eqn:Ep; try (intros [= <- <-]; auto).
  destruct (is_dir w (Path.parent p)); intros [= <- <-]; [|auto].
  cbn. destruct (decide (p = k)) as [->|Hne].
  - right. rewrite lookup_insert_eq. auto.
  - left. apply lookup_insert_ne. exact Hne.
Qed.

Lemma mkdir_parents_adds_dirs p w r w' k :
  mkdir_parents p w = (r, w') ->
  fs w' !! k = fs w !! k \/ (fs w !! k = None /\ fs w' !! k = Some Dir).
Proof.
  unfold mkdir_parents. generalize (Path.ancestors p). intros l. revert w.
  induction l as [|x l IH]; intros w H; simpl in H.
  - inversion H; subst. auto.
  - destruct (bind_cases _ _ _ _ _ H) as [(a & w1 & E1 & E2)|(e & E1 & _)].
    + destruct (IH _ E2) as [H2|[H2 H3]];
        destruct (mkdir_exist_ok_adds_dirs _ _ _ _ k E1) as [H1|[H1 H1']].
      * left. congruence.
      * right. split; [exact H1 | congruence].
      * right. split; [congruence | exact H3].
      * congruence.
    + exact (mkdir_exist_ok_adds_dirs _ _ _ _ k E1).
Qed.

Lemma combine_loop_fs env file_list target_sr :
  forall combined, preserves fs (combine_loop env file_list target_sr combined).
Proof.
  induction file_list as [|file rest IH]; intros combined; simpl.
  - frame.
  - repeat first
      [ match goal with
        | |- preserves _ (combine_loop _ _ _ _) => apply IH
        | |- preserves _ (sf_read _) =>
            let H := fresh in
            intros ? ? ? H; unfold sf_read in H;
            destruct (fs _ !! file) as [[? []|]|]; inversion H; reflexivity
        end
      | frame_step ].
Qed.

Lemma combine_audio_files_outcome env file_list output_file target_sr w r w' :
  combine_audio_files env file_list output_file target_sr w = (r, w') ->
  (forall k, k <> output_file ->
             fs w' !! k = fs w !! k \/ (fs w !! k = None /\ fs w' !! k = Some Dir))
  /\ match r with
     | Ok _ => exists data, fs w' !! output_file = Some (File false (Audio target_sr data))
     | Raise _ => fs w' !! output_file = fs w !! output_file
     end.
Proof.
  intros H.
  unfold combine_audio_files in H.
  destruct (bind_cases _ _ _ _ _ H) as [([] & w1 & E1 & E2)|(e & E1 & ->)].
  2:{ split; [intros k _; exact (mkdir_parents_adds_dirs _ _ _ _ k E1)|].
      exact (mkdir_parents_parent_frame _ _ _ _ E1). }
  pose proof (mkdir_parents_parent_frame _ _ _ _ E1) as Hout.
  destruct (bind_cases _ _ _ _ _ E2) as [(combined & w2 & E3 & E4)|(e & E3 & ->)].
  2:{ rewrite (combine_loop_fs env _ _ _ _ _ _ E3).
      split; [intros k _; exact (mkdir_parents_adds_dirs _ _ _ _ k E1) | exact Hout]. }
  pose proof (combine_loop_fs env _ _ _ _ _ _ E3) as Hfs2.
  destruct (bind_cases _ _ _ _ _ E4) as [(final_audio & w3 & E5 & E6)|(e & E5 & ->)].
  2:{ unfold lift in E5. inversion E5; subst. rewrite Hfs2.
      split; [intros k _; exact (mkdir_parents_adds_dirs _ _ _ _ k E1) | exact Hout]. }
  unfold lift in E5. inversion E5; subst w3. clear E5.
  unfold sf_write in E6.
  destruct (negb (is_dir w2 (Path.parent output_file))).
  { inversion E6; subst. cbn. rewrite Hfs2.
    split; [intros k _; exact (mkdir_parents_adds_dirs _ _ _ _ k E1) | exact Hout]. }
  destruct (fs w2 !! output_file) as [[[] ?|]|] eqn:Eo; inversion E6; subst; cbn;
    rewrite ?Hfs2;
    try (split; [intros k _; exact (mkdir_parents_adds_dirs _ _ _ _ k E1) | exact Hout]).
  - split; [|eexists; apply lookup_insert_eq].
    intros k Hk. rewrite lookup_insert_ne by congruence.
    exact (mkdir_parents_adds_dirs _ _ _ _ k E1).
  - split; [|eexists; apply lookup_insert_eq].
    intros k Hk. rewrite lookup_insert_ne by congruence.
    exact (mkdir_parents_adds_dirs _ _ _ _ k E1).
Qed.


(** ** Verifying the uploaded feed *)

Lemma log_titles_frame {X} (f : World -> X) prefix entries :
  (forall l msg w, f (add_log l msg w) = f w) ->
  preserves f (log_titles prefix entries).
Proof.
  intros Hf. unfold log_titles.
  repeat first
    [ match goal with
      | |- preserves _ (log _ _) => apply preserves_log; exact Hf
      end
    | frame_step ].
Qed.

(** [verify_feed_content] returns normally only when the copy of the feed in
    the storage service could be downloaded. Once the local feed has been
    read and the download has been asked for, no exception of the storage
    service or of the parser reaches the caller: the function returns or
    raises [UnboundLocalError] at its [return]; and when the download fails,
    the failure is logged and the function raises [UnboundLocalError], not
    the exception of the download. It changes neither the file system nor
    the feed generator. *)
Theorem verify_feed_content_download_failure env feed_path w :
  let run := verify_feed_content env feed_path w in
  let asked := calls w ++ [FeedParse feed_path; DropboxDownload feed_path] in
  fs run.2 = fs w /\ feed run.2 = feed w
  /\ (run.1 = Ok tt ->
      dropbox_download env asked = Ok tt
      /\ calls run.2 = asked ++ [FeedParse feed_path])
  /\ (asked `prefix_of` calls run.2 ->
      run.1 = Ok tt
      \/ run.1 = Raise (Exn UnboundLocalError
           "cannot access local variable 'dropbox_feed' where it is not associated with a value"))
  /\ (forall e, asked `prefix_of` calls run.2 -> dropbox_download env asked = Raise e ->
      run.1 = Raise (Exn UnboundLocalError
           "cannot access local variable 'dropbox_feed' where it is not associated with a value")
      /\ last (logs run.2) = Some (ERROR, "Error reading Dropbox feed: " +:+ str_exn e)).
Proof.
  cbv zeta. destruct (verify_feed_content env feed_path w) as [r w'] eqn:H. cbn [fst snd].
  assert (Hnp : forall (l : list call) x y, ~ (l ++ [x; y]) `prefix_of` l).
  { intros l x y [t Ht]. apply (f_equal length) in Ht.
    rewrite !length_app in Ht. cbn [length] in Ht. lia. }
  assert (Hnp1 : forall (l : list call) x y, ~ (l ++ [x; y]) `prefix_of` (l ++ [x])).
  { intros l x y [t Ht]. apply (f_equal length) in Ht.
    rewrite !length_app in Ht. cbn [length] in Ht. lia. }
  unfold verify_feed_content in H.
  unfold bind at 1, log at 1 in H.
  unfold bind at 1 in H.
  destruct (open_read feed_path (add_log INFO "Verifying feed content..." w))
    as [[[]|e0] w0] eqn:Eopen.
  2:{ unfold open_read in Eopen. cbn [fs add_log] in Eopen.
      destruct (fs w !! feed_path) as [[]|]; inversion Eopen; subst; inversion H; subst;
        cbn [fs feed calls add_log]; repeat split; try discriminate;
        try (intros; exfalso; eapply Hnp; eassumption). }
  assert (w0 = add_log INFO "Verifying feed content..." w) as ->.
  { unfold open_read in Eopen. destruct (fs _ !! feed_path) as [[]|]; inversion Eopen; reflexivity. }
  clear Eopen.
  unfold bind at 1, external at 1 in H. cbn [calls add_call add_log] in H.
  destruct (feed_parse env (calls w ++ [FeedParse feed_path])) as [local_feed|e0] eqn:Elocal.
  2:{ inversion H; subst. cbn [fs feed calls add_log add_call].
      repeat split; try discriminate;
        try (intros; exfalso; eapply Hnp1; eassumption). }
  unfold bind at 1, log at 1 in H.
  unfold bind at 1 in H.
  match type of H with
  | context [log_titles ?p ?l ?w1] =>
      destruct (log_titles p l w1) as [[[]|e0] w2] eqn:Etitles;
      pose proof (log_titles_frame calls _ _ (fun _ _ _ => eq_refl) _ _ _ Etitles) as Hc2;
      pose proof (log_titles_frame fs _ _ (fun _ _ _ => eq_refl) _ _ _ Etitles) as Hf2;
      pose proof (log_titles_frame feed _ _ (fun _ _ _ => eq_refl) _ _ _ Etitles) as Hg2
  end;
  cbn [fs feed calls add_log add_call] in Hc2, Hf2, Hg2.
  2:{ inversion H; subst. rewrite Hc2, Hf2, Hg2.
      repeat split; try discriminate;
        try (intros; exfalso; eapply Hnp1; eassumption). }
  assert (Hasked : calls w ++ [FeedParse feed_path; DropboxDownload feed_path]
                   = calls w2 ++ [DropboxDownload feed_path]).
  { rewrite Hc2, <- app_assoc. reflexivity. }
  unfold bind at 1, try_except at 1 in H.
  unfold bind at 1, external at 1 in H. cbn [calls add_call] in H.
  rewrite <- Hasked in H.
  destruct (dropbox_download env (calls w ++ [FeedParse feed_path; DropboxDownload feed_path]))
    as [[]|e0] eqn:Edown.
  2:{ unfold bind, log, ret, raise in H. inversion H; subst.
      cbn [fs feed calls logs add_log add_call]. rewrite Hf2, Hg2.
      split; [reflexivity|]. split; [reflexivity|]. split; [discriminate|].
      split; [auto|]. intros e' _ [= <-]. split; [reflexivity|]. apply last_snoc. }
  unfold bind at 1, external at 1 in H. cbn [calls add_call] in H.
  destruct (feed_parse env ((calls w2 ++ [DropboxDownload feed_path]) ++ [FeedParse feed_path]))
    as [dropbox_feed|e0] eqn:Eparse.
  2:{ unfold bind, log, ret, raise in H. inversion H; subst.
      cbn [fs feed calls logs add_log add_call]. rewrite Hf2, Hg2.
      split; [reflexivity|]. split; [reflexivity|]. split; [discriminate|].
      split; [auto|]. intros e' _ [=]. }
  unfold try_except at 1 in H. unfold bind at 1, log at 1 in H. unfold bind at 1 in H.
  match type of H with
  | context [log_titles ?p ?l ?w1] =>
      destruct (log_titles p l w1) as [[[]|e0] w3] eqn:Etitles3;
      pose proof (log_titles_frame calls _ _ (fun _ _ _ => eq_refl) _ _ _ Etitles3) as Hc3;
      pose proof (log_titles_frame fs _ _ (fun _ _ _ => eq_refl) _ _ _ Etitles3) as Hf3;
      pose proof (log_titles_frame feed _ _ (fun _ _ _ => eq_refl) _ _ _ Etitles3) as Hg3
  end;
  cbn [fs feed calls add_log add_call] in Hc3, Hf3, Hg3;
  unfold bind, log, ret, raise in H; inversion H; subst;
  cbn [fs feed calls logs add_log add_call];
  rewrite Hc3, Hf3, Hg3, Hf2, Hg2, Hasked;
  (split; [reflexivity|]); (split; [reflexivity|]); (split; [auto|]);
  (split; [auto|]); intros e' _ [=].
Qed.

(** ** Registering an episode *)

(** [add_podcast_to_feed] does not roll back. It raises before touching the
    feed only when the metadata has no [unique_id]; any later failure (a
    missing title, authors or abstract, authors that cannot be joined, an
    audio file that does not exist) leaves the entry it had created in the
    feed, with its id set and without enclosure. When it returns, the new
    entry has its id, description, link, publication date and enclosure set,
    link and enclosure point to the same direct download URL and the
    enclosure type is [audio/wav]; its title is the title of the metadata
    when that is a string, and a title [None] leaves the entry without
    title. It makes no call and does not change the file system. *)
Theorem add_podcast_to_feed_entry env audio_path metadata url w :
  let run := add_podcast_to_feed env audio_path metadata url w in
  let direct_url :=
    str_replace "?dl=0" "?raw=1"
      (str_replace "www.dropbox.com" "dl.dropboxusercontent.com" url) in
  fs run.2 = fs w /\ calls run.2 = calls w
  /\ match run.1 with
     | Ok _ =>
         exists fe size,
           feed run.2 = fe :: feed w
           /\ is_Some (fe_id fe) /\ is_Some (fe_description fe)
           /\ is_Some (fe_published fe)
           /\ match metadata !! "title" with
              | Some (PyStr t) => fe_title fe = Some t
              | Some PyNone => fe_title fe = None
              | _ => True
              end
           /\ fe_link fe = Some direct_url
           /\ fe_enclosure fe = Some (direct_url, size, "audio/wav")
     | Raise e =>
         (metadata !! "unique_id" = None /\ exn_kind e = KeyError /\ feed run.2 = feed w)
         \/ (exists fe, feed run.2 = fe :: feed w
                        /\ is_Some (fe_id fe) /\ fe_enclosure fe = None)
     end.
Proof.
  cbv zeta. destruct (add_podcast_to_feed env audio_path metadata url w) as [r w'] eqn:H.
  cbn [fst snd]. unfold add_podcast_to_feed in H.
  unfold bind, lift, log, add_entry, fe_set, ret, raise, dict_getitem, stat in H.
  cbn [fs feed calls logs set_feed add_log] in H.
  destruct (metadata !! "unique_id") as [unique_id|];
    [|inversion H; subst; cbn; repeat split; left; auto].
  destruct (metadata !! "title") as [t|];
    [|inversion H; subst; cbn; repeat split; right; eexists; repeat split; eauto].
  destruct t as [|t|t]; cbn [fs feed calls logs set_feed add_log] in H;
    (destruct (metadata !! "authors") as [author_names|];
     [|inversion H; subst; cbn; repeat split; right; eexists; repeat split; eauto]);
    (destruct (py_join ", " author_names) as [authors_str|];
     [|inversion H; subst; cbn; repeat split; right; eexists; repeat split; eauto]);
    (destruct (metadata !! "abstract") as [abstract|];
     [|inversion H; subst; cbn; repeat split; right; eexists; repeat split; eauto]);
    cbn [fs feed calls logs set_feed add_log] in H;
    (destruct (fs w !! audio_path) as [n|] eqn:Est;
     [|inversion H; subst; cbn; repeat split; right; eexists; repeat split; eauto]);
    cbn [fs feed calls logs set_feed add_log] in H; rewrite Est in H;
    inversion H; subst; cbn; (split; [reflexivity|]); (split; [reflexivity|]);
    eexists _, _; repeat split; eauto.
Qed.

(** ** The output directories *)

Lemma mkdir_exist_ok_cases p w :
  Path.is_base p = false -> is_dir w (Path.parent p) = true ->
  match fs w !! p with
  | Some Dir => mkdir_exist_ok p w = (Ok tt, w)
  | Some (File _ _) =>
      mkdir_exist_ok p w = (Raise (Exn FileExistsError ("File exists: '" +:+ p +:+ "'")), w)
  | None => mkdir_exist_ok p w = (Ok tt, set_fs (insert p Dir) w)
  end.
Proof.
  intros Hb Hd. unfold mkdir_exist_ok. rewrite Hb, Hd.
  destruct (fs w !! p) as [[]|]; reflexivity.
Qed.

Lemma setup_directories_ready w :
  fs w !! "output" = Some Dir -> fs w !! "output/NBER_Papers" = Some Dir ->
  setup_directories w = (Ok "output", w).
Proof.
  intros Ho Hn. unfold setup_directories, bind.
  change (Path.join "output" "NBER_Papers") with "output/NBER_Papers".
  pose proof (mkdir_exist_ok_cases "output" w eq_refl eq_refl) as H1. rewrite Ho in H1.
  rewrite H1.
  assert (Hd : is_dir w (Path.parent "output/NBER_Papers") = true).
  { change (Path.parent "output/NBER_Papers") with "output". unfold is_dir. rewrite Ho.
    reflexivity. }
  pose proof (mkdir_exist_ok_cases "output/NBER_Papers" w eq_refl Hd) as H2.
  rewrite Hn in H2. rewrite H2. reflexivity.
Qed.

(** [setup_directories] returns ["output"] and leaves [output] and
    [output/NBER_Papers] behind as directories; what existed before is kept,
    and a second call changes nothing. The only way it fails is a
    [FileExistsError], when one of the two paths is taken by a file. *)
Theorem setup_directories_idempotent w :
  let run := setup_directories w in
  (forall k n, fs w !! k = Some n -> fs run.2 !! k = Some n)
  /\ match run.1 with
     | Ok output_base =>
         output_base = "output"
         /\ fs run.2 !! "output" = Some Dir
         /\ fs run.2 !! "output/NBER_Papers" = Some Dir
         /\ setup_directories run.2 = (Ok "output", run.2)
     | Raise e =>
         exn_kind e = FileExistsError
         /\ exists i c, fs w !! "output" = Some (File i c)
                        \/ fs w !! "output/NBER_Papers" = Some (File i c)
     end.
Proof.
  cbv zeta. destruct (setup_directories w) as [r w'] eqn:H. cbn [fst snd].
  unfold setup_directories, bind in H.
  change (Path.join "output" "NBER_Papers") with "output/NBER_Papers" in H.
  pose proof (mkdir_exist_ok_cases "output" w eq_refl eq_refl) as H1.
  destruct (fs w !! "output") as [[i c|]|] eqn:Eo; rewrite H1 in H.
  - inversion H; subst. split; [auto|]. split; [reflexivity|]. eauto.
  - assert (Hd : is_dir w (Path.parent "output/NBER_Papers") = true).
    { change (Path.parent "output/NBER_Papers") with "output". unfold is_dir. rewrite Eo.
      reflexivity. }
    pose proof (mkdir_exist_ok_cases "output/NBER_Papers" w eq_refl Hd) as H2.
    destruct (fs w !! "output/NBER_Papers") as [[i c|]|] eqn:En; rewrite H2 in H;
      inversion H; subst.
    + split; [auto|]. split; [reflexivity|]. eauto.
    + split; [auto|]. repeat split; try assumption. apply setup_directories_ready; assumption.
    + cbn [fs set_fs]. split.
      * intros k n Hk. rewrite lookup_insert_ne by congruence. exact Hk.
      * assert (Ho' : (<["output/NBER_Papers" := Dir]> (fs w) : gmap string node) !! "output"
                      = Some Dir) by (rewrite lookup_insert_ne by discriminate; exact Eo).
        repeat split; [exact Ho' | apply lookup_insert_eq |].
        apply setup_directories_ready; [exact Ho' | apply lookup_insert_eq].
  - set (w1 := set_fs (insert "output" Dir) w) in *.
    assert (Eo1 : fs w1 !! "output" = Some Dir) by apply lookup_insert_eq.
    assert (Hd : is_dir w1 (Path.parent "output/NBER_Papers") = true).
    { change (Path.parent "output/NBER_Papers") with "output". unfold is_dir. rewrite Eo1.
      reflexivity. }
    assert (Hkeep : forall k n, fs w !! k = Some n -> fs w1 !! k = Some n).
    { intros k n Hk. cbn. rewrite lookup_insert_ne by congruence. exact Hk. }
    pose proof (mkdir_exist_ok_cases "output/NBER_Papers" w1 eq_refl Hd) as H2.
    destruct (fs w1 !! "output/NBER_Papers") as [[i c|]|] eqn:En; rewrite H2 in H;
      inversion H; subst.
    + split; [exact Hkeep|]. split; [reflexivity|]. exists i, c. right.
      cbn in En. rewrite lookup_insert_ne in En by discriminate. exact En.
    + split; [exact Hkeep|]. repeat split; try assumption.
      apply setup_directories_ready; assumption.
    + cbn [fs set_fs]. split.
      * intros k n Hk. rewrite lookup_insert_ne by (apply Hkeep in Hk; congruence).
        apply Hkeep. exact Hk.
      * assert (Ho' : (<["output/NBER_Papers" := Dir]> (fs w1) : gmap string node) !! "output"
                      = Some Dir) by (rewrite lookup_insert_ne by discriminate; exact Eo1).
        repeat split; [exact Ho' | apply lookup_insert_eq |].
        apply setup_directories_ready; [exact Ho' | apply lookup_insert_eq].
Qed.

(** ** Reading the stored feed back *)

Lemma split_on_free sep l :
  forallb (fun c => negb (Ascii.eqb c sep)) l = true -> Path.split_on sep l = [l].
Proof.
  induction l as [|c l IH]; [reflexivity|]. cbn. intros H.
  apply andb_true_iff in H as [Hc Hl]. apply negb_true_iff in Hc. rewrite Hc, (IH Hl).
  reflexivity.
Qed.

Lemma split_on_first sep a b :
  forallb (fun c => negb (Ascii.eqb c sep)) a = true ->
  Path.split_on sep (a ++ sep :: b) = a :: Path.split_on sep b.
Proof.
  induction a as [|c a IH]; cbn.
  - intros _. rewrite Ascii.eqb_refl. reflexivity.
  - intros H. apply andb_true_iff in H as [Hc Hl]. apply negb_true_iff in Hc.
    rewrite Hc, (IH Hl). reflexivity.
Qed.

Lemma pushpod_id_split u :
  str_split "-" ("pushpod-" +:+ u)
  = "pushpod" :: map string_of_list_ascii (Path.split_on "-" (list_ascii_of_string u)).
Proof.
  unfold str_split. rewrite list_ascii_of_string_app.
  change (list_ascii_of_string "pushpod-") with (list_ascii_of_string "pushpod" ++ ["-"%char]).
  rewrite <- app_assoc. cbn [app].
  rewrite (split_on_first "-" (list_ascii_of_string "pushpod")) by reflexivity.
  reflexivity.
Qed.

Lemma split_on_nonempty sep l : Path.split_on sep l <> [].
Proof.
  destruct l as [|c l]; cbn; [discriminate|].
  destruct (Ascii.eqb c sep); [discriminate|].
  destruct (Path.split_on sep l); discriminate.
Qed.

Lemma split_on_head_free sep l h t :
  Path.split_on sep l = h :: t -> forallb (fun c => negb (Ascii.eqb c sep)) h = true.
Proof.
  revert h t. induction l as [|c l IH]; intros h t; cbn.
  - intros [= <- <-]. reflexivity.
  - destruct (Ascii.eqb c sep) eqn:Ec; [intros [= <- <-]; reflexivity|].
    destruct (Path.split_on sep l) as [|h' t'] eqn:El.
    + intros [= <- <-]. cbn. rewrite Ec. reflexivity.
    + intros [= <- <-]. cbn. rewrite Ec. cbn. exact (IH _ _ eq_refl).
Qed.

(** The id an entry was registered under is read back by [split('-')[1]] as
    the part of the unique id before its first hyphen. *)
Lemma pushpod_id_read_back u :
  py_getitem (str_split "-" ("pushpod-" +:+ u)) 1 = Ok (before_hyphen u).
Proof.
  rewrite pushpod_id_split. unfold before_hyphen, str_split.
  destruct (Path.split_on "-" (list_ascii_of_string u)) as [|h t] eqn:E;
    [exfalso; exact (split_on_nonempty _ _ E)|].
  reflexivity.
Qed.

Lemma before_hyphen_free u : hyphen_free u = true -> before_hyphen u = u.
Proof.
  intros Hu. unfold before_hyphen, str_split. rewrite split_on_free by exact Hu.
  cbn. apply string_of_list_ascii_of_string.
Qed.

Lemma before_hyphen_is_free u : hyphen_free (before_hyphen u) = true.
Proof.
  unfold before_hyphen, str_split, hyphen_free.
  destruct (Path.split_on "-" (list_ascii_of_string u)) as [|h t] eqn:E; [reflexivity|].
  cbn [map]. rewrite list_ascii_of_string_of_list_ascii.
  exact (split_on_head_free _ _ _ _ E).
Qed.

Lemma load_entries_head entry rest existing_ids w id unique_id :
  pe_id entry = Some id ->
  py_getitem (str_split "-" id) 1 = Ok unique_id ->
  is_Some (pe_title entry) -> is_Some (pe_description entry) ->
  is_Some (pe_link entry) -> is_Some (pe_published entry) ->
  exists w1,
    load_entries (entry :: rest) existing_ids w
    = load_entries rest ({[ PyStr unique_id ]} ∪ existing_ids) w1
    /\ fs w1 = fs w /\ calls w1 = calls w /\ logs w1 = logs w
    /\ feed_ids w1 = Some id :: feed_ids w.
Proof.
  intros Hid Hsplit [t Ht] [d Hd] [l Hl] [p Hp].
  cbn [load_entries]. rewrite Hid. cbn [attr rbind]. rewrite Hsplit. cbn [rbind].
  rewrite Ht, Hd, Hl, Hp.
  unfold bind, add_entry, fe_set, try_except, lift, attr, ret.
  cbn [feed set_feed].
  destruct (pe_enclosures entry) as [|enclosure ?]; cbn [feed set_feed];
    eexists; (split; [reflexivity|]); repeat split; reflexivity.
Qed.

(** Entries that were stored by a registration are copied one by one, each
    under its id, and what [split('-')[1]] makes of their ids is collected. *)
Lemma load_entries_stored entries : forall us tail existing_ids w,
  Forall2 stored_entry entries us ->
  exists w',
    load_entries (entries ++ tail) existing_ids w
    = load_entries tail (list_to_set (PyStr <$> (before_hyphen <$> us)) ∪ existing_ids) w'
    /\ fs w' = fs w /\ calls w' = calls w /\ logs w' = logs w
    /\ feed_ids w' = stored_ids us ++ feed_ids w.
Proof.
  induction entries as [|entry entries IH]; intros us tail existing_ids w Hst.
  - inversion Hst; subst. exists w. cbn [app fmap list_fmap list_to_set].
    rewrite (left_id_L ∅ (∪)). auto.
  - inversion Hst as [|? u ? us' (Hid & Ht & Hd & Hl & Hp) Hrest]; subst.
    destruct (load_entries_head entry (entries ++ tail) existing_ids w _ _ Hid
                (pushpod_id_read_back u) Ht Hd Hl Hp)
      as (w1 & Hrun & Hfs & Hc & Hlg & Hids).
    destruct (IH us' tail ({[PyStr (before_hyphen u)]} ∪ existing_ids) w1 Hrest)
      as (w' & Hrun' & Hfs' & Hc' & Hlg' & Hids').
    exists w'. cbn [app]. rewrite Hrun, Hrun'. split.
    { f_equal. cbn [fmap list_fmap list_to_set]. set_solver. }
    split; [congruence|]. split; [congruence|]. split; [congruence|].
    rewrite Hids', Hids. unfold stored_ids. cbn [fmap list_fmap]. rewrite reverse_cons, <- app_assoc.
    reflexivity.
Qed.

(** The copying loop never raises: a failure is handed back next to the ids
    collected so far. *)
Lemma load_entries_total entries : forall existing_ids w,
  exists ids o w',
    load_entries entries existing_ids w = (Ok (ids, o), w')
    /\ fs w' = fs w /\ calls w' = calls w /\ logs w' = logs w
    /\ existing_ids ⊆ ids.
Proof.
  induction entries as [|entry entries IH]; intros existing_ids w.
  - exists existing_ids, None, w. repeat split; reflexivity.
  - cbn [load_entries].
    destruct (rbind (attr "id" (pe_id entry)) _) as [[id unique_id]|e].
    2:{ exists existing_ids, (Some e), w. repeat split; reflexivity. }
    unfold bind at 1, add_entry at 1. unfold bind at 1, fe_set at 1.
    unfold bind at 1.
    match goal with
    | |- context [try_except ?b ?h ?w0] =>
        assert (Hstep : exists o w1, try_except b h w0 = (Ok o, w1)
                                     /\ fs w1 = fs w /\ calls w1 = calls w /\ logs w1 = logs w)
    end.
    { unfold try_except, bind, lift, attr, fe_set, ret. cbn [feed set_feed].
      destruct (pe_title entry); [|eexists _, _; repeat split; reflexivity].
      destruct (pe_description entry); [|eexists _, _; repeat split; reflexivity].
      destruct (pe_link entry); [|eexists _, _; repeat split; reflexivity].
      destruct (pe_published entry); [|eexists _, _; repeat split; reflexivity].
      destruct (pe_enclosures entry); eexists _, _; repeat split; reflexivity. }
    destruct Hstep as (o & w1 & -> & Hfs & Hc & Hlg).
    destruct o as [e|].
    + eexists _, _, _. split; [reflexivity|]. repeat split; try assumption. set_solver.
    + destruct (IH ({[PyStr unique_id]} ∪ existing_ids) w1)
        as (ids & o & w' & -> & Hfs' & Hc' & Hlg' & Hsub).
      exists ids, o, w'. split; [reflexivity|].
      split; [congruence|]. split; [congruence|]. split; [congruence|]. set_solver.
Qed.

Lemma listing_loop_Ok entries : forall w,
  Forall listable entries ->
  exists w',
    for_each entries (fun entry =>
      t <- lift (attr "title" (pe_title entry)) ;;
      log INFO ("Title: " +:+ t) ;;
      i <- lift (attr "id" (pe_id entry)) ;;
      log INFO ("ID: " +:+ i) ;;
      l <- lift (attr "link" (pe_link entry)) ;;
      log INFO ("Link: " +:+ l) ;;
      log INFO "---") w = (Ok tt, w')
    /\ fs w' = fs w /\ calls w' = calls w /\ feed w' = feed w.
Proof.
  induction entries as [|entry entries IH]; intros w Hl.
  - exists w. repeat split; reflexivity.
  - inversion Hl as [|? ? ([t Ht] & [i Hi] & [l Hlk]) Hrest]; subst.
    destruct entry as [pid pt pd pl pp pen]. cbn in Ht, Hi, Hlk. subst.
    destruct (IH (add_log INFO "---"
                    (add_log INFO ("Link: " +:+ l)
                       (add_log INFO ("ID: " +:+ i) (add_log INFO ("Title: " +:+ t) w)))) Hrest)
      as (w' & Hrun & Hfs & Hc & Hf).
    exists w'. split; [exact Hrun|]. auto.
Qed.

Lemma listing_loop_frame {X} (f : World -> X) entries :
  (forall l msg w, f (add_log l msg w) = f w) ->
  preserves f (for_each entries (fun entry =>
      t <- lift (attr "title" (pe_title entry)) ;;
      log INFO ("Title: " +:+ t) ;;
      i <- lift (attr "id" (pe_id entry)) ;;
      log INFO ("ID: " +:+ i) ;;
      l <- lift (attr "link" (pe_link entry)) ;;
      log INFO ("Link: " +:+ l) ;;
      log INFO "---")).
Proof.
  intros Hf.
  repeat first
    [ match goal with
      | |- preserves _ (log _ _) => apply preserves_log; exact Hf
      end
    | frame_step ].
Qed.

Section StoredFeed.

Variable env : Env.
Variable output_base : string.

Local Abbreviation feed_path := (Path.join output_base "feed.xml").

(** [load_existing_feed] on a feed file that parses and whose entries can be
  listed: what it returns is decided by the copying loop, run on a fresh
  generator. *)
Lemma load_existing_feed_parsed w parsed_feed :
present w feed_path = true ->
feed_parse env (calls w ++ [FeedParse feed_path]) = Ok parsed_feed ->
is_Some (pf_title parsed_feed) -> is_Some (pf_description parsed_feed) ->
Forall listable (pf_entries parsed_feed) ->
exists w1,
  fs w1 = fs w /\ feed w1 = [] /\ calls w1 = calls w ++ [FeedParse feed_path]
  /\ forall ids o w2,
      load_entries (pf_entries parsed_feed) ∅ w1 = (Ok (ids, o), w2) ->
      load_existing_feed env output_base w
      = (Ok ids,
         match o with
         | None =>
             add_log INFO ("Loaded existing feed with "
                           +:+ pretty (Z.of_nat (size ids)) +:+ " entries") w2
         | Some e =>
             set_feed (fun _ => [])
               (add_log INFO "Creating new feed"
                  (add_log ERROR ("Error loading existing feed: " +:+ str_exn e) w2))
         end).
Proof.
intros Hp Hparse [t Ht] [d Hd] Hlist.
destruct (listing_loop_Ok (pf_entries parsed_feed)
            (add_log INFO "Current feed contents:" (add_call (FeedParse feed_path) w)) Hlist)
  as (w0 & Hloop & Hfs0 & Hc0 & Hf0).
exists (set_feed (fun _ => []) w0).
split; [exact Hfs0|]. split; [reflexivity|]. split; [exact Hc0|].
intros ids o w2 Hload.
unfold load_existing_feed. unfold bind at 1, path_exists at 1. rewrite Hp.
unfold bind at 1. unfold try_except at 1. unfold bind at 1, external at 1.
cbn [calls add_call]. rewrite Hparse.
unfold bind at 1, log at 1. unfold bind at 1. rewrite Hloop.
unfold bind at 1, new_feed at 1.
unfold bind at 1, lift at 1. rewrite Ht. cbn [attr].
unfold bind at 1, lift at 1. rewrite Hd. cbn [attr].
rewrite Hload. cbn [snd fst]. destruct o; reflexivity.
Qed.

Lemma stored_entries_listable entries unique_ids :
Forall2 stored_entry entries unique_ids -> Forall listable entries.
Proof.
induction 1 as [|entry u entries us (Hid & Ht & _ & Hl & _) _ IH]; constructor; [|exact IH].
unfold listable. rewrite Hid. eauto.
Qed.

Lemma load_existing_feed_stored w parsed_feed unique_ids :
present w feed_path = true ->
feed_parse env (calls w ++ [FeedParse feed_path]) = Ok parsed_feed ->
is_Some (pf_title parsed_feed) -> is_Some (pf_description parsed_feed) ->
Forall2 stored_entry (pf_entries parsed_feed) unique_ids ->
exists w',
  load_existing_feed env output_base w
  = (Ok (list_to_set (PyStr <$> (before_hyphen <$> unique_ids))), w')
  /\ feed_ids w' = stored_ids unique_ids /\ fs w' = fs w.
Proof.
intros Hp Hparse Ht Hd Hst.
destruct (load_existing_feed_parsed w parsed_feed Hp Hparse Ht Hd
            (stored_entries_listable _ _ Hst)) as (w1 & Hfs1 & Hf1 & Hc1 & Hrun).
destruct (load_entries_stored (pf_entries parsed_feed) unique_ids [] ∅ w1 Hst)
  as (w2 & Hload & Hfs2 & Hc2 & Hlg2 & Hids2).
rewrite app_nil_r in Hload. cbn [load_entries] in Hload. unfold ret in Hload.
rewrite (right_id_L ∅ (∪)) in Hload.
eexists. split; [exact (Hrun _ _ _ Hload)|].
cbn [fs add_log]. split; [|congruence].
unfold feed_ids in *. cbn [feed add_log]. rewrite Hids2, Hf1. cbn [map]. apply app_nil_r.
Qed.

Lemma stored_ids_elem id unique_ids :
id ∈ stored_ids unique_ids <-> exists u, u ∈ unique_ids /\ id = Some ("pushpod-" +:+ u).
Proof.
unfold stored_ids. rewrite elem_of_reverse, list_elem_of_fmap. split; intros (u & H1 & H2); exists u; auto.
Qed.

Lemma stored_ids_NoDup unique_ids : NoDup unique_ids -> NoDup (stored_ids unique_ids).
Proof.
intros Hnd. unfold stored_ids. rewrite reverse_Permutation.
apply NoDup_fmap_2; [|exact Hnd].
intros u v [= H]. exact (String.app_inj _ _ _ H).
Qed.

Lemma before_hyphen_map_free unique_ids :
Forall (fun u => hyphen_free u = true) unique_ids -> before_hyphen <$> unique_ids = unique_ids.
Proof.
induction 1 as [|u us Hu _ IH]; [reflexivity|].
cbn [fmap list_fmap]. rewrite (before_hyphen_free u Hu). f_equal. exact IH.
Qed.

End StoredFeed.

(** A stored feed is read back completely when it parses, has its channel
    title and description and every entry is one that a registration under a
    unique id without hyphen left there (with title, description, link and
    date): the function returns exactly the set of these unique ids, and the
    new generator holds one entry per stored entry under its id
    [pushpod-<unique id>]. So the generator's ids are all covered by the
    returned set, and they are distinct when the unique ids are: the state the
    guard of the batch loop relies on. *)
Theorem load_existing_feed_round_trip env output_base w parsed_feed unique_ids :
  present w (Path.join output_base "feed.xml") = true ->
  feed_parse env (calls w ++ [FeedParse (Path.join output_base "feed.xml")]) = Ok parsed_feed ->
  is_Some (pf_title parsed_feed) -> is_Some (pf_description parsed_feed) ->
  Forall2 stored_entry (pf_entries parsed_feed) unique_ids ->
  Forall (fun u => hyphen_free u = true) unique_ids ->
  let run := load_existing_feed env output_base w in
  run.1 = Ok (list_to_set (PyStr <$> unique_ids))
  /\ feed_ids run.2 = stored_ids unique_ids
  /\ feed_covered run.2 (list_to_set (PyStr <$> unique_ids))
  /\ (NoDup unique_ids -> NoDup (feed_ids run.2)).
Proof.
  intros Hp Hparse Ht Hd Hst Hfree. cbv zeta.
  destruct (load_existing_feed_stored env output_base w parsed_feed unique_ids
              Hp Hparse Ht Hd Hst) as (w' & -> & Hids & _).
  cbn [fst snd]. rewrite (before_hyphen_map_free _ Hfree), Hids.
  split; [reflexivity|]. split; [reflexivity|]. split.
  - intros id Hid. rewrite Hids in Hid. apply stored_ids_elem in Hid as (u & Hu & ->).
    exists u. split; [reflexivity|]. apply elem_of_list_to_set. apply list_elem_of_fmap. eauto.
  - apply stored_ids_NoDup.
Qed.

Lemma load_existing_feed_round_trip_witness :
  let run := load_existing_feed archive_env "output" archive_world in
  run.1 = Ok (list_to_set (PyStr <$> ["nber_w1"; "zotero_AB12"]))
  /\ feed_ids run.2 = stored_ids ["nber_w1"; "zotero_AB12"]
  /\ feed_covered run.2 (list_to_set (PyStr <$> ["nber_w1"; "zotero_AB12"]))
  /\ (NoDup ["nber_w1"; "zotero_AB12"] -> NoDup (feed_ids run.2)).
Proof.
  apply (load_existing_feed_round_trip archive_env "output" archive_world archive_feed
           ["nber_w1"; "zotero_AB12"]).
  - reflexivity.
  - reflexivity.
  - cbn. eauto.
  - cbn. eauto.
  - repeat constructor; cbn; eauto.
  - repeat constructor.
Defined.

(** The unique id of a stored entry is read back by [entry.id.split('-')[1]],
    which stops at the first hyphen of the unique id. A document whose unique
    id contains a hyphen is therefore recorded under the truncated id: the
    returned set does not contain its unique id, and the membership test of the
    batch loop answers [False] for it although its episode is in the feed. *)
Theorem load_existing_feed_truncates_ids env output_base w parsed_feed unique_ids :
  present w (Path.join output_base "feed.xml") = true ->
  feed_parse env (calls w ++ [FeedParse (Path.join output_base "feed.xml")]) = Ok parsed_feed ->
  is_Some (pf_title parsed_feed) -> is_Some (pf_description parsed_feed) ->
  Forall2 stored_entry (pf_entries parsed_feed) unique_ids ->
  let run := load_existing_feed env output_base w in
  let existing_ids : gset pyval := list_to_set (PyStr <$> (before_hyphen <$> unique_ids)) in
  run.1 = Ok existing_ids
  /\ feed_ids run.2 = stored_ids unique_ids
  /\ forall u, u ∈ unique_ids ->
       Some ("pushpod-" +:+ u) ∈ feed_ids run.2
       /\ set_contains existing_ids (PyStr u) = Ok (hyphen_free u).
Proof.
  intros Hp Hparse Ht Hd Hst. cbv zeta.
  destruct (load_existing_feed_stored env output_base w parsed_feed unique_ids
              Hp Hparse Ht Hd Hst) as (w' & -> & Hids & _).
  cbn [fst snd]. split; [reflexivity|]. split; [exact Hids|].
  intros u Hu. split.
  - rewrite Hids. apply stored_ids_elem. eauto.
  - cbn [set_contains]. f_equal. destruct (hyphen_free u) eqn:Hfree.
    + apply bool_decide_eq_true. apply elem_of_list_to_set, list_elem_of_fmap.
      exists u. split; [reflexivity|]. apply list_elem_of_fmap.
      exists u. split; [symmetry; exact (before_hyphen_free u Hfree) | exact Hu].
    + apply bool_decide_eq_false. intros Hin.
      apply elem_of_list_to_set, list_elem_of_fmap in Hin as (v & [= ->] & Hv).
      apply list_elem_of_fmap in Hv as (x & -> & _).
      rewrite before_hyphen_is_free in Hfree. discriminate.
Qed.

Lemma load_existing_feed_truncates_ids_witness :
  let run := load_existing_feed hyphen_env "output" archive_world in
  let existing_ids : gset pyval :=
    list_to_set (PyStr <$> (before_hyphen <$> ["nber_w1"; "arxiv_2401-00001"])) in
  run.1 = Ok existing_ids
  /\ feed_ids run.2 = stored_ids ["nber_w1"; "arxiv_2401-00001"]
  /\ forall u, u ∈ ["nber_w1"; "arxiv_2401-00001"] ->
       Some ("pushpod-" +:+ u) ∈ feed_ids run.2
       /\ set_contains existing_ids (PyStr u) = Ok (hyphen_free u).
Proof.
  apply (load_existing_feed_truncates_ids hyphen_env "output" archive_world hyphen_feed
           ["nber_w1"; "arxiv_2401-00001"]).
  - reflexivity.
  - reflexivity.
  - cbn. eauto.
  - cbn. eauto.
  - repeat constructor; cbn; eauto.
Defined.

(** After a stored feed with a hyphenated unique id was loaded, the batch
    loop does not recognise the document and registers it once more. *)
Example hyphenated_id_is_registered_again :
  before_hyphen "arxiv_2401-00001" = "arxiv_2401"
  /\ set_contains (list_to_set (PyStr <$> (before_hyphen <$> ["nber_w1"; "arxiv_2401-00001"])))
       (PyStr "arxiv_2401-00001") = Ok false.
Proof. split; vm_compute; reflexivity. Qed.

Lemma unhyphenated_id_fails id :
  hyphen_free id = true ->
  py_getitem (str_split "-" id) 1 = Raise (Exn IndexError "list index out of range").
Proof.
  intros Hid. unfold str_split. rewrite split_on_free by exact Hid. reflexivity.
Qed.

(** When copying the stored entries fails half way, here at an entry whose id
    has no hyphen, so that [entry.id.split('-')[1]] raises [IndexError], the
    error is logged and the function returns a new generator without entries;
    but the set it returns still holds the ids collected from the entries
    before the failure. The batch loop will skip these documents although the
    feed no longer lists them. *)
Theorem load_existing_feed_failure_keeps_ids env output_base w parsed_feed
    good unique_ids bad more id :
  present w (Path.join output_base "feed.xml") = true ->
  feed_parse env (calls w ++ [FeedParse (Path.join output_base "feed.xml")]) = Ok parsed_feed ->
  is_Some (pf_title parsed_feed) -> is_Some (pf_description parsed_feed) ->
  pf_entries parsed_feed = good ++ bad :: more ->
  Forall2 stored_entry good unique_ids ->
  Forall listable (bad :: more) ->
  pe_id bad = Some id -> hyphen_free id = true ->
  let run := load_existing_feed env output_base w in
  run.1 = Ok (list_to_set (PyStr <$> (before_hyphen <$> unique_ids)))
  /\ feed run.2 = []
  /\ (ERROR, "Error loading existing feed: list index out of range") ∈ logs run.2.
Proof.
  intros Hp Hparse Ht Hd Hentries Hst Hlist Hid Hfree. cbv zeta.
  assert (Hall : Forall listable (pf_entries parsed_feed)).
  { rewrite Hentries. apply Forall_app. split; [|exact Hlist].
    exact (stored_entries_listable _ _ Hst). }
  destruct (load_existing_feed_parsed env output_base w parsed_feed Hp Hparse Ht Hd Hall)
    as (w1 & Hfs1 & Hf1 & Hc1 & Hrun).
  destruct (load_entries_stored good unique_ids (bad :: more) ∅ w1 Hst)
    as (w2 & Hload & Hfs2 & Hc2 & Hlg2 & Hids2).
  rewrite <- Hentries in Hload. rewrite (right_id_L ∅ (∪)) in Hload.
  cbn [load_entries] in Hload. rewrite Hid in Hload. cbn [attr rbind] in Hload.
  rewrite (unhyphenated_id_fails id Hfree) in Hload. cbn [rbind] in Hload.
  unfold ret in Hload.
  rewrite (Hrun _ _ _ Hload). cbn [fst snd feed set_feed logs add_log].
  split; [reflexivity|]. split; [reflexivity|].
  apply elem_of_app. left. apply elem_of_app. right. apply list_elem_of_singleton. reflexivity.
Qed.

Lemma load_existing_feed_failure_keeps_ids_witness :
  let run := load_existing_feed mixed_env "output" archive_world in
  run.1 = Ok (list_to_set (PyStr <$> (before_hyphen <$> ["nber_w1"; "zotero_AB12"])))
  /\ feed run.2 = []
  /\ (ERROR, "Error loading existing feed: list index out of range") ∈ logs run.2.
Proof.
  apply (load_existing_feed_failure_keeps_ids mixed_env "output" archive_world mixed_feed
           (pf_entries archive_feed) ["nber_w1"; "zotero_AB12"] foreign_entry [] "episode7").
  - reflexivity.
  - reflexivity.
  - cbn. eauto.
  - cbn. eauto.
  - reflexivity.
  - repeat constructor; cbn; eauto.
  - repeat constructor; cbn; eauto.
  - reflexivity.
  - reflexivity.
Defined.

(** [load_existing_feed] never raises and never changes the file system:
    whatever goes wrong while the stored feed is parsed, listed or copied, it
    returns a set of ids. Unless the whole stored feed was copied, which it
    reports in the log, the generator it leaves is a new one without entries;
    without a feed file it returns the empty set and makes no call. *)
Theorem load_existing_feed_never_raises env output_base w :
  let run := load_existing_feed env output_base w in
  is_Ok run.1 = true
  /\ fs run.2 = fs w
  /\ (feed run.2 = []
      \/ exists n, last (logs run.2)
                   = Some (INFO, "Loaded existing feed with " +:+ n +:+ " entries"))
  /\ (present w (Path.join output_base "feed.xml") = false ->
      run.1 = Ok ∅ /\ feed run.2 = [] /\ calls run.2 = calls w).
Proof.
  cbv zeta. destruct (load_existing_feed env output_base w) as [r w'] eqn:H. cbn [fst snd].
  unfold load_existing_feed in H. unfold bind at 1, path_exists at 1 in H.
  destruct (present w (Path.join output_base "feed.xml")) eqn:Hp.
  2:{ unfold bind, log, initialize_rss_feed, new_feed, ret in H. inversion H; subst.
      cbn. repeat split; auto. }
  unfold bind at 1 in H.
  match type of H with
  | context [try_except ?b ?h ?w0] =>
      assert (Htry : exists ids o w1, try_except b h w0 = (Ok (ids, o), w1) /\ fs w1 = fs w0)
  end.
  { unfold try_except. unfold bind at 1, external at 1.
    destruct (feed_parse env _) as [parsed_feed|e];
      [|eexists _, _, _; split; reflexivity].
    unfold bind at 1, log at 1. unfold bind at 1.
    match goal with
    | |- context [for_each ?l ?body ?w0] =>
        destruct (for_each l body w0) as [[[]|e] w2] eqn:Eloop;
        pose proof (listing_loop_frame fs l (fun _ _ _ => eq_refl) _ _ _ Eloop) as Hfs2
    end; cbn [fs add_log add_call] in Hfs2;
      [|eexists _, _, _; split; [reflexivity | exact Hfs2]].
    unfold bind at 1, new_feed at 1. unfold bind at 1, lift at 1.
    destruct (pf_title parsed_feed); cbn [attr];
      [|eexists _, _, _; split; [reflexivity | exact Hfs2]].
    unfold bind at 1, lift at 1.
    destruct (pf_description parsed_feed); cbn [attr];
      [|eexists _, _, _; split; [reflexivity | exact Hfs2]].
    destruct (load_entries_total (pf_entries parsed_feed) ∅ (set_feed (fun _ => []) w2))
      as (ids & o & w3 & -> & Hfs3 & _).
    eexists _, _, _. split; [reflexivity|]. rewrite Hfs3. exact Hfs2. }
  destruct Htry as (ids & o & w1 & Htry & Hfs). rewrite Htry in H. cbn [fst snd] in H.
  destruct o as [e|]; unfold bind, log, initialize_rss_feed, new_feed, ret in H;
    inversion H; subst; cbn [fs feed logs set_feed add_log is_Ok].
  - split; [reflexivity|]. split; [exact Hfs|]. split; [left; reflexivity | discriminate].
  - split; [reflexivity|]. split; [exact Hfs|]. split; [|discriminate].
    right. eexists. apply last_snoc.
Qed.

(** ** The shape of a cleaned text *)

Section CleanShape.

Import Text.

Lemma space_is_space : is_space " " = true.
Proof. reflexivity. Qed.

Lemma not_space_neq c : is_space c = false -> Ascii.eqb c " " = false.
Proof.
intros Hc. destruct (Ascii.eqb_spec c " ") as [->|]; [discriminate Hc | reflexivity].
Qed.

Lemma word_char_neq c : is_word_char c = true -> Ascii.eqb c " " = false.
Proof.
unfold is_word_char. intros H. apply andb_true_iff in H as [_ H].
apply negb_true_iff in H. exact (not_space_neq c H).
Qed.

Lemma sub_special_kept l : Forall (fun c => is_kept c = true) (sub_special l).
Proof.
induction l as [|c l IH]; [constructor|]. cbn [sub_special map]. constructor; [|exact IH].
destruct (is_kept c) eqn:E; [exact E | reflexivity].
Qed.

Lemma sub_spaces_spaced l : forall b,
Forall (fun c => is_kept c = true) l -> spaced b (sub_spaces b l) = true.
Proof.
induction l as [|c l IH]; intros b H; [reflexivity|].
inversion H as [|? ? Hc Hl]; subst. cbn [sub_spaces].
destruct (is_space c) eqn:Es.
- destruct b; [exact (IH true Hl)|].
  cbn [spaced]. change (Ascii.eqb " " " ") with true. cbn [negb andb]. exact (IH true Hl).
- cbn [spaced]. rewrite (not_space_neq c Es). unfold is_word_char. rewrite Hc, Es.
  cbn [negb andb]. exact (IH false Hl).
Qed.

Lemma spaced_weaken l b : spaced true l = true -> spaced b l = true.
Proof.
destruct l as [|c l]; [reflexivity|]. cbn [spaced].
destruct (Ascii.eqb c " "); [discriminate | auto].
Qed.

Lemma lstrip_spaced l : forall b, spaced b l = true -> spaced true (lstrip l) = true.
Proof.
induction l as [|c l IH]; intros b H; [reflexivity|]. cbn [lstrip]. cbn [spaced] in H.
destruct (Ascii.eqb_spec c " ") as [->|Hne].
- rewrite space_is_space. apply andb_true_iff in H as [_ H]. exact (IH true H).
- apply andb_true_iff in H as [Hw Hl].
  assert (Hs : is_space c = false).
  { unfold is_word_char in Hw. apply andb_true_iff in Hw as [_ Hw].
    apply negb_true_iff in Hw. exact Hw. }
  rewrite Hs. cbn [spaced]. rewrite (word_char_neq c Hw), Hw, Hl. reflexivity.
Qed.

Lemma rstrip_spaced l : forall b, spaced b l = true -> spaced b (rstrip l) = true.
Proof.
induction l as [|c l IH]; intros b H; [reflexivity|]. cbn [rstrip]. cbn [spaced] in H.
destruct (Ascii.eqb_spec c " ") as [->|Hne].
- apply andb_true_iff in H as [Hb H]. specialize (IH true H).
  destruct (rstrip l) as [|x r]; [reflexivity|].
  cbn [spaced] in IH |- *. change (Ascii.eqb " " " ") with true. cbn iota.
  rewrite Hb. exact IH.
- apply andb_true_iff in H as [Hw Hl]. specialize (IH false Hl).
  assert (Hs : is_space c = false).
  { unfold is_word_char in Hw. apply andb_true_iff in Hw as [_ Hw].
    apply negb_true_iff in Hw. exact Hw. }
  destruct (rstrip l) as [|x r].
  + rewrite Hs. cbn [spaced]. rewrite (word_char_neq c Hw), Hw. reflexivity.
  + cbn [spaced] in IH |- *. rewrite (word_char_neq c Hw), Hw. exact IH.
Qed.

Lemma rstrip_last l : forall c, last (rstrip l) = Some c -> is_space c = false.
Proof.
induction l as [|a l IH]; intros c; [discriminate|]. cbn [rstrip].
destruct (rstrip l) as [|x r].
- destruct (is_space a) eqn:Ea; [discriminate|]. intros [= <-]. exact Ea.
- intros H. apply IH. exact H.
Qed.

Lemma rstrip_id l : (forall c, last l = Some c -> is_space c = false) -> rstrip l = l.
Proof.
induction l as [|a l IH]; intros H; [reflexivity|]. cbn [rstrip].
destruct l as [|x l'].
- cbn [rstrip]. rewrite (H a eq_refl). reflexivity.
- rewrite IH; [reflexivity|]. intros c Hc. apply H. exact Hc.
Qed.

Lemma lstrip_id l : spaced true l = true -> lstrip l = l.
Proof.
destruct l as [|c l]; [reflexivity|]. cbn [spaced lstrip].
destruct (Ascii.eqb c " ") eqn:E; [discriminate|]. intros H.
apply andb_true_iff in H as [Hw _]. unfold is_word_char in Hw.
apply andb_true_iff in Hw as [_ Hw]. apply negb_true_iff in Hw. rewrite Hw. reflexivity.
Qed.

Lemma sub_spaces_id l : forall b, spaced b l = true -> sub_spaces b l = l.
Proof.
induction l as [|c l IH]; intros b H; [reflexivity|]. cbn [sub_spaces]. cbn [spaced] in H.
destruct (Ascii.eqb_spec c " ") as [->|Hne].
- rewrite space_is_space. apply andb_true_iff in H as [Hb H].
  apply negb_true_iff in Hb. subst b. rewrite (IH true H). reflexivity.
- apply andb_true_iff in H as [Hw Hl]. unfold is_word_char in Hw.
  apply andb_true_iff in Hw as [_ Hw]. apply negb_true_iff in Hw. rewrite Hw.
  rewrite (IH false Hl). reflexivity.
Qed.

Lemma spaced_chars l : forall b,
spaced b l = true -> Forall (fun c => is_word_char c = true \/ c = " "%char) l.
Proof.
induction l as [|c l IH]; intros b H; [constructor|]. cbn [spaced] in H.
destruct (Ascii.eqb_spec c " ") as [->|Hne]; apply andb_true_iff in H as [H1 H2].
- constructor; [right; reflexivity | exact (IH true H2)].
- constructor; [left; exact H1 | exact (IH false H2)].
Qed.

Lemma spaced_sub_special_id l : forall b, spaced b l = true -> sub_special l = l.
Proof.
intros b H. apply spaced_chars in H. unfold sub_special.
induction H as [|c l Hc _ IH]; [reflexivity|]. cbn [map]. rewrite IH. f_equal.
destruct Hc as [Hw| ->]; [|reflexivity].
unfold is_word_char in Hw. apply andb_true_iff in Hw as [-> _]. reflexivity.
Qed.

Lemma spaced_free a l : forall b new,
is_word_char a = false -> a <> " "%char -> spaced b l = true ->
flat_map (expand a new) l = l.
Proof.
intros b new Ha Hsp H. apply spaced_chars in H.
induction H as [|c l Hc _ IH]; [reflexivity|]. cbn [flat_map].
rewrite IH. unfold expand.
destruct (Ascii.eqb_spec a c) as [->|Hne]; [|reflexivity].
destruct Hc as [Hw| ->]; [congruence | contradiction].
Qed.

Lemma spaced_no_double_space l : forall b,
spaced b l = true -> occurrences [" "; " "]%char l = 0%nat.
Proof.
induction l as [|c l IH]; intros b H; [reflexivity|]. cbn [occurrences].
cbn [spaced] in H.
destruct (Ascii.eqb_spec c " ") as [->|Hne]; apply andb_true_iff in H as [H1 H2].
- rewrite (IH true H2). cbn [starts_with]. change (Ascii.eqb " " " ") with true.
  destruct l as [|x l]; [reflexivity|]. cbn [spaced] in H2. cbn [starts_with andb].
  destruct (Ascii.eqb_spec x " ") as [->|Hx]; [discriminate H2|].
  destruct (Ascii.eqb_spec " " x) as [<-|_]; [contradiction | reflexivity].
- rewrite (IH false H2). cbn [starts_with].
  destruct (Ascii.eqb_spec " " c) as [<-|_]; [contradiction | reflexivity].
Qed.

(** What the three last steps of [clean_text] return. *)
Lemma cleaned_spaced l :
let cleaned := strip (sub_spaces false (sub_special l)) in
spaced true cleaned = true /\ forall c, last cleaned = Some c -> is_space c = false.
Proof.
cbv zeta. unfold strip. split.
- apply rstrip_spaced. apply (lstrip_spaced _ false). apply sub_spaces_spaced.
  apply sub_special_kept.
- apply rstrip_last.
Qed.

End CleanShape.

(** Whatever the input, the text [clean_text] returns is made of letters,
    digits, the punctuation marks [. , ! ? ' -] and single spaces only: no
    other character and no other white space is left, no two spaces follow
    each other, and the text neither starts nor ends with a space. *)
Theorem clean_text_shape (text : string) :
  let cleaned := list_ascii_of_string (clean_text text) in
  Forall (fun c => is_word_char c = true \/ c = " "%char) cleaned
  /\ count_occurrences "  " (clean_text text) = 0%nat
  /\ head cleaned <> Some " "%char
  /\ last cleaned <> Some " "%char.
Proof.
  cbv zeta. unfold count_occurrences, clean_text. cbv zeta.
  rewrite list_ascii_of_string_of_list_ascii.
  match goal with
  | |- context [Text.strip (Text.sub_spaces false (Text.sub_special ?l))] =>
      destruct (cleaned_spaced l) as [Hsp Hlast];
      set (cleaned := Text.strip (Text.sub_spaces false (Text.sub_special l))) in *
  end.
  split; [exact (spaced_chars _ _ Hsp)|].
  split; [exact (spaced_no_double_space _ _ Hsp)|].
  split.
  - destruct cleaned as [|c l]; [discriminate|]. cbn [spaced] in Hsp. intros [= ->].
    discriminate Hsp.
  - intros H. apply Hlast in H. discriminate H.
Qed.

(** Cleaning a text that is already clean changes nothing: [clean_text] is
    idempotent. *)
Theorem clean_text_idempotent (text : string) :
  clean_text (clean_text text) = clean_text text.
Proof.
  destruct (cleaned_spaced
              (list_ascii_of_string (str_replace "*" " " (str_replace "%" " percent" text))))
    as [Hsp Hlast].
  set (cleaned := Text.strip _) in *.
  change (clean_text text) with (string_of_list_ascii cleaned).
  unfold clean_text. cbv zeta. f_equal. unfold str_replace.
  rewrite !list_ascii_of_string_of_list_ascii.
  change (list_ascii_of_string "%") with ["%"%char].
  change (list_ascii_of_string "*") with ["*"%char].
  rewrite !TextFacts.replace_single.
  rewrite (spaced_free "%" cleaned true _ eq_refl ltac:(discriminate) Hsp).
  rewrite (spaced_free "*" cleaned true _ eq_refl ltac:(discriminate) Hsp).
  rewrite (spaced_sub_special_id _ _ Hsp).
  rewrite (sub_spaces_id _ false (spaced_weaken _ false Hsp)).
  unfold Text.strip. rewrite (lstrip_id _ Hsp). exact (rstrip_id _ Hlast).
Qed.

(** ** The name of the output file *)

Lemma split_on_app sep a b :
  Path.split_on sep (a ++ sep :: b) = Path.split_on sep a ++ Path.split_on sep b.
Proof.
  induction a as [|c a IH]; cbn.
  - rewrite Ascii.eqb_refl. reflexivity.
  - destruct (Ascii.eqb c sep); [rewrite IH; reflexivity|].
    rewrite IH. destruct (Path.split_on sep a) as [|h t] eqn:E;
      [exfalso; exact (split_on_nonempty _ _ E)|].
    reflexivity.
Qed.

Lemma py_getitem_from_end {A} (l : list A) (a b c : A) :
  py_getitem (l ++ [a; b; c]) (-3) = Ok a /\ py_getitem (l ++ [a; b; c]) (-2) = Ok b.
Proof.
  unfold py_getitem. rewrite length_app. cbn [length].
  change (-3 <? 0) with true. change (-2 <? 0) with true. cbn iota.
  destruct (Z.ltb_spec (-3 + Z.of_nat (length l + 3)) 0); [lia|].
  destruct (Z.ltb_spec (-2 + Z.of_nat (length l + 3)) 0); [lia|].
  replace (Z.to_nat (-3 + Z.of_nat (length l + 3))) with (length l + 0)%nat by lia.
  replace (Z.to_nat (-2 + Z.of_nat (length l + 3))) with (length l + 1)%nat by lia.
  rewrite !lookup_app_r by lia.
  replace (length l + 0 - length l)%nat with 0%nat by lia.
  replace (length l + 1 - length l)%nat with 1%nat by lia.
  split; reflexivity.
Qed.

Lemma py_getitem_short {A} (l : list A) :
  (length l < 3)%nat ->
  py_getitem l (-3) = Raise (Exn IndexError "list index out of range").
Proof.
  intros H. unfold py_getitem. change (-3 <? 0) with true. cbn iota.
  destruct (Z.ltb_spec (-3 + Z.of_nat (length l)) 0); [reflexivity | lia].
Qed.

Lemma parts_of_stored dir source paper_id file :
  path_component source -> path_component paper_id -> path_component file ->
  exists front,
    Path.parts (dir +:+ "/" +:+ source +:+ "/" +:+ paper_id +:+ "/" +:+ file)
    = front ++ [source; paper_id; file].
Proof.
  intros (Hs & _ & Hs') (Hp & _ & Hp') (Hf & _ & Hf').
  unfold Path.parts, Path.chars. rewrite !list_ascii_of_string_app.
  change (list_ascii_of_string "/") with [Path.slash]. cbn [app].
  rewrite !split_on_app. rewrite (split_on_free _ _ Hs'), (split_on_free _ _ Hp'),
    (split_on_free _ _ Hf').
  rewrite !List.filter_app, !map_app.
  assert (Hne : forall n : string, n <> "" ->
    map string_of_list_ascii
      (List.filter (fun x : list ascii => match x with [] => false | _ => true end)
         [list_ascii_of_string n]) = [n]).
  { intros n Hn. destruct n as [|c n]; [contradiction|]. cbn.
    rewrite string_of_list_ascii_of_string. reflexivity. }
  rewrite (Hne _ Hs), (Hne _ Hp), (Hne _ Hf).
  eexists. rewrite app_assoc. reflexivity.
Qed.

Lemma mkdir_parents_error p w e w' :
  mkdir_parents p w = (Raise e, w') -> is_OSError e = true.
Proof.
  unfold mkdir_parents. generalize (Path.ancestors p). intros l. revert w.
  induction l as [|x l IH]; intros w E1; simpl in E1; [discriminate|].
  destruct (bind_cases _ _ _ _ _ E1) as [([] & w1 & Ea & Eb)|(e' & Ea & [= ->])].
  - exact (IH _ Eb).
  - unfold mkdir_exist_ok in Ea. destruct (Path.is_base x); [discriminate|].
    destruct (fs w !! x) as [[]|]; try discriminate.
    + inversion Ea; reflexivity.
    + destruct (is_dir w (Path.parent x)); [discriminate|]. inversion Ea; reflexivity.
Qed.

(** [get_output_path] names the audio file after the third-last and
    second-last components of the input path: for a document stored as
    [<dir>/<source>/<paper_id>/<file>] it returns
    [<output_base>/NBER_Papers/<source>_<paper_id>.wav], whatever the source
    is, unless creating the directory fails with an [OSError]. It makes no
    call, leaves the feed alone and keeps every file. *)
Theorem get_output_path_of_stored dir source paper_id file output_base w :
  let input_path := dir +:+ "/" +:+ source +:+ "/" +:+ paper_id +:+ "/" +:+ file in
  let run := get_output_path input_path output_base w in
  path_component source -> path_component paper_id -> path_component file ->
  (run.1 = Ok (Path.join (Path.join output_base "NBER_Papers")
                 ((source +:+ "_" +:+ paper_id) +:+ ".wav"))
   \/ exists e, run.1 = Raise e /\ is_OSError e = true)
  /\ calls run.2 = calls w /\ feed run.2 = feed w
  /\ (forall k n, fs w !! k = Some n -> fs run.2 !! k = Some n).
Proof.
  cbv zeta. intros Hs Hp Hf.
  destruct (parts_of_stored dir source paper_id file Hs Hp Hf) as [front Hparts].
  destruct (get_output_path _ output_base w) as [r w'] eqn:H. cbn [fst snd].
  unfold get_output_path in H. rewrite Hparts in H.
  destruct (py_getitem_from_end front source paper_id file) as [H3 H2].
  unfold bind at 1, lift at 1 in H. rewrite H3 in H.
  unfold bind at 1, lift at 1 in H. rewrite H2 in H.
  destruct (bind_cases _ _ _ _ _ H) as [([] & w1 & E1 & E2)|(e & E1 & ->)].
  - unfold ret in E2. inversion E2; subst. split; [left; reflexivity|].
    split; [exact (preserves_mkdir_parents calls (fun _ _ => eq_refl) _ _ _ _ E1)|].
    split; [exact (preserves_mkdir_parents feed (fun _ _ => eq_refl) _ _ _ _ E1)|].
    intros k n Hk. exact (mkdir_parents_keeps _ _ _ _ _ _ E1 Hk).
  - split.
    + right. exists e. split; [reflexivity|]. exact (mkdir_parents_error _ _ _ _ E1).
    + split; [exact (preserves_mkdir_parents calls (fun _ _ => eq_refl) _ _ _ _ E1)|].
      split; [exact (preserves_mkdir_parents feed (fun _ _ => eq_refl) _ _ _ _ E1)|].
      intros k n Hk. exact (mkdir_parents_keeps _ _ _ _ _ _ E1 Hk).
Qed.

Lemma get_output_path_of_stored_witness :
  let run := get_output_path "Data/papers/zotero/AB12CD34/paper.pdf" "output" empty_world in
  (run.1 = Ok "output/NBER_Papers/zotero_AB12CD34.wav"
   \/ exists e, run.1 = Raise e /\ is_OSError e = true)
  /\ calls run.2 = calls empty_world /\ feed run.2 = feed empty_world
  /\ (forall k n, fs empty_world !! k = Some n -> fs run.2 !! k = Some n).
Proof.
  apply (get_output_path_of_stored "Data/papers" "zotero" "AB12CD34" "paper.pdf" "output"
           empty_world); repeat split; discriminate.
Defined.

(** An input path with fewer than three components makes [get_output_path]
    raise [IndexError] before anything is created. *)
Theorem get_output_path_short input_path output_base w :
  (length (Path.parts input_path) < 3)%nat ->
  get_output_path input_path output_base w
  = (Raise (Exn IndexError "list index out of range"), w).
Proof.
  intros H. unfold get_output_path, bind, lift. rewrite (py_getitem_short _ H). reflexivity.
Qed.

Lemma get_output_path_short_witness :
  get_output_path "w1/paper.pdf" "output" empty_world
  = (Raise (Exn IndexError "list index out of range"), empty_world).
Proof. apply get_output_path_short. vm_compute. lia. Defined.

(** ** A failed run leaves no partial episode *)

Lemma leads_to_bind {A B} (Q P : World -> Prop) (m : M A) (k : A -> M B) :
  keeps Q m -> (forall w, Q w -> P w) -> (forall a, leads_to Q P (k a)) ->
  leads_to Q P (bind m k).
Proof.
  intros Hm HQP Hk w r w' H HQ.
  destruct (bind_cases _ _ _ _ _ H) as [(a & w1 & E1 & E2)|(e & E1 & _)].
  - exact (Hk a _ _ _ E2 (Hm _ _ _ E1 HQ)).
  - exact (HQP _ (Hm _ _ _ E1 HQ)).
Qed.

Lemma leads_to_keeps {A} (Q P : World -> Prop) (m : M A) :
  keeps Q m -> (forall w, Q w -> P w) -> leads_to Q P m.
Proof. intros Hm HQP w r w' H HQ. exact (HQP _ (Hm _ _ _ H HQ)). Qed.

Lemma keeps_of_preserves_fs {A} (Q : gmap string node -> Prop) (m : M A) :
  preserves fs m -> keeps (fun w => Q (fs w)) m.
Proof. intros Hm w r w' H HQ. rewrite (Hm _ _ _ H). exact HQ. Qed.

Lemma strip_prefix_app a b : Path.strip_prefix a (a ++ b) = Some b.
Proof.
  induction a as [|c a IH]; [destruct b; reflexivity|]. cbn. rewrite Ascii.eqb_refl. exact IH.
Qed.

Lemma is_under_join d n : String.prefix "/" n = false -> Path.is_under d (Path.join d n) = true.
Proof.
  intros Hn. unfold Path.join, Path.is_under, Path.chars. rewrite Hn.
  rewrite !list_ascii_of_string_app. change (list_ascii_of_string "/") with [Path.slash].
  rewrite app_assoc, strip_prefix_app. reflexivity.
Qed.

Lemma mkdir_exist_ok_other p k w r w' :
  mkdir_exist_ok p w = (r, w') -> p <> k -> fs w' !! k = fs w !! k.
Proof.
  unfold mkdir_exist_ok. destruct (Path.is_base p); [intros [= <- <-]; auto|].
  destruct (fs w !! p) as [[]|] eqn:Ep; try (intros [= <- <-]; auto).
  destruct (is_dir w (Path.parent p)); intros [= <- <-]; [|auto].
  intros Hne. cbn. apply lookup_insert_ne. exact Hne.
Qed.

Lemma generate_audio_other env text voice path k w r w' :
  generate_audio env text voice path w = (r, w') -> path <> k -> fs w' !! k = fs w !! k.
Proof.
  unfold generate_audio. destruct (negb _); [intros [= <- <-]; auto|].
  intros H Hne.
  destruct (bind_cases _ _ _ _ _ H) as [(a & w1 & E1 & E2)|(e & E1 & _)];
    unfold external in E1; inversion E1; subst; [|reflexivity].
  destruct (bind_cases _ _ _ _ _ E2) as [(a' & w2 & E3 & E4)|(e & E3 & _)];
    unfold lift in E3; inversion E3; subst; [|reflexivity].
  unfold sf_write in E4. cbn [fs add_call] in E4.
  destruct (negb _); [inversion E4; reflexivity|].
  destruct (fs w !! path) as [[[] ?|]|]; inversion E4; subst; cbn; try reflexivity;
    apply lookup_insert_ne; exact Hne.
Qed.

Section Retry.

Variable env : Env.
Variable output_path : string.

Hypothesis relative : String.prefix "/" output_path = false.
Hypothesis outside : Path.is_under "temp_audio" output_path = false.
Hypothesis not_temp : output_path <> "temp_audio".

Local Abbreviation absent := (fun w : World => fs w !! output_path = None).

Lemma segment_file_neq n : Path.join "temp_audio" n <> output_path.
Proof.
intros Heq. destruct (String.prefix "/" n) eqn:Hn.
- unfold Path.join in Heq. rewrite Hn in Heq. subst n. congruence.
- pose proof (is_under_join "temp_audio" n Hn) as Hu. rewrite Heq in Hu. congruence.
Qed.

Ltac fs_frame_step :=
match goal with
| |- preserves _ (get_structured_metadata _ _) =>
    apply get_structured_metadata_frame; reflexivity
| |- preserves _ (get_high_school_summary _ _ _) =>
    apply get_high_school_summary_frame; reflexivity
| |- preserves _ (get_all_section_bullets_at_once _ _) =>
    apply get_all_section_bullets_at_once_frame; reflexivity
| |- preserves _ (get_background_overview _ _) =>
    apply get_background_overview_frame; reflexivity
| |- preserves _ (get_final_takeaways _ _) =>
    apply get_final_takeaways_frame; reflexivity
| |- preserves _ (generate_section_details _ _ _ _) =>
    apply generate_section_details_frame; reflexivity
| _ => frame_step
end.

Lemma keeps_absent_generate_audio text voice n :
keeps absent (generate_audio env text voice (Path.join "temp_audio" n)).
Proof.
intros w r w' H HQ. cbv beta in *.
rewrite (generate_audio_other _ _ _ _ output_path _ _ _ H (segment_file_neq n)). exact HQ.
Qed.

Lemma keeps_absent_frame {A} (m : M A) : preserves fs m -> keeps absent m.
Proof. exact (keeps_of_preserves_fs (fun f => f !! output_path = None) m). Qed.

Lemma keeps_absent_bind {A B} (m : M A) (k : A -> M B) :
keeps absent m -> (forall a, keeps absent (k a)) -> keeps absent (bind m k).
Proof. intros Hm Hk. apply (leads_to_bind absent absent); auto. Qed.

Lemma keeps_absent_section_loop pdf_path voices todo :
forall st, keeps absent (section_loop env pdf_path "temp_audio" voices todo st).
Proof.
induction todo as [|section rest IH]; intros st; simpl.
- apply keeps_absent_frame. frame.
- apply keeps_absent_bind; [apply keeps_absent_frame; frame | intros _].
  apply keeps_absent_bind; [apply keeps_absent_frame; frame | intros next].
  apply keeps_absent_bind; [apply keeps_absent_frame; repeat fs_frame_step | intros content].
  apply keeps_absent_bind; [apply keeps_absent_generate_audio | intros _].
  apply keeps_absent_bind; [apply keeps_absent_frame; frame | intros _].
  apply IH.
Qed.

Ltac absent_step :=
match goal with
| |- keeps _ (mkdir_exist_ok _) =>
    let H := fresh in let HQ := fresh in
    intros ? ? ? H HQ; cbv beta in *;
    rewrite (mkdir_exist_ok_other _ output_path _ _ _ H); [exact HQ | congruence]
| |- keeps _ (generate_audio _ _ _ _) => apply keeps_absent_generate_audio
| |- keeps _ (section_loop _ _ _ _ _ _) => apply keeps_absent_section_loop
| |- keeps _ _ => apply keeps_absent_frame; repeat fs_frame_step
end.

(** Started without an episode at the output path, [make_podcast] ends,
  whether it returns or raises, with the path still empty or with the
  complete episode there. *)
Lemma make_podcast_output pdf_path metadata_dict summary_sentences :
leads_to absent (fun w => absent w \/ episode_at output_path w)
  (make_podcast env pdf_path output_path metadata_dict summary_sentences).
Proof.
assert (HQP : forall w, absent w -> absent w \/ episode_at output_path w) by auto.
unfold make_podcast.
apply leads_to_bind; [absent_step | exact HQP | intros skip; cbv beta zeta].
destruct skip; [apply leads_to_keeps; [absent_step | exact HQP]|].
do 19 (apply leads_to_bind; [absent_step | exact HQP | intros ?; cbv beta zeta]).
intros w r w' H HQ.
destruct (bind_cases _ _ _ _ _ H) as [([] & w1 & E1 & E2)|(e & E1 & ->)].
- destruct (combine_audio_files_outcome env _ _ _ _ _ _ E1) as [_ Hout].
  right. destruct Hout as [data Hdata]. exists data.
  destruct (cleanup_frame _ _ _ _ E2) as (_ & _ & Hfs).
  rewrite Hfs; [exact Hdata | | exact not_temp].
  destruct (Path.is_child "temp_audio" output_path) eqn:Hc; [|reflexivity].
  apply is_child_under in Hc. congruence.
- destruct (combine_audio_files_outcome env _ _ _ _ _ _ E1) as [_ Hout].
  left. cbv beta. rewrite Hout. exact HQ.
Qed.

End Retry.

Lemma plain_path_relative p : plain_path p = true -> String.prefix "/" p = false.
Proof.
  destruct p as [|c p]; [reflexivity|]. unfold plain_path, str_split. cbn.
  destruct (Ascii.ascii_dec c "/") as [->|Hne].
  - cbn. discriminate.
  - intros _. destruct c as [[] [] [] [] [] [] [] []]; try reflexivity. contradiction.
Qed.

(** A run of [make_podcast] that fails leaves no partial episode. When the
    planner's section names contain no slash, so that every segment file is
    an entry of the temporary directory, and for an output path that is
    relative and in normal form, is neither the temporary directory nor
    inside it, and where nothing exists yet: when the run returns, the
    complete episode (audio at 44100 Hz) is at the output path; when it
    raises, the path is still empty, so that the next run will not skip the
    document, or the complete episode is there (only the final cleanup
    failed). *)
Theorem make_podcast_retry_safe env pdf_path output_path metadata_dict summary_sentences w :
  planner_names_plain env ->
  plain_path output_path = true ->
  Path.is_under "temp_audio" output_path = false ->
  output_path <> "temp_audio" ->
  present w output_path = false ->
  let run := make_podcast env pdf_path output_path metadata_dict summary_sentences w in
  match run.1 with
  | Ok _ => episode_at output_path run.2
  | Raise _ => present run.2 output_path = false \/ episode_at output_path run.2
  end.
Proof.
  intros _ Hrel%plain_path_relative Hout Hnt Hp. cbv zeta.
  destruct (make_podcast env pdf_path output_path metadata_dict summary_sentences w)
    as [r w'] eqn:H.
  cbn [fst snd].
  assert (Hbase : Path.is_base output_path = false /\ fs w !! output_path = None).
  { unfold present in Hp. apply orb_false_iff in Hp as [Hb Hn]. split; [exact Hb|].
    apply bool_decide_eq_false in Hn. destruct (fs w !! output_path); [|reflexivity].
    exfalso. apply Hn. eauto. }
  destruct Hbase as [Hb Habs].
  pose proof (make_podcast_output env output_path Hrel Hout Hnt pdf_path metadata_dict
                summary_sentences _ _ _ H Habs) as Hend.
  destruct r as [[]|e].
  - destruct (make_podcast_run env _ _ _ _ _ _ H Hp)
      as (plan & segs & w_a & w_b & _ & _ & _ & _ & _ & _ & Hcomb & Hclean).
    destruct (combine_audio_files_outcome env _ _ _ _ _ _ Hcomb) as [_ [data Hdata]].
    exists data. destruct (cleanup_frame _ _ _ _ Hclean) as (_ & _ & Hfs).
    rewrite Hfs; [exact Hdata | | exact Hnt].
    destruct (Path.is_child "temp_audio" output_path) eqn:Hc; [|reflexivity].
    apply is_child_under in Hc. congruence.
  - destruct Hend as [Hend|Hend]; [left | right; exact Hend].
    unfold present. rewrite Hb. cbv beta in Hend. rewrite Hend. reflexivity.
Qed.

Lemma make_podcast_retry_safe_witness :
  let run := make_podcast mute_env "paper.pdf" "output/podcast.wav" demo_dict 5 empty_world in
  match run.1 with
  | Ok _ => episode_at "output/podcast.wav" run.2
  | Raise _ => present run.2 "output/podcast.wav" = false
               \/ episode_at "output/podcast.wav" run.2
  end.
Proof.
  apply (make_podcast_retry_safe mute_env "paper.pdf" "output/podcast.wav" demo_dict 5
           empty_world).
  - intros history plan [= <-]. repeat constructor.
  - reflexivity.
  - reflexivity.
  - discriminate.
  - reflexivity.
Defined.

(** ** The calls of a completed run *)

Section Shape.

Variable env : Env.

Lemma kinds_app w w' l : calls w' = calls w ++ l -> kinds w' = kinds w ++ map kind_of l.
Proof. unfold kinds. intros ->. apply map_app. Qed.

Lemma kinds_same w w' : calls w' = calls w -> kinds w' = kinds w.
Proof. unfold kinds. intros ->. reflexivity. Qed.

Lemma get_llm_response_kinds prompt pdf_path model_name response_schema w text w' :
get_llm_response env prompt pdf_path model_name response_schema w = (Ok text, w') ->
kinds w' = kinds w
           ++ match pdf_path with
              | Some p => if String.eqb p "" then [Generate] else [Upload; Generate]
              | None => [Generate]
              end.
Proof.
intros H. unfold get_llm_response in H. bind_ok H as content w1 E.
assert (Hgen : kinds w' = kinds w1 ++ [Generate]).
{ unfold try_except, bind, external, lift, raise, ret in H.
  destruct response_schema as [sch|]; cbn [calls add_call] in H;
    destruct (generate_content env _) as [[t|e]|e]; try destruct (String.eqb t "");
    inversion H; subst; unfold kinds; cbn [calls add_call]; rewrite map_app; reflexivity. }
rewrite Hgen. destruct pdf_path as [p|].
- destruct (String.eqb p "").
  + apply ret_Ok in E as [_ ->]. reflexivity.
  + bind_ok E as [] w2 E0. apply ret_Ok in E as [_ ->].
    unfold external in E0. inversion E0; subst. unfold kinds. cbn [calls add_call].
    rewrite map_app, <- app_assoc. reflexivity.
- apply ret_Ok in E as [_ ->]. reflexivity.
Qed.

Lemma get_openai_structured_response_kinds prompt response_schema w parsed w' :
get_openai_structured_response env prompt response_schema w = (Ok parsed, w') ->
kinds w' = kinds w ++ [Structure].
Proof.
unfold get_openai_structured_response, try_except, bind, external, ret, raise.
cbn [calls add_call]. destruct (chat_parse env response_schema _); intros H; inversion H.
unfold kinds. cbn [calls add_call]. rewrite map_app. reflexivity.
Qed.

Lemma generate_audio_kinds text voice path w w' :
generate_audio env text voice path w = (Ok tt, w') ->
kinds w' = kinds w ++ [Synthesize; Write].
Proof.
intros H. destruct (generate_audio_Ok _ _ _ _ _ _ H) as [Hc _].
exact (kinds_app _ _ _ Hc).
Qed.

Lemma generate_section_details_kinds pdf_path section all_bullets w content w' :
pdf_path <> "" ->
generate_section_details env pdf_path section all_bullets w = (Ok content, w') ->
kinds w' = kinds w ++ [Upload; Generate].
Proof.
intros Hp H. unfold generate_section_details in H.
bind_ok H as [] w1 E. apply log_Ok in E. subst w1.
bind_ok H as c w2 E. bind_ok H as [] w3 E0. apply log_Ok in E0. subst w3.
apply ret_Ok in H as [_ ->]. apply get_llm_response_kinds in E.
apply String.eqb_neq in Hp. rewrite Hp in E. exact E.
Qed.

Lemma section_loop_kinds pdf_path temp_dir voices todo : forall st w st' w',
pdf_path <> "" ->
section_loop env pdf_path temp_dir voices todo st w = (Ok st', w') ->
kinds w' = kinds w ++ concat (replicate (length todo) [Upload; Generate; Synthesize; Write]).
Proof.
induction todo as [|section rest IH]; intros st w st' w' Hp H; simpl in H.
- apply ret_Ok in H as [_ ->]. cbn. rewrite app_nil_r. reflexivity.
- bind_ok H as [] w1 E. apply log_Ok in E. subst w1.
  bind_ok H as next w1 E. apply lift_Ok in E as [_ ->].
  bind_ok H as content w0 Edetails.
  bind_ok H as [] w1 Eaudio.
  bind_ok H as [] w2 E. apply log_Ok in E. subst w2.
  apply (IH _ _ _ _ Hp) in H. rewrite H.
  change (kinds (add_log INFO ("Completed section: " +:+ name section) w1)) with (kinds w1).
  rewrite (generate_audio_kinds _ _ _ _ _ Eaudio).
  rewrite (generate_section_details_kinds _ _ _ _ _ _ Hp Edetails).
  cbn [length replicate concat kinds calls add_log]. rewrite <- !app_assoc. reflexivity.
Qed.

Lemma make_podcast_shape pdf_path output_path metadata_dict summary_sentences w w' :
make_podcast env pdf_path output_path metadata_dict summary_sentences w = (Ok tt, w') ->
present w output_path = false ->
pdf_path <> "" ->
exists plan,
  planner_returned env plan w'
  /\ kinds w' = kinds w ++ run_shape (bool_decide (metadata_dict = ∅))
                              (length (sections plan)).
Proof.
intros H Hnew Hp.
assert (Hpe : String.eqb pdf_path "" = false) by (apply String.eqb_neq; exact Hp).
unfold make_podcast in H.
bind_ok H as skip w0 E. unfold path_exists in E. inversion E; subst skip w0. clear E.
rewrite Hnew in H.
bind_ok H as [] w1 E. apply log_Ok in E. subst w1.
bind_ok H as [] w1 Emk.
bind_ok H as md w2 Emd.
bind_ok H as summary w3 Esum.
bind_ok H as plan w4 Eplan.
bind_ok H as [] w5 E. apply log_Ok in E. subst w5.
bind_ok H as metadata_text w5 E. apply lift_Ok in E as [Htext ->].
bind_ok H as voice0 w5 E. apply lift_Ok in E as [Hv0 ->].
bind_ok H as [] w5 Ea0.
bind_ok H as [voice1 idx1] w6 E. apply lift_Ok in E as [Hv1 ->].
bind_ok H as [] w6 Ea1.
bind_ok H as [voice2 idx2] w7 E. apply lift_Ok in E as [Hv2 ->].
bind_ok H as background w7 Ebg.
bind_ok H as [] w8 Ea2.
bind_ok H as st w9 Eloop.
bind_ok H as [voice3 idx3] w10 E. apply lift_Ok in E as [Hv3 ->].
bind_ok H as takeaways w10 Etk.
bind_ok H as [] w11 Ea3.
bind_ok H as [] w12 E. apply log_Ok in E. subst w12.
bind_ok H as [] w12 Ecomb.
exists plan. split.
{ destruct (planner_call env _ _ _ _ Eplan) as (Hplan & _ & _).
  destruct Hplan as (h & raw & Hpre & Hans). exists h, raw. split; [|exact Hans].
  (* the calls of [w4] are a prefix of those of [w'] *)
  etrans; [exact Hpre|].
  pose proof (cleanup_preserves_calls _ _ _ _ H) as Hc13. rewrite Hc13.
  etrans; [|exact (calls_only_prefix _ _ _ _ _ (combine_audio_files_monotone env _ _ _) Ecomb)].
  cbn [calls add_log].
  etrans; [|exact (calls_only_prefix _ _ _ _ _ (generate_audio_monotone env _ _ _) Ea3)].
  etrans; [|exact (calls_only_prefix _ _ _ _ _ (get_final_takeaways_calls env _) Etk)].
  destruct (section_loop_Ok _ _ _ _ _ _ _ _ _ Eloop) as (_ & _ & _ & _ & _ & _ & _ & Hp9).
  etrans; [|exact Hp9].
  etrans; [|exact (calls_only_prefix _ _ _ _ _ (generate_audio_monotone env _ _ _) Ea2)].
  etrans; [|exact (calls_only_prefix _ _ _ _ _ (get_background_overview_calls env _) Ebg)].
  etrans; [|exact (calls_only_prefix _ _ _ _ _ (generate_audio_monotone env _ _ _) Ea1)].
  etrans; [|exact (calls_only_prefix _ _ _ _ _ (generate_audio_monotone env _ _ _) Ea0)].
  reflexivity. }
(* the kinds each step added *)
pose proof (kinds_same _ _ (preserves_mkdir_exist_ok calls (fun _ _ => eq_refl) _ _ _ _ Emk))
  as K1.
assert (K2 : kinds w2 = kinds w1
               ++ if bool_decide (metadata_dict = ∅) then [Upload; Generate; Structure]
                  else []).
{ destruct (bool_decide (metadata_dict = ∅)).
  - unfold get_structured_metadata in Emd.
    bind_ok Emd as [] wa E. apply log_Ok in E. subst wa.
    bind_ok Emd as raw wb E. bind_ok Emd as [] wc E0. apply log_Ok in E0. subst wc.
    pose proof (get_openai_structured_response_kinds raw PaperMetadataSchema _ md _ Emd)
      as Kmd.
    apply get_llm_response_kinds in E. rewrite Hpe in E.
    rewrite Kmd. change (kinds (add_log STDOUT raw wb)) with (kinds wb). rewrite E.
    rewrite <- app_assoc. reflexivity.
  - apply ret_Ok in Emd as [_ ->]. rewrite app_nil_r. reflexivity. }
assert (K3 : kinds w3 = kinds w2 ++ [Upload; Generate]).
{ unfold get_high_school_summary in Esum.
  bind_ok Esum as [] wa E. apply log_Ok in E. subst wa.
  apply get_llm_response_kinds in Esum. rewrite Hpe in Esum. exact Esum. }
assert (K4 : kinds w4 = kinds w3 ++ [Upload; Generate; Structure]).
{ unfold get_all_section_bullets_at_once in Eplan.
  bind_ok Eplan as [] wa E. apply log_Ok in E. subst wa.
  bind_ok Eplan as raw wb E.
  pose proof (get_openai_structured_response_kinds raw PaperSectionsSchema _ plan _ Eplan)
    as Kplan.
  apply get_llm_response_kinds in E. rewrite Hpe in E.
  rewrite Kplan, E, <- app_assoc. reflexivity. }
pose proof (generate_audio_kinds _ _ _ _ _ Ea0) as K5.
pose proof (generate_audio_kinds _ _ _ _ _ Ea1) as K6.
assert (K7 : kinds w7 = kinds w6 ++ [Upload; Generate]).
{ unfold get_background_overview in Ebg.
  bind_ok Ebg as [] wa E. apply log_Ok in E. subst wa.
  apply get_llm_response_kinds in Ebg. rewrite Hpe in Ebg. exact Ebg. }
pose proof (generate_audio_kinds _ _ _ _ _ Ea2) as K8.
pose proof (section_loop_kinds _ _ _ _ _ _ _ _ Hp Eloop) as K9.
assert (K10 : kinds w10 = kinds w9 ++ [Generate]).
{ unfold get_final_takeaways in Etk.
  bind_ok Etk as [] wa E. apply log_Ok in E. subst wa.
  apply get_llm_response_kinds in Etk. exact Etk. }
pose proof (generate_audio_kinds _ _ _ _ _ Ea3) as K11.
destruct (combine_audio_files_Ok _ _ _ _ _ _ Ecomb) as (Hc12 & _ & _).
pose proof (kinds_app _ _ _ Hc12) as K12.
pose proof (kinds_same _ _ (cleanup_preserves_calls _ _ _ _ H)) as K13.
destruct (section_loop_Ok _ _ _ _ _ _ _ _ _ Eloop) as (segs & Hfiles & _ & _ & Haf & _).
assert (Hlen : length (audio_files st) = (length (sections plan) + 3)%nat).
{ rewrite Haf. cbn [audio_files append_script append_file set_voice_idx app length].
  rewrite Hfiles, length_map. lia. }
rewrite K13, K12.
change (kinds (add_log STDOUT (takeaway_intro +:+ " " +:+ takeaways) w11)) with (kinds w11).
rewrite K11, K10, K9, K8, K7, K6, K5.
change (kinds (add_log INFO "Generated all section bullet points" w4)) with (kinds w4).
rewrite K4, K3, K2, K1.
change (kinds (add_log INFO ("Starting podcast creation for " +:+ pdf_path) w)) with (kinds w).
unfold run_shape. rewrite map_app, map_map. cbn [map kind_of].
cbn [audio_files append_script append_file set_voice_idx].
assert (Hconst : forall l : list string,
           map (fun _ : string => Read) l = replicate (length l) Read).
{ induction l as [|x l IH]; [reflexivity|]. cbn. f_equal. exact IH. }
rewrite Hconst, length_app, Hlen. cbn [length].
replace (length (sections plan) + 3 + 1)%nat with (length (sections plan) + 4)%nat by lia.
rewrite <- !app_assoc. reflexivity.
Qed.

End Shape.

Lemma count_kind_app k l1 l2 :
  count_kind k (l1 ++ l2) = (count_kind k l1 + count_kind k l2)%nat.
Proof. unfold count_kind. rewrite List.filter_app, length_app. reflexivity. Qed.

Lemma count_kind_blocks k n block :
  count_kind k (concat (replicate n block)) = (n * count_kind k block)%nat.
Proof.
  induction n as [|n IH]; [reflexivity|]. cbn [replicate concat].
  rewrite count_kind_app, IH. lia.
Qed.

Lemma count_kind_replicate k n x :
  count_kind k (replicate n x) = if kind_eqb k x then n else 0%nat.
Proof.
  induction n as [|n IH]; [destruct (kind_eqb k x); reflexivity|].
  change (replicate (S n) x) with ([x] ++ replicate n x). rewrite count_kind_app, IH.
  unfold count_kind. cbn [List.filter]. destruct (kind_eqb k x); reflexivity.
Qed.

Lemma run_shape_counts (extract : bool) (n : nat) :
  let extra := if extract then 1%nat else 0%nat in
  count_kind Upload (run_shape extract n) = (n + 3 + extra)%nat
  /\ count_kind Generate (run_shape extract n) = (n + 4 + extra)%nat
  /\ count_kind Structure (run_shape extract n) = (1 + extra)%nat
  /\ count_kind Synthesize (run_shape extract n) = (n + 4)%nat
  /\ count_kind Read (run_shape extract n) = (n + 4)%nat
  /\ count_kind Write (run_shape extract n) = (n + 5)%nat.
Proof.
  cbv zeta. unfold run_shape.
  rewrite !count_kind_app, !count_kind_blocks, !count_kind_replicate.
  destruct extract; cbn; repeat split; lia.
Qed.

(** The calls of a completed run of [make_podcast], for a document path that
    is not empty and an output that did not exist: in call order, the summary
    request, the planning request and its structuring, the synthesis of the
    metadata and of the summary, then request and synthesis of the background,
    of each of the [n] planned sections and of the takeaways, and at last the
    reading of the [n + 4] segment files and the writing of the episode;
    before all that, the extraction of the metadata when the dict was empty.
    The document is uploaded anew for every request that reads it: [n + 3]
    uploads for [n + 4] generation requests, one structuring request, [n + 4]
    calls of the speech engine (one more upload, generation and structuring
    request when the metadata is extracted). *)
Theorem make_podcast_call_budget env pdf_path output_path metadata_dict summary_sentences w :
  present w output_path = false ->
  pdf_path <> "" ->
  let run := make_podcast env pdf_path output_path metadata_dict summary_sentences w in
  run.1 = Ok tt ->
  exists plan,
    planner_returned env plan run.2
    /\ let n := length (sections plan) in
       let extract := bool_decide (metadata_dict = ∅) in
       let extra := if extract then 1%nat else 0%nat in
       let made := run_shape extract n in
       kinds run.2 = kinds w ++ made
       /\ count_kind Upload made = (n + 3 + extra)%nat
       /\ count_kind Generate made = (n + 4 + extra)%nat
       /\ count_kind Structure made = (1 + extra)%nat
       /\ count_kind Synthesize made = (n + 4)%nat
       /\ count_kind Read made = (n + 4)%nat
       /\ count_kind Write made = (n + 5)%nat.
Proof.
  intros Hnew Hp. cbv zeta.
  destruct (make_podcast env pdf_path output_path metadata_dict summary_sentences w)
    as [r w'] eqn:H.
  cbn [fst snd]. intros ->.
  destruct (make_podcast_shape env _ _ _ _ _ _ H Hnew Hp) as (plan & Hplan & Hkinds).
  exists plan. split; [exact Hplan|]. split; [exact Hkinds|].
  exact (run_shape_counts _ _).
Qed.

Lemma make_podcast_call_budget_witness :
  let run := make_podcast demo_env "paper.pdf" "output/podcast.wav" demo_dict 5 empty_world in
  exists plan,
    planner_returned demo_env plan run.2
    /\ let n := length (sections plan) in
       let extract := bool_decide (demo_dict = ∅) in
       let extra := if extract then 1%nat else 0%nat in
       let made := run_shape extract n in
       kinds run.2 = kinds empty_world ++ made
       /\ count_kind Upload made = (n + 3 + extra)%nat
       /\ count_kind Generate made = (n + 4 + extra)%nat
       /\ count_kind Structure made = (1 + extra)%nat
       /\ count_kind Synthesize made = (n + 4)%nat
       /\ count_kind Read made = (n + 4)%nat
       /\ count_kind Write made = (n + 5)%nat.
Proof.
  apply (make_podcast_call_budget demo_env "paper.pdf" "output/podcast.wav" demo_dict 5
           empty_world).
  - reflexivity.
  - discriminate.
  - vm_compute. reflexivity.
Defined.

(** The demo document, whose plan has three sections: six uploads, seven
    generation requests, one structuring request, seven calls of the engine. *)
Example demo_run_calls :
  let run := make_podcast demo_env "paper.pdf" "output/podcast.wav" demo_dict 5 empty_world in
  (count_kind Upload (kinds run.2), count_kind Generate (kinds run.2),
   count_kind Structure (kinds run.2), count_kind Synthesize (kinds run.2))
  = (6, 7, 1, 7)%nat.
Proof. vm_compute. reflexivity. Qed.

(** ** Metadata files in the batch loop *)

(** The batch loop treats the two ways a metadata file can be bad
    differently. A file that cannot be opened or decoded is logged and the
    document is skipped: the loop goes on with the next document. A file that
    decodes to a dict without [unique_id] stops the whole batch: the loop
    raises [KeyError] at once, nothing is logged, created or called, and the
    documents after it are never looked at. *)
Theorem papers_loop_bad_metadata env output_base pdf_path rest existing_ids w :
  let metadata_path := Path.join (Path.parent pdf_path) "metadata.json" in
  let run := papers_loop env output_base (pdf_path :: rest) existing_ids w in
  (forall e, (open_read metadata_path w).1 = Raise e
             \/ ((open_read metadata_path w).1 = Ok tt
                 /\ json_load env metadata_path = Raise e) ->
     run = papers_loop env output_base rest existing_ids
             (add_log ERROR ("Error loading metadata for " +:+ pdf_path +:+ ": "
                             +:+ str_exn e) w))
  /\ (forall metadata,
        (open_read metadata_path w).1 = Ok tt ->
        json_load env metadata_path = Ok metadata ->
        metadata !! "unique_id" = None ->
        run = (Raise (Exn KeyError "'unique_id'"), w)).
Proof.
  cbv zeta. split.
  - intros e Hbad. cbn [papers_loop]. unfold bind at 1. unfold try_except at 1.
    unfold bind at 1. unfold open_read in *.
    destruct (fs w !! Path.join (Path.parent pdf_path) "metadata.json") as [[]|] eqn:Ef;
      cbn [fst snd] in Hbad.
    + destruct Hbad as [Hbad|[_ Hbad]]; [discriminate|].
      unfold bind at 1, lift at 1. rewrite Hbad. unfold bind at 1, log at 1, ret. reflexivity.
    + destruct Hbad as [[= <-]|[Hbad _]]; [|discriminate].
      unfold bind at 1, log at 1, ret. reflexivity.
    + destruct Hbad as [[= <-]|[Hbad _]]; [|discriminate].
      unfold bind at 1, log at 1, ret. reflexivity.
  - intros metadata Hopen Hload Hid. cbn [papers_loop]. unfold bind at 1.
    unfold try_except at 1. unfold bind at 1. unfold open_read in *.
    destruct (fs w !! Path.join (Path.parent pdf_path) "metadata.json") as [[]|] eqn:Ef;
      cbn [fst snd] in Hopen; try discriminate.
    unfold bind at 1, lift at 1. rewrite Hload. unfold ret at 1.
    unfold bind at 1, lift at 1, dict_getitem. rewrite Hid. reflexivity.
Qed.

Lemma papers_loop_bad_metadata_witness :
  papers_loop garbled_env "output"
    ["Data/papers/nber/w1/paper.pdf"; "Data/papers/nber/w2/paper.pdf"] ∅ batch_world
  = papers_loop garbled_env "output" ["Data/papers/nber/w2/paper.pdf"] ∅
      (add_log ERROR ("Error loading metadata for Data/papers/nber/w1/paper.pdf: "
                      +:+ "Expecting value: line 1 column 1 (char 0)") batch_world)
  /\ papers_loop anonymous_env "output"
       ["Data/papers/nber/w1/paper.pdf"; "Data/papers/nber/w2/paper.pdf"] ∅ batch_world
     = (Raise (Exn KeyError "'unique_id'"), batch_world).
Proof.
  split.
  - apply (proj1 (papers_loop_bad_metadata garbled_env "output"
                    "Data/papers/nber/w1/paper.pdf" ["Data/papers/nber/w2/paper.pdf"] ∅
                    batch_world)
             (Exn ValueError "Expecting value: line 1 column 1 (char 0)")).
    right. split; reflexivity.
  - apply (proj2 (papers_loop_bad_metadata anonymous_env "output"
                    "Data/papers/nber/w1/paper.pdf" ["Data/papers/nber/w2/paper.pdf"] ∅
                    batch_world)
             (<["title" := PyStr "Minimum Wages"]> ∅)); reflexivity.
Defined.

(** ** Connecting to the storage service *)

(** When the connection to the storage service fails, [process_all_papers]
    logs the failure and raises the exception of the connection: the output
    directories exist by then, but the stored feed is neither read nor
    rewritten, nothing is uploaded and no document is looked at. *)
Theorem process_all_papers_needs_connection env test_mode w e :
  dropbox_connect env (calls w ++ [DropboxConnect]) = Raise e ->
  is_Ok (setup_directories w).1 = true ->
  let run := process_all_papers env test_mode w in
  run.1 = Raise e
  /\ calls run.2 = calls w ++ [DropboxConnect]
  /\ feed run.2 = feed w
  /\ fs run.2 = fs (setup_directories w).2
  /\ logs run.2 = logs w ++ [(ERROR, "Failed to connect to Dropbox: " +:+ str_exn e)].
Proof.
  intros Hconn Hdirs. cbv zeta.
  destruct (process_all_papers env test_mode w) as [r w'] eqn:H. cbn [fst snd].
  unfold process_all_papers in H. unfold bind at 1 in H.
  destruct (setup_directories w) as [[output_base|e0] w1] eqn:Esetup; [|discriminate Hdirs].
  assert (Hpc : preserves calls setup_directories) by (unfold setup_directories; frame).
  assert (Hpf : preserves feed setup_directories) by (unfold setup_directories; frame).
  assert (Hpl : preserves logs setup_directories) by (unfold setup_directories; frame).
  pose proof (Hpc _ _ _ Esetup) as Hc. pose proof (Hpf _ _ _ Esetup) as Hf.
  pose proof (Hpl _ _ _ Esetup) as Hl.
  unfold bind at 1, setup_dropbox, try_except in H. unfold bind at 1, external at 1 in H.
  cbn [calls add_call] in H. rewrite Hc, Hconn in H. unfold bind, log, raise in H.
  inversion H; subst. cbn [fst snd calls feed fs logs add_log add_call].
  rewrite Hc, Hf, Hl. repeat split.
Qed.

Lemma process_all_papers_needs_connection_witness :
  let run := process_all_papers offline_env false batch_world in
  run.1 = Raise (Exn ExternalError "invalid refresh token")
  /\ calls run.2 = calls batch_world ++ [DropboxConnect]
  /\ feed run.2 = feed batch_world
  /\ fs run.2 = fs (setup_directories batch_world).2
  /\ logs run.2 = logs batch_world
                  ++ [(ERROR, "Failed to connect to Dropbox: "
                              +:+ str_exn (Exn ExternalError "invalid refresh token"))].
Proof.
  apply (process_all_papers_needs_connection offline_env false batch_world
           (Exn ExternalError "invalid refresh token")); reflexivity.
Defined.

(** ** The metadata the NBER scraper stores *)

Section Markup.

Import Text.

Local Abbreviation lacks_l c := (fun l : list ascii => forallb (fun x => negb (Ascii.eqb x c)) l = true).

Lemma starts_with_app pat s : starts_with pat (pat ++ s) = true.
Proof. induction pat as [|p pat IH]; [reflexivity|]. cbn. rewrite Ascii.eqb_refl. exact IH. Qed.

Lemma replace_from_lacks p old' new a b :
lacks_l p a ->
replace_from (p :: old') new 0 (a ++ b) = a ++ replace_from (p :: old') new 0 b.
Proof.
induction a as [|x a IH]; [reflexivity|]. cbn [forallb]. intros H.
apply andb_true_iff in H as [Hx Ha]. apply negb_true_iff in Hx.
cbn [app replace_from starts_with].
rewrite Ascii.eqb_sym, Hx. cbn [andb]. rewrite (IH Ha). reflexivity.
Qed.

Lemma replace_from_skip old new x b :
replace_from old new (length x) (x ++ b) = replace_from old new 0 b.
Proof. induction x as [|c x IH]; [destruct b; reflexivity|]. cbn. exact IH. Qed.

Lemma replace_from_match p old' new b :
replace_from (p :: old') new 0 ((p :: old') ++ b)
= new ++ replace_from (p :: old') new 0 b.
Proof.
cbn [app replace_from]. change (p :: old' ++ b) with ((p :: old') ++ b).
rewrite starts_with_app.
replace (length (p :: old') - 1)%nat with (length old') by (cbn [length]; lia).
rewrite replace_from_skip. reflexivity.
Qed.

Lemma split_from_lacks p sep' cur a b :
lacks_l p a ->
split_from (p :: sep') 0 cur (a ++ b) = split_from (p :: sep') 0 (cur ++ a) b.
Proof.
revert cur. induction a as [|x a IH]; intros cur; [rewrite app_nil_r; reflexivity|].
cbn [forallb]. intros H. apply andb_true_iff in H as [Hx Ha]. apply negb_true_iff in Hx.
cbn [app split_from starts_with]. rewrite Ascii.eqb_sym, Hx. cbn [andb].
rewrite (IH _ Ha), <- app_assoc. reflexivity.
Qed.

Lemma split_from_skip sep cur x b :
split_from sep (length x) cur (x ++ b) = split_from sep 0 cur b.
Proof. induction x as [|c x IH]; [destruct b; reflexivity|]. cbn. exact IH. Qed.

Lemma split_from_match p sep' cur b :
split_from (p :: sep') 0 cur ((p :: sep') ++ b) = cur :: split_from (p :: sep') 0 [] b.
Proof.
cbn [app split_from]. change (p :: sep' ++ b) with ((p :: sep') ++ b).
rewrite starts_with_app.
replace (length (p :: sep') - 1)%nat with (length sep') by (cbn [length]; lia).
rewrite split_from_skip. reflexivity.
Qed.

End Markup.

(** The name that is shown is what [clean_author] makes of the markup of an
    author, when neither the name nor the person's page contains a double
    quote or an opening angle bracket. *)
Lemma clean_author_link slug shown :
  lacks "<" slug -> lacks (ascii_of_nat 34) slug ->
  lacks "<" shown -> lacks (ascii_of_nat 34) shown ->
  clean_author (author_link slug shown) = Ok shown.
Proof.
  unfold lacks. intros Hs1 Hs2 Hd1 Hd2.
  set (s := list_ascii_of_string slug) in *. set (d := list_ascii_of_string shown) in *.
  unfold clean_author, author_link, str_split_on, str_replace, Text.replace.
  rewrite !list_ascii_of_string_of_list_ascii, !list_ascii_of_string_app.
  fold s d.
  change (list_ascii_of_string people_prefix)
    with ("<"%char :: tl (list_ascii_of_string people_prefix)).
  change (list_ascii_of_string "") with (@nil ascii).
  change (list_ascii_of_string dq) with [ascii_of_nat 34].
  change (list_ascii_of_string ">") with [">"%char].
  change (list_ascii_of_string "</a>") with ("<"%char :: list_ascii_of_string "/a>").
  cbn [app].
  (* the prefix goes *)
  change ("<"%char :: tl (list_ascii_of_string people_prefix)
          ++ s ++ ascii_of_nat 34 :: ">"%char :: d ++ "<"%char :: list_ascii_of_string "/a>")
    with (("<"%char :: tl (list_ascii_of_string people_prefix))
          ++ (s ++ ascii_of_nat 34 :: ">"%char :: d ++ "<"%char :: list_ascii_of_string "/a>")).
  rewrite replace_from_match.
  cbn [app].
  replace (s ++ ascii_of_nat 34 :: ">"%char :: d ++ "<"%char :: list_ascii_of_string "/a>")
    with ((s ++ ascii_of_nat 34 :: ">"%char :: d) ++ "<"%char :: list_ascii_of_string "/a>")
    by (rewrite <- app_assoc; reflexivity).
  rewrite replace_from_lacks.
  2:{ rewrite forallb_app. rewrite Hs1. cbn [forallb andb]. rewrite Hd1. reflexivity. }
  change (Text.replace_from ("<"%char :: tl (list_ascii_of_string people_prefix)) [] 0
            ("<"%char :: list_ascii_of_string "/a>"))
    with ("<"%char :: list_ascii_of_string "/a>").
  (* the separator is found once *)
  rewrite <- app_assoc. cbn [app].
  rewrite split_from_lacks by exact Hs2. cbn [app].
  change (ascii_of_nat 34 :: ">"%char :: d ++ "<"%char :: list_ascii_of_string "/a>")
    with ([ascii_of_nat 34; ">"%char] ++ (d ++ "<"%char :: list_ascii_of_string "/a>")).
  rewrite split_from_match.
  rewrite split_from_lacks by exact Hd2. cbn [app].
  replace (split_from [ascii_of_nat 34; ">"%char] 0 d ("<"%char :: list_ascii_of_string "/a>"))
    with [d ++ "<"%char :: list_ascii_of_string "/a>"].
  2:{ rewrite <- (app_nil_r ("<"%char :: list_ascii_of_string "/a>")) at 2.
      rewrite split_from_lacks by reflexivity. reflexivity. }
  cbn [map].
  match goal with
  | |- context [py_getitem [?a; ?b] 1] => change (py_getitem [a; b] 1) with (Ok b)
  end.
  cbn [rbind].
  rewrite list_ascii_of_string_of_list_ascii.
  rewrite replace_from_lacks by exact Hd1.
  change (Text.replace_from ("<"%char :: list_ascii_of_string "/a>") [] 0
            ("<"%char :: list_ascii_of_string "/a>")) with (@nil ascii).
  rewrite app_nil_r. unfold d. rewrite string_of_list_ascii_of_string. reflexivity.
Qed.

Lemma py_getitem_last {A} (l : list A) (x : A) : py_getitem (l ++ [x]) (-1) = Ok x.
Proof.
  unfold py_getitem. rewrite length_app. cbn [length].
  change (-1 <? 0) with true. cbn iota.
  destruct (Z.ltb_spec (-1 + Z.of_nat (length l + 1)) 0); [lia|].
  replace (Z.to_nat (-1 + Z.of_nat (length l + 1))) with (length l + 0)%nat by lia.
  rewrite lookup_app_r by lia. replace (length l + 0 - length l)%nat with 0%nat by lia.
  reflexivity.
Qed.

Lemma split_on_all_free sep l :
  Forall (fun piece => forallb (fun c => negb (Ascii.eqb c sep)) piece = true)
    (Path.split_on sep l).
Proof.
  induction l as [|c l IH]; cbn; [repeat constructor|].
  destruct (Ascii.eqb c sep) eqn:Ec; [constructor; [reflexivity | exact IH]|].
  destruct (Path.split_on sep l) as [|h t]; [repeat constructor; cbn; rewrite Ec; reflexivity|].
  inversion IH; subst. constructor; [|assumption]. cbn. rewrite Ec. assumption.
Qed.

(** The last piece of a URL is its part after the last slash. *)
Lemma last_piece_of_url base id :
  lacks "/" id -> py_getitem (str_split "/" (base +:+ "/" +:+ id)) (-1) = Ok id.
Proof.
  unfold lacks. intros Hid. unfold str_split. rewrite !list_ascii_of_string_app.
  change (list_ascii_of_string "/") with ["/"%char]. cbn [app].
  rewrite split_on_app, (split_on_free _ _ Hid), map_app. cbn [map].
  rewrite py_getitem_last, string_of_list_ascii_of_string. reflexivity.
Qed.

Lemma last_piece_lacks_slash url paper_id :
  py_getitem (str_split "/" url) (-1) = Ok paper_id -> lacks "/" paper_id.
Proof.
  unfold str_split, py_getitem. change (-1 <? 0) with true. cbn iota.
  destruct (Z.ltb _ 0); [discriminate|].
  destruct (_ !! _) as [x|] eqn:E; [|discriminate]. intros [= <-].
  apply list_elem_of_lookup_2 in E. apply list_elem_of_fmap in E as (piece & -> & Hin).
  unfold lacks. rewrite list_ascii_of_string_of_list_ascii.
  pose proof (split_on_all_free "/" (list_ascii_of_string url)) as Hall.
  rewrite Forall_forall in Hall. exact (Hall _ Hin).
Qed.

Lemma clean_author_links (people : list (string * string)) :
  Forall (fun p => lacks "<" p.1 /\ lacks (ascii_of_nat 34) p.1
                   /\ lacks "<" p.2 /\ lacks (ascii_of_nat 34) p.2) people ->
  map_result clean_author ((fun p => author_link p.1 p.2) <$> people) = Ok (people.*2).
Proof.
  induction 1 as [|[slug shown] people (H1 & H2 & H3 & H4) _ IH]; [reflexivity|].
  cbn [fmap list_fmap map_result fst snd]. cbn [fst snd] in *.
  rewrite (clean_author_link slug shown H1 H2 H3 H4). cbn [rbind].
  change (list_fmap _ _ (fun p : string * string => author_link p.1 p.2) people)
    with ((fun p : string * string => author_link p.1 p.2) <$> people).
  rewrite IH. reflexivity.
Qed.

(** [process_paper_metadata] on a paper of the listing: the paper id is the
    part of the URL after its last slash, the unique id is [nber_<paper id>],
    the authors are the names shown in the links of the listing, in order,
    the date of the listing is stored under [date], title and abstract are
    taken over, and the URL is made absolute. *)
Theorem process_paper_metadata_of_listing paper base id people title abstract displaydate :
  paper !! "url" = Some (PyStr (base +:+ "/" +:+ id)) ->
  lacks "/" id ->
  paper !! "authors" = Some (PyList ((fun p => author_link p.1 p.2) <$> people)) ->
  Forall (fun p => lacks "<" p.1 /\ lacks (ascii_of_nat 34) p.1
                   /\ lacks "<" p.2 /\ lacks (ascii_of_nat 34) p.2) people ->
  paper !! "title" = Some title ->
  paper !! "abstract" = Some abstract ->
  paper !! "displaydate" = Some displaydate ->
  process_paper_metadata paper
  = Ok (<["unique_id" := PyStr ("nber_" +:+ id)]>
          (<["title" := title]>
             (<["authors" := PyList (people.*2)]>
                (<["abstract" := abstract]>
                   (<["date" := displaydate]>
                      (<["paper_id" := PyStr id]>
                         (<["url" := PyStr ("https://www.nber.org" +:+ base +:+ "/" +:+ id)]>
                            (<["journal" := PyStr "NBER Working Paper"]> ∅)))))))).
Proof.
  intros Hurl Hid Hauthors Hpeople Ht Ha Hd.
  unfold process_paper_metadata, dict_getitem.
  rewrite Hurl, Hauthors, Ht, Ha, Hd. cbn [rbind as_str py_iter].
  rewrite (last_piece_of_url base id Hid). cbn [rbind].
  rewrite (clean_author_links people Hpeople). reflexivity.
Qed.

Lemma process_paper_metadata_of_listing_witness :
  process_paper_metadata listed_paper
  = Ok (<["unique_id" := PyStr ("nber_" +:+ "w33433")]>
          (<["title" := PyStr "Minimum Wages"]>
             (<["authors" := PyList ["David Card"; "Alan B. Krueger"]]>
                (<["abstract" := PyStr "An abstract."]>
                   (<["date" := PyStr "February 2025"]>
                      (<["paper_id" := PyStr "w33433"]>
                         (<["url" := PyStr ("https://www.nber.org" +:+ "/papers" +:+ "/"
                                            +:+ "w33433")]>
                            (<["journal" := PyStr "NBER Working Paper"]> ∅)))))))).
Proof.
  apply (process_paper_metadata_of_listing listed_paper "/papers" "w33433"
           [("david-card", "David Card"); ("alan-krueger", "Alan B. Krueger")]
           (PyStr "Minimum Wages") (PyStr "An abstract.") (PyStr "February 2025")).
  - reflexivity.
  - reflexivity.
  - reflexivity.
  - repeat constructor.
  - reflexivity.
  - reflexivity.
  - reflexivity.
Defined.

(** What the scraper stores and what the podcast announces. Whenever
    [process_paper_metadata] returns, the paper id it stores has no slash and
    the unique id is [nber_<paper id>]; and the text [make_podcast] announces
    for this record is title, authors (when there are any) and the journal
    [NBER Working Paper], never the date: the scraper stores it under [date],
    while [make_podcast] reads [publication_date]. *)
Theorem scraped_metadata_announced env paper :
  match process_paper_metadata paper with
  | Ok metadata =>
      exists paper_id title authors,
        metadata !! "paper_id" = Some (PyStr paper_id)
        /\ lacks "/" paper_id
        /\ metadata !! "unique_id" = Some (PyStr ("nber_" +:+ paper_id))
        /\ metadata !! "date" = paper !! "displaydate"
        /\ metadata !! "publication_date" = None
        /\ metadata !! "title" = Some title
        /\ metadata !! "authors" = Some (PyList authors)
        /\ metadata_text_of env metadata
           = Ok (let metadata_text := "Title: " +:+ py_format env title +:+ "." in
                 let metadata_text :=
                   match authors with
                   | [] => metadata_text
                   | _ => metadata_text +:+ " By " +:+ str_join ", " authors +:+ "."
                   end in
                 metadata_text +:+ " Published in " +:+ "NBER Working Paper" +:+ ".")
  | Raise _ => True
  end.
Proof.
  unfold process_paper_metadata, dict_getitem.
  destruct (paper !! "url") as [url|]; [|exact I]. cbn [rbind].
  destruct (as_str "split" url) as [url_s|]; [|exact I]. cbn [rbind].
  destruct (py_getitem (str_split "/" url_s) (-1)) as [paper_id|] eqn:Hid; [|exact I].
  cbn [rbind].
  destruct (paper !! "authors") as [listed|]; [|exact I]. cbn [rbind].
  destruct (py_iter listed) as [listed_l|]; [|exact I]. cbn [rbind].
  destruct (map_result clean_author listed_l) as [authors|]; [|exact I]. cbn [rbind].
  destruct (paper !! "title") as [title|]; [|exact I]. cbn [rbind].
  destruct (paper !! "abstract") as [abstract|]; [|exact I]. cbn [rbind].
  destruct (paper !! "displaydate") as [displaydate|] eqn:Hd; [|exact I]. cbn [rbind].
  exists paper_id, title, authors.
  set (metadata := <["unique_id" := _]> _).
  assert (L1 : metadata !! "paper_id" = Some (PyStr paper_id)) by reflexivity.
  assert (L2 : metadata !! "unique_id" = Some (PyStr ("nber_" +:+ paper_id))) by reflexivity.
  assert (L3 : metadata !! "date" = Some displaydate) by reflexivity.
  assert (L4 : metadata !! "publication_date" = None) by reflexivity.
  assert (L5 : metadata !! "title" = Some title) by reflexivity.
  assert (L6 : metadata !! "authors" = Some (PyList authors)) by reflexivity.
  assert (L7 : metadata !! "journal" = Some (PyStr "NBER Working Paper")) by reflexivity.
  split; [exact L1|]. split; [exact (last_piece_lacks_slash _ _ Hid)|].
  split; [exact L2|]. split; [exact L3|]. split; [exact L4|].
  split; [exact L5|]. split; [exact L6|].
  unfold metadata_text_of, dict_getitem. rewrite L5, L6, L7, L4. cbn [rbind truthy py_join].
  change (negb (String.eqb "NBER Working Paper" "")) with true. cbn iota.
  destruct authors as [|a authors]; reflexivity.
Qed.

Section Rewritten.
Import Text.

Variables (a : ascii) (old' new' : list ascii).
Hypothesis first_once : Forall (fun c => c <> a) old'.
Hypothesis new_once : Forall (fun c => c <> a) new'.
Hypothesis new_differs : forall t, starts_with old' (new' ++ t) = false.

Lemma starts_with_replace_from q s : Forall (fun x => x <> a) q ->
starts_with q (replace_from (a :: old') (a :: new') 0 s) = starts_with q s.
Proof.
intros Hq. revert s. induction Hq as [|x q Hx Hq IH]; intros s.
- destruct s as [|d s]; cbn [replace_from]; [reflexivity|].
  destruct (starts_with (a :: old') (d :: s)); reflexivity.
- destruct s as [|d s]; [reflexivity|].
  cbn [replace_from].
  destruct (starts_with (a :: old') (d :: s)) eqn:Em.
  + cbn in Em. apply andb_true_iff in Em as [Ead _].
    apply Ascii.eqb_eq in Ead. subst d. cbn.
    destruct (Ascii.eqb_spec x a); [contradiction | reflexivity].
  + cbn [starts_with]. rewrite IH. reflexivity.
Qed.

Lemma occurrences_skip l t : Forall (fun c => c <> a) l ->
occurrences (a :: old') (l ++ t) = occurrences (a :: old') t.
Proof.
induction 1 as [|c l Hc _ IH]; [reflexivity|].
cbn [app occurrences starts_with].
destruct (Ascii.eqb_spec a c); [congruence|]. exact IH.
Qed.

Lemma occurrences_new_app t :
occurrences (a :: old') t = 0%nat ->
occurrences (a :: old') ((a :: new') ++ t) = 0%nat.
Proof.
intros Ht. cbn [app occurrences starts_with].
rewrite Ascii.eqb_refl, new_differs, (occurrences_skip _ _ new_once). exact Ht.
Qed.

Lemma replace_from_no_occurrence s : forall skip,
occurrences (a :: old') (replace_from (a :: old') (a :: new') skip s) = 0%nat.
Proof.
induction s as [|c s IH]; intros skip; [reflexivity|].
cbn [replace_from]. destruct skip as [|k]; [|apply IH].
destruct (starts_with (a :: old') (c :: s)) eqn:Em.
- apply occurrences_new_app, IH.
- cbn [occurrences]. rewrite IH.
  cbn [starts_with] in *.
  destruct (Ascii.eqb a c); [|reflexivity]. cbn in *.
  rewrite (starts_with_replace_from _ _ first_once), Em. reflexivity.
Qed.

End Rewritten.

(** A link rewritten for direct download is no preview link any more. *)
Lemma direct_link_no_preview url :
  count_occurrences "?dl=0" (str_replace "?dl=0" "?raw=1" url) = 0%nat.
Proof.
  unfold count_occurrences, str_replace. rewrite list_ascii_of_string_of_list_ascii.
  apply (replace_from_no_occurrence "?"%char
           (list_ascii_of_string "dl=0") (list_ascii_of_string "raw=1")).
  - repeat constructor; discriminate.
  - repeat constructor; discriminate.
  - intros t. reflexivity.
Qed.

(** [upload_to_dropbox] reads the file, asks the storage service for the
    upload and the shared link, and hands back the link rewritten for direct
    download: the link it returns never contains [?dl=0]. It raises when the
    file cannot be opened, before anything is asked, or when the service
    fails, with that exception. File system and feed are never changed. *)
Theorem upload_to_dropbox_direct_link env file_path w :
  let run := upload_to_dropbox env file_path w in
  let asked := calls w ++ [DropboxUpload file_path] in
  fs run.2 = fs w /\ feed run.2 = feed w
  /\ match run.1 with
     | Ok url =>
         (exists i d, fs w !! file_path = Some (File i d))
         /\ calls run.2 = asked
         /\ (exists shared, dropbox_upload env asked = Ok shared
                            /\ url = str_replace "?dl=0" "?raw=1" shared)
         /\ count_occurrences "?dl=0" url = 0%nat
     | Raise e =>
         (open_read file_path w).1 = Raise e /\ calls run.2 = calls w
         \/ (open_read file_path w).1 = Ok tt
            /\ dropbox_upload env asked = Raise e /\ calls run.2 = asked
     end.
Proof.
  cbv zeta. destruct (upload_to_dropbox env file_path w) as [r w'] eqn:H. cbn [fst snd].
  unfold upload_to_dropbox, try_except, bind, open_read in *.
  destruct (fs w !! file_path) as [[i d|]|] eqn:Ef.
  - cbn in H. unfold external in H. cbn in H.
    destruct (dropbox_upload env (calls w ++ [DropboxUpload file_path])) as [shared|e] eqn:Eu.
    + cbn in H. injection H as <- <-. cbn.
      split; [reflexivity|]. split; [reflexivity|].
      split; [eauto|]. split; [reflexivity|]. split; [eauto|].
      apply direct_link_no_preview.
    + cbn in H. destruct (exn_kind e) eqn:Ek; cbn in H; injection H as <- <-; cbn;
        repeat split; auto.
  - cbn in H. injection H as <- <-; cbn. repeat split; auto.
  - cbn in H. injection H as <- <-; cbn. repeat split; auto.
Qed.

Section Names.
Import Text.

Lemma rstrip_app_space l c : is_space c = true -> rstrip (l ++ [c]) = rstrip l.
Proof.
intros Hc. induction l as [|x l IH]; cbn [app rstrip]; [rewrite Hc; reflexivity|].
rewrite IH. reflexivity.
Qed.

Lemma lstrip_head l :
(forall c, head l = Some c -> is_space c = false) -> lstrip l = l.
Proof.
destruct l as [|c l]; [reflexivity|]. intros H. cbn. rewrite (H c eq_refl). reflexivity.
Qed.

Lemma lstrip_head_free l c : head (lstrip l) = Some c -> is_space c = false.
Proof.
induction l as [|x l IH]; cbn; [discriminate|].
destruct (is_space x) eqn:Ex; [exact IH|]. cbn. intros [= <-]. exact Ex.
Qed.

Lemma rstrip_head l c :
(forall d, head l = Some d -> is_space d = false) ->
head (rstrip l) = Some c -> is_space c = false.
Proof.
destruct l as [|x l]; cbn; [discriminate|]. intros Hx.
destruct (rstrip l); [destruct (is_space x); cbn; [discriminate|]|];
  cbn; intros [= <-]; apply Hx; reflexivity.
Qed.

Lemma tidy_ends s : tidy s = true ->
exists c l, list_ascii_of_string s = c :: l /\ is_space c = false
            /\ (forall d, last (c :: l) = Some d -> is_space d = false).
Proof.
unfold tidy. destruct (list_ascii_of_string s) as [|c l]; [discriminate|].
intros H. apply andb_true_iff in H as [Hc Hl]. exists c, l.
split; [reflexivity|]. split; [destruct (is_space c); [discriminate | reflexivity]|].
intros d Hd. rewrite Hd in Hl. destruct (is_space d); [discriminate | reflexivity].
Qed.

Lemma strip_tidy s : tidy s = true -> str_strip s = s.
Proof.
intros (c & l & El & Hc & Hl)%tidy_ends. unfold str_strip, strip. rewrite El.
rewrite lstrip_head by (cbn; intros ? [= <-]; exact Hc).
rewrite (rstrip_id _ Hl), <- El. apply string_of_list_ascii_of_string.
Qed.

Lemma strip_space_tidy s : tidy s = true -> str_strip (" " +:+ s) = s.
Proof.
intros Hs. rewrite <- (strip_tidy s Hs) at 2. reflexivity.
Qed.

Lemma strip_tidy_space s : tidy s = true -> str_strip (s +:+ " ") = s.
Proof.
intros Hs. rewrite <- (strip_tidy s Hs) at 2.
destruct (tidy_ends s Hs) as (c & l & El & Hc & Hl).
unfold str_strip, strip. rewrite list_ascii_of_string_app, El. cbn [app lstrip].
rewrite Hc. change (c :: l ++ list_ascii_of_string " ") with ((c :: l) ++ [" "%char]).
rewrite rstrip_app_space by reflexivity. reflexivity.
Qed.

Lemma tidy_join f l : tidy f = true -> tidy l = true -> tidy (f +:+ " " +:+ l) = true.
Proof.
intros (c & f' & Ef & Hc & _)%tidy_ends (d & l' & El & _ & Hl)%tidy_ends.
unfold tidy. rewrite !list_ascii_of_string_app, Ef, El. cbn [app].
rewrite Hc. cbn [negb andb].
change (c :: f' ++ list_ascii_of_string " " ++ d :: l')
  with ((c :: f') ++ (list_ascii_of_string " ") ++ d :: l').
rewrite !last_app. cbn [last] in Hl |- *.
destruct (last (d :: l')) as [z|] eqn:Ez.
- rewrite (Hl z eq_refl). reflexivity.
- apply last_None in Ez. discriminate.
Qed.

Lemma strip_stripped s : stripped (str_strip s).
Proof.
unfold stripped, str_strip. rewrite list_ascii_of_string_of_list_ascii. unfold strip.
split; intros c Hc.
- eapply rstrip_head; [|exact Hc]. intros d. apply lstrip_head_free.
- eapply rstrip_last. exact Hc.
Qed.

End Names.

Section Records.

Variable repr_of : json -> string.

Lemma js_getitem_error v k e : js_getitem v k = Raise e -> lookup_error e.
Proof.
unfold lookup_error.
destruct v as [| | | | |d]; cbn; try (intros [= <-]; cbn; auto).
destruct (dict_find d k); [discriminate|]. intros [= <-]. cbn. auto.
Qed.

Lemma js_get_error v k default e : js_get v k default = Raise e -> lookup_error e.
Proof.
unfold lookup_error. destruct v; cbn; try discriminate; intros [= <-]; cbn; auto.
Qed.

Lemma js_get_dict v k default x :
js_get v k default = Ok x ->
exists d, v = JDict d /\ x = from_option id default (dict_find d k).
Proof. destruct v; cbn; try discriminate. intros [= <-]. eauto. Qed.

Lemma js_iter_error v e : js_iter v = Raise e -> lookup_error e.
Proof.
unfold lookup_error. destruct v; cbn; try discriminate; intros [= <-]; cbn; auto.
Qed.

Lemma creator_name_error creator e :
creator_name repr_of creator = Raise e -> lookup_error e.
Proof.
unfold creator_name.
destruct (js_get creator "firstName" (JStr "")) eqn:E1; cbn [rbind];
  [|intros [= <-]; eapply js_get_error; eassumption].
destruct (js_get creator "lastName" (JStr "")) eqn:E2; cbn [rbind];
  [discriminate|intros [= <-]; eapply js_get_error; eassumption].
Qed.

Lemma creator_name_stripped creator name :
creator_name repr_of creator = Ok name -> stripped name.
Proof.
unfold creator_name.
destruct (js_get creator "firstName" (JStr "")); cbn [rbind]; [|discriminate].
destruct (js_get creator "lastName" (JStr "")); cbn [rbind]; [|discriminate].
intros [= <-]. apply strip_stripped.
Qed.

Lemma creator_names creators : 
match map_result (creator_name repr_of) creators with
| Ok names => Forall stripped names /\ length names = length creators
| Raise e => lookup_error e
end.
Proof.
induction creators as [|c creators IH]; cbn [map_result]; [split; [constructor | reflexivity]|].
destruct (creator_name repr_of c) as [name|e] eqn:Ec; cbn [rbind];
  [|eapply creator_name_error; eassumption].
destruct (map_result (creator_name repr_of) creators) as [names|e]; cbn [rbind]; [|exact IH].
destruct IH as [IH1 IH2]. split; [constructor; [eapply creator_name_stripped; eassumption | exact IH1]|].
cbn [length]. congruence.
Qed.

Lemma creator_name_fields creator first last :
name_field creator "firstName" first ->
name_field creator "lastName" last ->
creator_name repr_of (JDict creator) = Ok (str_strip (first +:+ " " +:+ last)).
Proof.
unfold creator_name, js_get. cbn [rbind].
intros [-> | [-> ->]] [-> | [-> ->]]; reflexivity.
Qed.

Lemma names_joined first last :
first = "" \/ tidy first = true ->
last = "" \/ tidy last = true ->
str_strip (first +:+ " " +:+ last)
= if String.eqb first "" then last
  else if String.eqb last "" then first
  else first +:+ " " +:+ last.
Proof.
intros [-> | Hf] [-> | Hl].
- reflexivity.
- cbn [String.eqb]. apply (strip_space_tidy _ Hl).
- destruct (String.eqb_spec first ""); [subst; discriminate|].
  cbn [String.eqb]. rewrite <- (strip_tidy_space _ Hf) at 2.
  unfold str_strip. rewrite !list_ascii_of_string_app. reflexivity.
- destruct (String.eqb_spec first ""); [subst; discriminate|].
  destruct (String.eqb_spec last ""); [subst; discriminate|].
  apply strip_tidy, tidy_join; assumption.
Qed.

End Records.

(** The name [process_zotero_metadata] makes of a creator whose name fields
    are missing or hold strings without white space around them: first and
    last name joined by one space when both are there; the one that is there
    alone, without a space before or after it; and the empty string for a
    creator without either, such as an institution entered under [name]. *)
Theorem creator_name_of_fields repr_of creator first last :
  name_field creator "firstName" first ->
  name_field creator "lastName" last ->
  first = "" \/ tidy first = true ->
  last = "" \/ tidy last = true ->
  creator_name repr_of (JDict creator)
  = Ok (if String.eqb first "" then last
        else if String.eqb last "" then first
        else first +:+ " " +:+ last).
Proof.
  intros Hf Hl Tf Tl. rewrite (creator_name_fields repr_of creator first last Hf Hl).
  f_equal. apply names_joined; assumption.
Qed.

Lemma creator_name_of_fields_witness :
  creator_name repr_plain
    (JDict [("creatorType", JStr "author"); ("firstName", JStr "");
            ("lastName", JStr "Krueger")])
  = Ok "Krueger".
Proof.
  apply (creator_name_of_fields repr_plain
           [("creatorType", JStr "author"); ("firstName", JStr "");
            ("lastName", JStr "Krueger")] "" "Krueger").
  - left. reflexivity.
  - left. reflexivity.
  - left. reflexivity.
  - right. reflexivity.
Defined.

(** The record [process_zotero_metadata] makes of an item. When it returns,
    the item is a dict with [key] and a dict under [data]; the record has
    exactly the eight keys of the records of the NBER scraper; the unique id
    is [zotero_<key>] and the paper id is the key; the authors are strings
    without white space at either end, one per creator; title, abstract,
    date, URL and journal are the item's [title], [abstractNote], [date],
    [url] and [publicationTitle], or the empty string where the item has
    none. When it raises, it is with [KeyError], [TypeError] or
    [AttributeError]. *)
Theorem process_zotero_metadata_record repr_of item :
  match process_zotero_metadata repr_of item with
  | Ok metadata =>
      exists key data names,
        js_getitem item "key" = Ok key
        /\ js_getitem item "data" = Ok (JDict data)
        /\ dom metadata
           = list_to_set ["unique_id"; "title"; "authors"; "abstract"; "date";
                          "paper_id"; "url"; "journal"]
        /\ metadata !! "unique_id" = Some (JStr ("zotero_" +:+ js_format repr_of key))
        /\ metadata !! "paper_id" = Some key
        /\ metadata !! "authors" = Some (JList (JStr <$> names))
        /\ Forall stripped names
        /\ (forall creators, dict_find data "creators" = Some (JList creators) ->
                             length names = length creators)
        /\ (dict_find data "creators" = None -> names = [])
        /\ metadata !! "title" = Some (from_option id (JStr "") (dict_find data "title"))
        /\ metadata !! "abstract"
           = Some (from_option id (JStr "") (dict_find data "abstractNote"))
        /\ metadata !! "date" = Some (from_option id (JStr "") (dict_find data "date"))
        /\ metadata !! "url" = Some (from_option id (JStr "") (dict_find data "url"))
        /\ metadata !! "journal"
           = Some (from_option id (JStr "") (dict_find data "publicationTitle"))
  | Raise e => lookup_error e
  end.
Proof.
  unfold process_zotero_metadata.
  destruct (js_getitem item "data") as [data|e] eqn:Ed; cbn [rbind];
    [|eapply js_getitem_error; eassumption].
  destruct (js_get data "creators" (JList [])) as [creators|e] eqn:Ec; cbn [rbind];
    [|eapply js_get_error; eassumption].
  apply js_get_dict in Ec as (d & -> & ->).
  destruct (js_iter _) as [cs|e] eqn:Ei; cbn [rbind]; [|eapply js_iter_error; eassumption].
  pose proof (creator_names repr_of cs) as Hn.
  destruct (map_result (creator_name repr_of) cs) as [names|e]; cbn [rbind]; [|exact Hn].
  destruct (js_getitem item "key") as [key|e] eqn:Ek; cbn [rbind];
    [|eapply js_getitem_error; eassumption].
  cbn [js_get rbind].
  exists key, d, names. destruct Hn as [Hs Hlen].
  split; [reflexivity|]. split; [reflexivity|].
  split; [rewrite !dom_insert_L, dom_empty_L; cbn; set_solver|].
  split; [reflexivity|]. split; [reflexivity|]. split; [reflexivity|].
  split; [exact Hs|].
  split; [intros creators Hc; rewrite Hc in Ei; cbn in Ei; congruence|].
  split; [intros Hc; rewrite Hc in Ei; cbn in Ei; injection Ei as <-;
          destruct names; [reflexivity | discriminate]|].
  repeat split; reflexivity.
Qed.

(** An item with a key and a dict of data whose creators, if it has any, are
    dicts is always turned into a record, whatever else is missing from it:
    [process_zotero_metadata] does not raise. *)
Theorem process_zotero_metadata_returns repr_of item key data :
  js_getitem item "key" = Ok key ->
  js_getitem item "data" = Ok (JDict data) ->
  (dict_find data "creators" = None
   \/ exists creators, dict_find data "creators" = Some (JList (JDict <$> creators))) ->
  is_Ok (process_zotero_metadata repr_of item) = true.
Proof.
  intros Hk Hd Hc. unfold process_zotero_metadata. rewrite Hd, Hk. cbn [rbind js_get].
  assert (Hcs : exists creators,
             js_iter (from_option id (JList []) (dict_find data "creators"))
             = Ok (JDict <$> creators)).
  { destruct Hc as [-> | [creators ->]]; [exists [] | exists creators]; reflexivity. }
  destruct Hcs as [creators ->]. cbn [rbind].
  assert (Hn : exists names,
             map_result (creator_name repr_of) (JDict <$> creators) = Ok names).
  { induction creators as [|c creators [names IH]]; [exists []; reflexivity|].
    cbn [fmap list_fmap map_result]. unfold creator_name at 1. cbn [js_get rbind].
    change (list_fmap _ _ JDict creators) with (JDict <$> creators).
    rewrite IH. cbn [rbind]. eauto. }
  destruct Hn as [names ->]. reflexivity.
Qed.

Lemma process_zotero_metadata_returns_witness :
  is_Ok (process_zotero_metadata repr_plain journal_article) = true.
Proof.
  apply (process_zotero_metadata_returns repr_plain journal_article (JStr "AB12CD34")
           [("itemType", JStr "journalArticle");
            ("title", JStr "Minimum Wages and Employment");
            ("creators",
             JList [JDict [("creatorType", JStr "author");
                           ("firstName", JStr "David");
                           ("lastName", JStr "Card")];
                    JDict [("creatorType", JStr "author");
                           ("firstName", JStr "");
                           ("lastName", JStr "Krueger")];
                    JDict [("creatorType", JStr "author");
                           ("name", JStr "World Bank")]]);
            ("date", JStr "1994");
            ("publicationTitle", JStr "American Economic Review")]).
  - reflexivity.
  - reflexivity.
  - right.
    exists [[("creatorType", JStr "author"); ("firstName", JStr "David");
             ("lastName", JStr "Card")];
            [("creatorType", JStr "author"); ("firstName", JStr "");
             ("lastName", JStr "Krueger")];
            [("creatorType", JStr "author"); ("name", JStr "World Bank")]].
    reflexivity.
Defined.

(** The record of the sample article. *)
Example journal_article_record :
  process_zotero_metadata repr_plain journal_article
  = Ok (<["unique_id" := JStr "zotero_AB12CD34"]>
          (<["title" := JStr "Minimum Wages and Employment"]>
             (<["authors" := JList [JStr "David Card"; JStr "Krueger"; JStr ""]]>
                (<["abstract" := JStr ""]>
                   (<["date" := JStr "1994"]>
                      (<["paper_id" := JStr "AB12CD34"]>
                         (<["url" := JStr ""]>
                            (<["journal" := JStr "American Economic Review"]> ∅)))))))).
Proof. reflexivity. Qed.

